(** * Resilience core of the Belief Engine pipeline

    A shallow embedding of [src/utils/parallel.py], [src/utils/retry.py],
    [src/utils/checkpoint.py], [src/utils/quality_scorer.py] and the batch
    extraction of [src/beliefs/extractor.py], with the constants of
    [config.py], and the properties of the rate limiter, the parallel
    executor, the retry decorators, the checkpoint manager, the quality
    scorer and the belief extractor.

    Conventions of the embedding:
    - Python [int] is [Z]; Python [float] quantities (seconds, scores,
      penalties) are exact rationals [Q]: the rounding of binary floating
      point is not modelled, and its overflow is modelled where a caller
      can reach it, in the power of [retry_with_backoff];
    - [str] is [string] (a sequence of 8-bit characters), and [str.lower]
      lowers the letters A-Z only;
    - a raised exception is a value [Raised e] of an outcome type, and the
      wall clock, the thread schedule and the file system are explicit
      arguments. *)

From Stdlib Require Import ZArith QArith Qminmax Qpower Qabs String Ascii List.
From Stdlib Require Import DecimalString Lqa.
From stdpp Require Import gmap strings list.

Set Warnings "-register-all".
Local Open Scope Z_scope.

(** ** Python values shared by the modules *)

(** [x or default] on an optional integer argument: [None] and [0] are
    falsy and give the default. *)
Definition int_or_default (x : option Z) (default : Z) : Z :=
  match x with
  | None => default
  | Some v => if decide (v = 0) then default else v
  end.

(** [x if x is not None else default]. *)
Definition if_not_None {A} (x : option A) (default : A) : A :=
  match x with
  | None => default
  | Some v => v
  end.

(** The result of running a Python callable: it returns or it raises. *)
Inductive outcome (V E : Type) : Type :=
  | Returned (v : V)
  | Raised (e : E).
Arguments Returned {V E} v.
Arguments Raised {V E} e.

(** [needle in hay] on strings. *)
Fixpoint contains (needle hay : string) : bool :=
  if String.prefix needle hay then true
  else match hay with
       | EmptyString => false
       | String _ hay' => contains needle hay'
       end.

Definition lower_ascii (c : ascii) : ascii :=
  let n := nat_of_ascii c in
  if (65 <=? n)%nat && (n <=? 90)%nat then ascii_of_nat (n + 32) else c.

(** [s.lower()] *)
Fixpoint lower (s : string) : string :=
  match s with
  | EmptyString => EmptyString
  | String c s' => String (lower_ascii c) (lower s')
  end.

(** Sequencing of callables that can raise. *)
Definition bind {V W E} (m : outcome V E) (k : V -> outcome W E)
  : outcome W E :=
  match m with
  | Returned v => k v
  | Raised e => Raised e
  end.

Notation "'let*' x ':=' m 'in' k" := (bind m (fun x => k))
  (at level 10, x name, m at level 200, k at level 200,
   format "'[v' 'let*'  x  :=  m  'in' '/' k ']'").

(** ** config.py *)

Module config.
Definition CHECKPOINT_CLEANUP_DAYS : Z := 30.
Definition CHECKPOINT_PHASES : list string :=
  ["utterances"; "beliefs_raw"; "canonical_beliefs"; "clusters_updated"]%string.

Definition QUALITY_PENALTY_ERROR : Q := 2.
Definition QUALITY_PENALTY_RETRY : Q := 1 # 2.
Definition QUALITY_PENALTY_MALFORMED : Q := 1.
Definition QUALITY_PENALTY_MISMATCH : Q := 1 # 2.

Definition MAX_RETRIES : Z := 3.
Definition RETRY_BACKOFF_FACTOR : Q := 2.
Definition RETRY_MAX_WAIT : Q := 60.

Definition QUALITY_THRESHOLDS : gmap string Z :=
  {[ "A" := 90; "B" := 80; "C" := 70; "D" := 60 ]}%string.

Definition API_RATE_LIMIT_RPM : Z := 3500.
Definition API_RATE_LIMIT_TPM : Z := 90000.
End config.

(** ** parallel.py: RateLimiter *)

Module RateLimiter.

(** [self.request_times] is a deque of timestamps and
    [self.token_counts] a deque of [(timestamp, token_count)] pairs, both
    with the oldest entry first. *)
Record t : Type := mk {
  rpm : Z;
  tpm : Z;
  request_times : list Q;
  token_counts : list (Q * Z)
}.

Definition init (rpm_arg tpm_arg : option Z) : t :=
  {| rpm := int_or_default rpm_arg config.API_RATE_LIMIT_RPM;
     tpm := int_or_default tpm_arg config.API_RATE_LIMIT_TPM;
     request_times := [];
     token_counts := [] |}.

(** [while d and d[0] < cutoff: d.popleft()] *)
Fixpoint pop_older {A} (ts : A -> Q) (cutoff : Q) (d : list A) : list A :=
  match d with
  | [] => []
  | x :: d' => if Qlt_le_dec (ts x) cutoff then pop_older ts cutoff d' else d
  end.

Definition _clean_old_entries (self : t) (current_time : Q) : t :=
  let cutoff := (current_time - 60)%Q in
  {| rpm := rpm self;
     tpm := tpm self;
     request_times := pop_older id cutoff (request_times self);
     token_counts := pop_older fst cutoff (token_counts self) |}.

(** [sum(count for _, count in self.token_counts)] *)
Definition sum_counts (d : list (Q * Z)) : Z :=
  foldr (fun e acc => snd e + acc) 0 d.

(** The wait computed by the two checks, before any sleep. [None] is the
    [IndexError] of [self.request_times[0]] on an empty deque, which a
    negative [rpm] reaches. *)
Definition compute_wait (self : t) (current_time : Q) (tokens : Z)
  : option Q :=
  let wait_time := 0%Q in
  wait_time ←
    (if decide (rpm self <= Z.of_nat (length (request_times self))) then
       oldest_request ← head (request_times self);
       let rpm_wait := (60 - (current_time - oldest_request) + (1 # 10))%Q in
       Some (Qmax wait_time rpm_wait)
     else Some wait_time);
  if decide (0 < tokens) then
    let current_tokens := sum_counts (token_counts self) in
    if decide (tpm self < current_tokens + tokens) then
      let oldest_token_time :=
        match token_counts self with
        | [] => current_time
        | e :: _ => fst e
        end in
      let tpm_wait := (60 - (current_time - oldest_token_time) + (1 # 10))%Q in
      Some (Qmax wait_time tpm_wait)
    else Some wait_time
  else Some wait_time.

(** The tail of [wait_if_needed]: append the request, and the token
    entry when [tokens > 0]. *)
Definition record_request (self : t) (current_time : Q) (tokens : Z) : t :=
  {| rpm := rpm self;
     tpm := tpm self;
     request_times := request_times self ++ [current_time];
     token_counts :=
       if decide (0 < tokens)
       then token_counts self ++ [(current_time, tokens)]
       else token_counts self |}.

(** [wait_if_needed(tokens)]. [now] is the first reading of
    [time.time()]; when the call sleeps, the second reading is
    [now + wait_time + lag], where [lag >= 0] is how much longer than
    asked [time.sleep] took. The result is the new state and the time
    waited. *)
Definition wait_if_needed (self : t) (now lag : Q) (tokens : Z)
  : option (t * Q) :=
  let current_time := now in
  let self := _clean_old_entries self current_time in
  wait_time ← compute_wait self current_time tokens;
  let '(self, current_time) :=
    if Qlt_le_dec 0 wait_time then
      let current_time := (now + wait_time + lag)%Q in
      (_clean_old_entries self current_time, current_time)
    else (self, current_time) in
  Some (record_request self current_time tokens, wait_time).

(** A sequence of calls, each given by the clock reading when it takes
    the lock and its token count; [time.sleep] is exact ([lag = 0]). *)
Fixpoint calls (self : t) (reqs : list (Q * Z)) : option t :=
  match reqs with
  | [] => Some self
  | (now, tokens) :: reqs' =>
      r ← wait_if_needed self now 0 tokens;
      calls (fst r) reqs'
  end.

(** The timestamps of [d] do not decrease and lie between [lo] and [hi]:
    [lo <= ts d[0] <= ts d[1] <= ... <= hi]. *)
Fixpoint ordered {A} (ts : A -> Q) (lo hi : Q) (d : list A) : Prop :=
  match d with
  | [] => (lo <= hi)%Q
  | x :: d' => (lo <= ts x)%Q /\ ordered ts (ts x) hi d'
  end.

End RateLimiter.

(** ** parallel.py: ParallelExecutor *)

Module ParallelExecutor.

(** [self.rate_limiter] is not read by [map] and is left out. *)
Record t : Type := mk { max_workers : Z }.

(** [ParallelExecutor(max_workers)]; [MAX_WORKERS] is
    [config.MAX_WORKERS], read from the environment. *)
Definition init (MAX_WORKERS : Z) (max_workers_arg : option Z) : t :=
  {| max_workers := int_or_default max_workers_arg MAX_WORKERS |}.

(** What can leave [map]: an exception of [func], or the [ValueError] of
    [ThreadPoolExecutor(max_workers=...)] for a width below 1. *)
Inductive map_error (E : Type) : Type :=
  | FuncRaised (e : E)
  | PoolValueError.
Arguments FuncRaised {E} e.
Arguments PoolValueError {E}.

Section Map.
Context {T V E : Type}.
(** Python's [None] among the result values. *)
Variable py_None : V.
(** [config.ENABLE_PARALLEL], read from the environment. *)
Variable ENABLE_PARALLEL : bool.

(** [[func(item) for item in items]]: in order, and the first
    exception ends the comprehension. *)
Fixpoint comprehension (func : T -> outcome V E) (items : list T)
  : outcome (list V) E :=
  match items with
  | [] => Returned []
  | item :: items' =>
      match func item with
      | Raised e => Raised e
      | Returned v =>
          match comprehension func items' with
          | Raised e => Raised e
          | Returned vs => Returned (v :: vs)
          end
      end
  end.

(** One round of the [as_completed] loop, for the future of [index]:
    [results[index] = future.result()], or [None] when the future
    holds an exception. *)
Definition collect (futures : list (outcome V E)) (results : list V)
    (index : nat) : list V :=
  match futures !! index with
  | Some (Returned v) => <[index := v]> results
  | Some (Raised _) => <[index := py_None]> results
  | None => results
  end.

(** [map(func, items)]. [completion_order] lists the indices of the
    futures in the order [as_completed] yields them, which the thread
    schedule decides. The exceptions [E] of [func] are instances of
    [Exception], which is what [except Exception] catches. *)
Definition map (self : t) (func : T -> outcome V E) (items : list T)
    (completion_order : list nat) : outcome (list V) (map_error E) :=
  if negb ENABLE_PARALLEL || bool_decide (max_workers self = 1) then
    match comprehension func items with
    | Returned vs => Returned vs
    | Raised e => Raised (FuncRaised e)
    end
  else
    let results := replicate (length items) py_None in
    if decide (max_workers self <= 0) then Raised PoolValueError
    else
      let futures := func <$> items in
      Returned (foldl (collect futures) results completion_order).

(** The slot of an item whose failure is isolated: its value, or
    [None] when [func] raises. *)
Definition slot (func : T -> outcome V E) (item : T) : V :=
  match func item with
  | Returned v => v
  | Raised _ => py_None
  end.

End Map.

End ParallelExecutor.

(** ** parallel.py: batch_items and process_in_batches *)

Module parallel.

(** [range(0, stop, step)] for [step > 0]: 0, [step], [2 * step], ...
    below [stop]. *)
Definition range_from_0 (stop step : Z) : list Z :=
  (fun k => Z.of_nat k * step) <$> seq 0 (Z.to_nat ((stop + step - 1) / step)).

(** [items[lo:hi]] for [0 <= lo <= hi]; the slice stops at the end of the
    list. *)
Definition slice {T} (items : list T) (lo hi : Z) : list T :=
  take (Z.to_nat (hi - lo)) (drop (Z.to_nat lo) items).

(** [batch_items(items, batch_size)]. [None] is the [ValueError] of
    [range] for a step of 0; for a negative step the range is empty. *)
Definition batch_items {T} (items : list T) (batch_size : Z)
  : option (list (list T)) :=
  if decide (batch_size = 0) then None
  else if decide (batch_size < 0) then Some []
  else
    Some ((fun i => slice items i (i + batch_size))
            <$> range_from_0 (Z.of_nat (length items)) batch_size).

(** What can leave [process_in_batches]: what leaves [map], or the
    [ValueError] of [batch_items]. *)
Inductive process_error (E : Type) : Type :=
  | OfMap (e : ParallelExecutor.map_error E)
  | RangeValueError.
Arguments OfMap {E} e.
Arguments RangeValueError {E}.

(** The flattening loop: [if batch_result: results.extend(batch_result)].
    A batch result is a list, or [None]; [None] and the empty list are
    falsy. *)
Definition flatten {R} (batch_results : list (option (list R))) : list R :=
  foldl (fun results batch_result =>
           match batch_result with
           | Some (x :: l) => results ++ x :: l
           | Some [] => results
           | None => results
           end) [] batch_results.

(** [process_in_batches(func, items, batch_size, parallel)];
    [ENABLE_PARALLEL], [MAX_WORKERS] and [BATCH_SIZE] are the settings of
    [config] read from the environment. *)
Definition process_in_batches {T R E} (ENABLE_PARALLEL : bool)
    (MAX_WORKERS BATCH_SIZE : Z)
    (func : list T -> outcome (option (list R)) E) (items : list T)
    (batch_size : option Z) (parallel : bool) (completion_order : list nat)
  : outcome (list R) (process_error E) :=
  let batch_size := int_or_default batch_size BATCH_SIZE in
  match batch_items items batch_size with
  | None => Raised RangeValueError
  | Some batches =>
      let batch_results :=
        if parallel && ENABLE_PARALLEL then
          let executor := ParallelExecutor.init MAX_WORKERS None in
          ParallelExecutor.map None ENABLE_PARALLEL executor func batches
            completion_order
        else
          match ParallelExecutor.comprehension func batches with
          | Returned vs => Returned vs
          | Raised e => Raised (ParallelExecutor.FuncRaised e)
          end in
      match batch_results with
      | Returned batch_results => Returned (flatten batch_results)
      | Raised e => Raised (OfMap e)
      end
  end.

End parallel.

(** ** retry.py *)

Module retry.

Local Open Scope string_scope.

(** An exception object (an instance of [Exception]): the name of its
    class and [str(e)]. *)
Record exn : Type := mk_exn { exn_type : string; exn_msg : string }.

Definition str_of_int (z : Z) : string := NilZero.string_of_int (Z.to_int z).

(** [RuntimeError(f"Unexpected retry logic error in {func.__name__}")] *)
Definition RuntimeError (func_name : string) : exn :=
  mk_exn "RuntimeError" ("Unexpected retry logic error in " ++ func_name).

(** [RateLimitError(f"Rate limit exceeded after {max_retries} retries")] *)
Definition RateLimitError (max_retries : Z) : exn :=
  mk_exn "RateLimitError"
    ("Rate limit exceeded after " ++ str_of_int max_retries ++ " retries").

(** [time.sleep] refuses a negative length. *)
Definition SleepValueError : exn :=
  mk_exn "ValueError" "sleep length must be non-negative".

(** A number as Python has it, an [int] or a [float]; a float is the
    rational it stands for. *)
Inductive number : Type :=
  | PyInt (z : Z)
  | PyFloat (x : Q).

Definition value (a : number) : Q :=
  match a with
  | PyInt z => inject_Z z
  | PyFloat x => x
  end.

(** The largest float, [2**1024 - 2**971], and the least magnitude that
    rounding to the nearest float takes to infinity, [2**1024 - 2**970],
    half a unit in the last place above it. *)
Definition FLOAT_MAX : Q := inject_Z (2 ^ 1024 - 2 ^ 971).
Definition FLOAT_OVERFLOW : Q := inject_Z (2 ^ 1024 - 2 ^ 970).

(** The [OverflowError] of a float power, of the conversion of an [int]
    to a float, and of [time.sleep], as CPython 3.11 words them. *)
Definition PowOverflowError : exn :=
  mk_exn "OverflowError" "(34, 'Numerical result out of range')".
Definition FloatOverflowError : exn :=
  mk_exn "OverflowError" "int too large to convert to float".
Definition SleepOverflowError : exn :=
  mk_exn "OverflowError" "timestamp too large to convert to C _PyTime_t".

(** [base ** exponent] for an exponent of at least 1, as [retries] is
    when the wrapper computes its wait: exact on an [int], and on a
    float an [OverflowError] when the power is out of the floats'
    range. *)
Definition py_pow (base : number) (exponent : Z) : outcome Q exn :=
  match base with
  | PyInt z => Returned (inject_Z z ^ exponent)%Q
  | PyFloat x =>
      if Qlt_le_dec (Qabs (x ^ exponent)) FLOAT_OVERFLOW
      then Returned (x ^ exponent)%Q
      else Raised PowOverflowError
  end.

(** [f"{wait_time:.1f}"] in the message of the warning: a float is
    formatted as it is, an [int] is first converted to a float. Only an
    [int] can be as large as [FLOAT_OVERFLOW]. *)
Definition format_1f (wait_time : Q) : outcome unit exn :=
  if Qlt_le_dec (Qabs wait_time) FLOAT_OVERFLOW
  then Returned tt
  else Raised FloatOverflowError.

(** [time.sleep(seconds)], as far as it raises by itself: the length is
    first converted to a 64-bit count of nanoseconds, then a negative
    one is refused. Of the lengths that pass, the operating system
    refuses those that end beyond the range of its clock, which is
    [2**63] nanoseconds from its start; a length of at most
    [SLEEP_SAFE], [2**62] nanoseconds, ends within it. *)
Definition time_sleep (seconds : Q) : outcome unit exn :=
  let nanoseconds := (seconds * inject_Z (10 ^ 9))%Q in
  if Qlt_le_dec nanoseconds (- inject_Z (2 ^ 63)) then
    Raised SleepOverflowError
  else if Qlt_le_dec nanoseconds (inject_Z (2 ^ 63)) then
    if Qlt_le_dec seconds 0 then Raised SleepValueError else Returned tt
  else Raised SleepOverflowError.

Definition SLEEP_SAFE : Q := (inject_Z (2 ^ 62) / inject_Z (10 ^ 9))%Q.

(** No power [base ** 1], ..., [base ** top] leaves the floats' range:
    for a non-negative float base it is enough that the last one is at
    most the largest float; an [int] base has no range. *)
Definition power_in_range (base : number) (top : Z) : Prop :=
  match base with
  | PyInt _ => True
  | PyFloat x => (x ^ top <= FLOAT_MAX)%Q
  end.

(** What a wrapper does, in order: the [n]-th invocation of the wrapped
    function (from 0), a call of [on_retry], a [time.sleep]. *)
Inductive event : Type :=
  | Call (n : nat)
  | OnRetry (retries : Z) (e : exn)
  | Sleep (seconds : Q).

Definition is_Call (ev : event) : bool :=
  match ev with Call _ => true | _ => false end.
Definition is_OnRetry (ev : event) : bool :=
  match ev with OnRetry _ _ => true | _ => false end.
Definition is_Sleep (ev : event) : bool :=
  match ev with Sleep _ => true | _ => false end.

(** One run of a wrapper: how it ends, what it did, the final value of
    its [retries] variable and the final state of the callback. *)
Record run (V S : Type) : Type := mk_run {
  result : outcome V exn;
  trace : list event;
  retries_used : Z;
  callback_state : S
}.
Arguments mk_run {V S}.
Arguments result {V S}.
Arguments trace {V S}.
Arguments retries_used {V S}.
Arguments callback_state {V S}.

(** The events [evs] happened, then the run [r]. *)
Definition after {V S} (evs : list event) (r : run V S) : run V S :=
  mk_run (result r) (evs ++ trace r) (retries_used r) (callback_state r).

Section Wrappers.
Context {V S : Type}.
(** [func.__name__], and the wrapped function: the outcome of its
    [n]-th invocation with the arguments the wrapper was called with. *)
Variable func_name : string.
Variable func : nat -> outcome V exn.

Section RetryWithBackoff.
Variable max_retries : Z.
Variable backoff_factor : number.
Variable max_wait : Q.
(** [isinstance(e, exceptions)] *)
Variable exceptions : exn -> bool.
(** [on_retry], a callback acting on a state of its own. *)
Variable on_retry : option (Z -> exn -> S -> S).

(** The [while retries <= max_retries] loop. Every round that goes
    on adds 1 to [retries], so [max_retries + 1 - retries] rounds
    are enough: [budget] counts them down. *)
Fixpoint backoff_loop (budget : nat) (retries : Z) (n : nat) (s : S)
  : run V S :=
  match budget with
  | O => mk_run (Raised (RuntimeError func_name)) [] retries s
  | Datatypes.S budget' =>
      if decide (retries <= max_retries) then
        match func n with
        | Returned v => mk_run (Returned v) [Call n] retries s
        | Raised e =>
            if exceptions e then
              let retries := retries + 1 in
              if decide (max_retries < retries) then
                mk_run (Raised e) [Call n] retries s
              else
                match py_pow backoff_factor retries with
                | Raised err => mk_run (Raised err) [Call n] retries s
                | Returned power =>
                    let wait_time := Qmin power max_wait in
                    match format_1f wait_time with
                    | Raised err => mk_run (Raised err) [Call n] retries s
                    | Returned _ =>
                        let '(s, called) :=
                          match on_retry with
                          | Some callback =>
                              (callback retries e s, [OnRetry retries e])
                          | None => (s, [])
                          end in
                        match time_sleep wait_time with
                        | Raised err =>
                            mk_run (Raised err) ([Call n] ++ called)
                              retries s
                        | Returned _ =>
                            after ([Call n] ++ called ++ [Sleep wait_time])
                              (backoff_loop budget' retries (Datatypes.S n)
                                 s)
                        end
                    end
                end
            else mk_run (Raised e) [Call n] retries s
        end
      else mk_run (Raised (RuntimeError func_name)) [] retries s
  end.

(** [retry_with_backoff(max_retries, backoff_factor, max_wait,
    exceptions, on_retry)] applied to [func], with the three settings
    already resolved against [config]. *)
Definition retry_with_backoff (s : S) : run V S :=
  backoff_loop (Z.to_nat (max_retries + 1)) 0 0 s.

(** The trace of a run whose first invocations raise the caught
    errors [errs 0], [errs 1], ... and are retried: the round of
    invocation [i], the rounds of invocations [n] to [n + k - 1], and
    what the callbacks of those rounds do to the callback state. *)
Definition backoff_round (errs : nat -> exn) (i : nat) : list event :=
  [Call i]
  ++ match on_retry with
     | Some _ => [OnRetry (Z.of_nat i + 1) (errs i)]
     | None => []
     end
  ++ [Sleep (Qmin (value backoff_factor ^ (Z.of_nat i + 1)) max_wait)].

Definition backoff_rounds (errs : nat -> exn) (n k : nat) : list event :=
  flat_map (backoff_round errs) (seq n k).

Definition callbacks (errs : nat -> exn) (n k : nat) (s : S) : S :=
  foldl (fun s i =>
           match on_retry with
           | Some callback => callback (Z.of_nat i + 1) (errs i) s
           | None => s
           end) s (seq n k).

End RetryWithBackoff.

End Wrappers.

(** The three classifications of [retry_openai_call], on [str(e)]. *)
Definition is_rate_limit (error_msg : string) : bool :=
  contains "429" error_msg || contains "rate_limit" (lower error_msg).

Definition is_timeout (error_msg : string) : bool :=
  contains "timeout" (lower error_msg) || contains "timed out" (lower error_msg).

Definition is_server_error (error_msg : string) : bool :=
  existsb (fun code => contains code error_msg) ["500"; "502"; "503"; "504"].

Definition retryable (error_msg : string) : bool :=
  is_rate_limit error_msg || is_timeout error_msg || is_server_error error_msg.

Section RetryOpenaiCall.
Context {V : Type}.
Variable func_name : string.
Variable func : nat -> outcome V exn.
Variable max_retries : Z.

Definition openai_wait_time (error_msg : string) (retries : Z) : Q :=
  if is_rate_limit error_msg then
    Qmin (config.RETRY_BACKOFF_FACTOR ^ retries * 2) config.RETRY_MAX_WAIT
  else if is_timeout error_msg then
    Qmin (config.RETRY_BACKOFF_FACTOR ^ retries) config.RETRY_MAX_WAIT
  else
    Qmin (config.RETRY_BACKOFF_FACTOR ^ retries) config.RETRY_MAX_WAIT.

(** The loop of [retry_openai_call]'s wrapper; [budget] as in
    [backoff_loop]. *)
Fixpoint openai_loop (budget : nat) (retries : Z) (n : nat)
  : run V unit :=
  match budget with
  | O => mk_run (Raised (RuntimeError func_name)) [] retries tt
  | Datatypes.S budget' =>
      if decide (retries <= max_retries) then
        match func n with
        | Returned v => mk_run (Returned v) [Call n] retries tt
        | Raised e =>
            let error_msg := exn_msg e in
            if negb (is_rate_limit error_msg || is_timeout error_msg
                     || is_server_error error_msg) then
              mk_run (Raised e) [Call n] retries tt
            else
              let retries := retries + 1 in
              if decide (max_retries < retries) then
                if is_rate_limit error_msg then
                  mk_run (Raised (RateLimitError max_retries))
                    [Call n] retries tt
                else mk_run (Raised e) [Call n] retries tt
              else
                let wait_time := openai_wait_time error_msg retries in
                if Qlt_le_dec wait_time 0 then
                  mk_run (Raised SleepValueError) [Call n] retries tt
                else
                  after [Call n; Sleep wait_time]
                    (openai_loop budget' retries (Datatypes.S n))
        end
      else mk_run (Raised (RuntimeError func_name)) [] retries tt
  end.

(** [retry_openai_call(max_retries)] applied to [func], with
    [max_retries] already resolved against [config]. *)
Definition retry_openai_call : run V unit :=
  openai_loop (Z.to_nat (max_retries + 1)) 0 0.

(** The trace of the rounds of invocations [n] to [n + k - 1] when
    they raise the retried errors [errs n], ... *)
Definition openai_round (errs : nat -> exn) (i : nat) : list event :=
  [Call i; Sleep (openai_wait_time (exn_msg (errs i)) (Z.of_nat i + 1))].

Definition openai_rounds (errs : nat -> exn) (n k : nat) : list event :=
  flat_map (openai_round errs) (seq n k).

End RetryOpenaiCall.

(** A message that contains none of the eight markers as they are
    written. *)
Definition no_marker_as_written (error_msg : string) : bool :=
  forallb (fun marker => negb (contains marker error_msg))
    ["429"; "rate_limit"; "timeout"; "timed out";
     "500"; "502"; "503"; "504"].

(** A message that contains none of the five codes and, once lowered,
    none of the three words. *)
Definition no_marker (error_msg : string) : bool :=
  forallb (fun code => negb (contains code error_msg))
    ["429"; "500"; "502"; "503"; "504"]
  && forallb (fun word => negb (contains word (lower error_msg)))
       ["rate_limit"; "timeout"; "timed out"].

(** [retry_with_backoff]'s [None] defaults. *)
Definition resolve_max_retries (arg : option Z) : Z :=
  if_not_None arg config.MAX_RETRIES.
(** [config.RETRY_BACKOFF_FACTOR] is the [int] 2. *)
Definition resolve_backoff_factor (arg : option number) : number :=
  if_not_None arg (PyInt (Qnum config.RETRY_BACKOFF_FACTOR)).
Definition resolve_max_wait (arg : option Q) : Q :=
  if_not_None arg config.RETRY_MAX_WAIT.

(** [RetryCounter]: [self.count], and [increment] as the callback. *)
Module RetryCounter.
Definition init : Z := 0.
Definition increment (retry_num : Z) (error : exn) (count : Z) : Z :=
  count + 1.
End RetryCounter.

End retry.

(** ** checkpoint.py *)

Module checkpoint.

Local Open Scope string_scope.

(** The values [json.dump] writes and [json.load] reads. A [dict] has
    string keys and is compared by content, as [==] does. *)
Inductive json : Type :=
  | JNull
  | JBool (b : bool)
  | JInt (n : Z)
  | JFloat (q : Q)
  | JStr (s : string)
  | JList (l : list json)
  | JDict (m : gmap string json).

(** The values handed to [save], which [json.dump] serialises: those
    of JSON and, besides, tuples. A [dict] has string keys. *)
Inductive pyval : Type :=
  | PNone
  | PBool (b : bool)
  | PInt (n : Z)
  | PFloat (q : Q)
  | PStr (s : string)
  | PList (l : list pyval)
  | PTuple (l : list pyval)
  | PDict (m : gmap string pyval).

(** The JSON value [json.dump] writes for a value: a tuple is written as
    an array, like a list. *)
Fixpoint to_json (v : pyval) : json :=
  match v with
  | PNone => JNull
  | PBool b => JBool b
  | PInt n => JInt n
  | PFloat q => JFloat q
  | PStr s => JStr s
  | PList l => JList (to_json <$> l)
  | PTuple l => JList (to_json <$> l)
  | PDict m => JDict (to_json <$> m)
  end.

(** The value [json.load] builds for a JSON value: an array is read as a
    list. *)
Fixpoint of_json (j : json) : pyval :=
  match j with
  | JNull => PNone
  | JBool b => PBool b
  | JInt n => PInt n
  | JFloat q => PFloat q
  | JStr s => PStr s
  | JList l => PList (of_json <$> l)
  | JDict m => PDict (of_json <$> m)
  end.

(** A value with no tuple inside, at any depth. *)
Fixpoint no_tuple (v : pyval) : bool :=
  match v with
  | PList l => forallb no_tuple l
  | PTuple _ => false
  | PDict m => map_fold (fun _ x rest => no_tuple x && rest) true m
  | _ => true
  end.

(** The number of lists, tuples and dicts of a value, which measures
    its depth. *)
Fixpoint pyval_size (v : pyval) : nat :=
  match v with
  | PList l | PTuple l => S (foldr (fun x rest => pyval_size x + rest)%nat 0%nat l)
  | PDict m => S (map_fold (fun _ x rest => pyval_size x + rest)%nat 0%nat m)
  | _ => 0
  end.

(** A name that [pathlib] and the file system take as it is written, as
    one entry of a directory: its characters are ASCII, none is the path
    separator or NUL, and with a suffix of five characters it is within
    the 255 bytes of a file name. The functions below that take a phase
    name agree with the code on such a name; on another one the code
    follows the path ([a/b], [./b]) or fails. *)
Definition plain (name : string) : bool :=
  forallb (fun c => (nat_of_ascii c <? 128)%nat
                    && negb (Ascii.eqb c "/") && negb (Ascii.eqb c Ascii.zero))
    (list_ascii_of_string name)
  && (String.length name <=? 250)%nat.

(** A plain name that stands for an entry of its directory: not the
    empty name, nor [.] nor [..]. *)
Definition component (name : string) : bool :=
  plain name
  && negb (String.eqb name "" || String.eqb name "." || String.eqb name "..").

(** The exceptions the statements of [load] raise by themselves. *)
Inductive pyerr : Type :=
  | JSONDecodeError
  | TypeError
  | KeyError (key : string).

(** [CheckpointError], by the message it is built with. *)
Inductive CheckpointError : Type :=
  | InvalidStructure (checkpoint_file : string)
  | FailedToLoad (phase : string) (e : pyerr).

(** What a [try] body of this module can raise. *)
Inductive raised : Type :=
  | OfCheckpointError (e : CheckpointError)
  | OfException (e : pyerr).

Definition is_str (k : string) (v : json) : bool :=
  match v with
  | JStr s => String.eqb s k
  | _ => false
  end.

(** [k in v] *)
Definition py_in (k : string) (v : json) : outcome bool raised :=
  match v with
  | JDict m => Returned (bool_decide (is_Some (m !! k)))
  | JList l => Returned (existsb (is_str k) l)
  | JStr s => Returned (contains k s)
  | _ => Raised (OfException TypeError)
  end.

(** [v[k]] for a string [k] *)
Definition subscript (v : json) (k : string) : outcome json raised :=
  match v with
  | JDict m =>
      match m !! k with
      | Some x => Returned x
      | None => Raised (OfException (KeyError k))
      end
  | _ => Raised (OfException TypeError)
  end.

(** [len(v)] *)
Definition py_len (v : json) : outcome nat raised :=
  match v with
  | JList l => Returned (length l)
  | JDict m => Returned (size m)
  | JStr s => Returned (String.length s)
  | _ => Raised (OfException TypeError)
  end.

(** [pathlib]: the position of the last dot of a file name, its
    [suffix], and [with_suffix]. *)
Fixpoint rfind_dot (name : string) : option nat :=
  match name with
  | EmptyString => None
  | String c name' =>
      match rfind_dot name' with
      | Some i => Some (S i)
      | None => if Ascii.eqb c "." then Some 0%nat else None
      end
  end.

Definition suffix (name : string) : string :=
  match rfind_dot name with
  | Some i =>
      if (0 <? i)%nat && (i <? String.length name - 1)%nat
      then substring i (String.length name - i) name
      else ""
  | None => ""
  end.

Definition with_suffix (name new_suffix : string) : string :=
  substring 0 (String.length name - String.length (suffix name)) name
  ++ new_suffix.

(** [fnmatch(name, "*.json")] *)
Definition is_json (name : string) : bool :=
  let n := String.length name in
  (5 <=? n)%nat && String.eqb (substring (n - 5) 5 name) ".json".

Section Files.
(** The text of a file, and the [json] library: [json_load] gives
    [None] for a text that is not JSON. *)
Context {Text : Type}.
Variable json_dump : json -> Text.
Variable json_load : Text -> option json.

(** The entries of [self.checkpoint_dir], all of them files, by file
    name. A file name is a key of this map as it is written, which is
    what the code does for a [plain] phase name. *)
Implicit Types files : gmap string Text.

(** [src.rename(dst)] *)
Definition rename (src dst : string) files : gmap string Text :=
  match files !! src with
  | Some text => <[dst := text]> (delete src files)
  | None => files
  end.

(** The structure [save] builds and dumps, the [checkpoint] dict.
    [timestamp] is [datetime.now().isoformat()]. *)
Definition checkpoint_structure (episode_id phase : string)
    (data : list pyval) (stats : option (gmap string pyval))
    (timestamp : string) : pyval :=
  PDict {[ "metadata" :=
             PDict {[ "episode_id" := PStr episode_id;
                      "phase" := PStr phase;
                      "timestamp" := PStr timestamp;
                      "stats" := PDict (default ∅ stats) ]};
           "data" := PList data ]}.

(** [save(phase, data, stats)]. The result is the directory after the
    call and the returned path ([None] when checkpointing is off).
    [json_dump] is the text [json.dump] writes for a JSON value; what it
    is given is the JSON value of the checkpoint, [to_json checkpoint].
    The call is taken on a [plain] phase name and when [json.dump]
    does write that text: no statement of the [try] block raises. *)
Definition save (CHECKPOINT_ENABLED : bool) (episode_id : string) files
    (phase : string) (data : list pyval)
    (stats : option (gmap string pyval)) (timestamp : string)
  : gmap string Text * option string :=
  if negb CHECKPOINT_ENABLED then (files, None)
  else
    let checkpoint_file := phase ++ ".json" in
    let checkpoint :=
      checkpoint_structure episode_id phase data stats timestamp in
    let temp_file := with_suffix checkpoint_file ".tmp" in
    let files := <[temp_file := json_dump (to_json checkpoint)]> files in
    let files := rename temp_file checkpoint_file files in
    (files, Some checkpoint_file).

(** The [try] body of [load]. *)
Definition load_body files (phase : string)
  : outcome (option json) raised :=
  let checkpoint_file := phase ++ ".json" in
  match files !! checkpoint_file with
  | None => Returned None
  | Some text =>
      match json_load text with
      | None => Raised (OfException JSONDecodeError)
      | Some checkpoint =>
          let* has_metadata := py_in "metadata" checkpoint in
          if negb has_metadata then
            Raised (OfCheckpointError (InvalidStructure checkpoint_file))
          else
            let* has_data := py_in "data" checkpoint in
            if negb has_data then
              Raised (OfCheckpointError (InvalidStructure checkpoint_file))
            else
              let* metadata := subscript checkpoint "metadata" in
              let* data := subscript checkpoint "data" in
              let* _ := subscript metadata "episode_id" in
              let* _ := py_len data in
              let* _ := subscript metadata "timestamp" in
              Returned (Some data)
      end
  end.

(** [load(phase)]: a [CheckpointError] passes, any other exception is
    turned into one. *)
Definition load files (phase : string)
  : outcome (option json) CheckpointError :=
  match load_body files phase with
  | Returned data => Returned data
  | Raised (OfCheckpointError e) => Raised e
  | Raised (OfException e) => Raised (FailedToLoad phase e)
  end.

(** [exists(phase)] *)
Definition exists_ files (phase : string) : bool :=
  bool_decide (is_Some (files !! (phase ++ ".json"))).

(** [get_last_checkpoint()], for [config.CHECKPOINT_PHASES] given as
    [CHECKPOINT_PHASES]. *)
Definition get_last_checkpoint (CHECKPOINT_PHASES : list string) files
  : option string :=
  find (exists_ files) (rev CHECKPOINT_PHASES).

(** [delete(phase)] *)
Definition delete_ files (phase : string) : gmap string Text :=
  let checkpoint_file := phase ++ ".json" in
  match files !! checkpoint_file with
  | Some _ => delete checkpoint_file files
  | None => files
  end.

(** [delete_all()]: every entry matching [*.json] is unlinked. *)
Definition delete_all files : gmap string Text :=
  filter (fun kv => ¬ is_json kv.1) files.

(** The checkpoints root [config.CHECKPOINTS_DIR]: each entry is a
    plain file or a directory with its modification time (seconds)
    and its files. *)
Inductive node : Type :=
  | File (content : Text)
  | Dir (st_mtime : Q) (entries : gmap string Text).

Implicit Types root : gmap string node.

(** [self.checkpoint_dir.mkdir(parents=True, exist_ok=True)] of
    [CheckpointManager.__init__]; [None] is its [FileExistsError]. *)
Definition mkdir root (episode_id : string) (now : Q)
  : option (gmap string node) :=
  match root !! episode_id with
  | None => Some (<[episode_id := Dir now ∅]> root)
  | Some (Dir _ _) => Some root
  | Some (File _) => None
  end.

Definition checkpoint_dir root (episode_id : string) : gmap string Text :=
  match root !! episode_id with
  | Some (Dir _ entries) => entries
  | _ => ∅
  end.

(** [CheckpointManager(episode_id).get_last_checkpoint()] *)
Definition manager_get_last_checkpoint (CHECKPOINT_PHASES : list string)
    root (episode_id : string) (now : Q) : option (option string) :=
  root ← mkdir root episode_id now;
  Some (get_last_checkpoint CHECKPOINT_PHASES
          (checkpoint_dir root episode_id)).

(** [phases.index(x)] *)
Fixpoint index (x : string) (phases : list string) : option nat :=
  match phases with
  | [] => None
  | p :: phases' =>
      if String.eqb p x then Some 0%nat else S <$> index x phases'
  end.

(** [get_resume_point(episode_id)] *)
Definition get_resume_point (CHECKPOINT_PHASES : list string)
    root (episode_id : string) (now : Q) : option (option string) :=
  root ← mkdir root episode_id now;
  let last_checkpoint :=
    get_last_checkpoint CHECKPOINT_PHASES (checkpoint_dir root episode_id) in
  match last_checkpoint with
  | Some phase =>
      if String.eqb phase "" then Some None
      else
        match index phase CHECKPOINT_PHASES with
        | Some last_index =>
            if (last_index <? length CHECKPOINT_PHASES - 1)%nat then
              let next_phase := CHECKPOINT_PHASES !! (last_index + 1)%nat in
              Some last_checkpoint
            else Some last_checkpoint
        | None => Some None
        end
  | None => Some None
  end.

(** The body of the [for episode_dir in ...iterdir()] loop of
    [cleanup_old_checkpoints]: what is left of one entry, [None] when it
    is removed. Unlinking a file sets the directory's modification
    time to the time of the call. *)
Definition cleanup_entry (cutoff_date now : Q) (episode_dir : node)
  : option node :=
  match episode_dir with
  | File _ => Some episode_dir
  | Dir mtime entries =>
      if Qlt_le_dec mtime cutoff_date then
        let left := filter (fun kv => ¬ is_json kv.1) entries in
        match map_to_list left with
        | [] => None
        | _ :: _ =>
            Some (Dir (if decide (size left = size entries)
                       then mtime else now) left)
        end
      else Some episode_dir
  end.

(** [cleanup_old_checkpoints(days)] at time [now] (seconds). *)
Definition cleanup_old_checkpoints (days : option Z) (now : Q) root
  : gmap string node :=
  let days := if_not_None days config.CHECKPOINT_CLEANUP_DAYS in
  if decide (days <= 0) then root
  else
    let cutoff_date := (now - inject_Z (days * 86400))%Q in
    omap (cleanup_entry cutoff_date now) root.

End Files.

End checkpoint.

(** ** quality_scorer.py *)

Module quality_scorer.

Local Open Scope string_scope.

Record QualityMetrics : Type := mk {
  episode_id : string;
  errors_count : Z;
  parsing_errors : list string;
  api_errors : list string;
  retries_count : Z;
  malformed_beliefs_count : Z;
  registry_mismatches_count : Z;
  warnings : list string;
  execution_time_seconds : Q;
  timestamp : string
}.

(** [QualityMetrics(episode_id=...)]; [now] is the default of
    [timestamp]. *)
Definition init (episode_id now : string) : QualityMetrics :=
  mk episode_id 0 [] [] 0 0 0 [] 0 now.

Definition add_parsing_error (error : string) (self : QualityMetrics) :=
  mk (episode_id self) (errors_count self + 1)
     (parsing_errors self ++ [error]) (api_errors self)
     (retries_count self) (malformed_beliefs_count self)
     (registry_mismatches_count self) (warnings self)
     (execution_time_seconds self) (timestamp self).

Definition add_api_error (error : string) (self : QualityMetrics) :=
  mk (episode_id self) (errors_count self + 1)
     (parsing_errors self) (api_errors self ++ [error])
     (retries_count self) (malformed_beliefs_count self)
     (registry_mismatches_count self) (warnings self)
     (execution_time_seconds self) (timestamp self).

Definition add_retry (self : QualityMetrics) :=
  mk (episode_id self) (errors_count self)
     (parsing_errors self) (api_errors self)
     (retries_count self + 1) (malformed_beliefs_count self)
     (registry_mismatches_count self) (warnings self)
     (execution_time_seconds self) (timestamp self).

Definition add_malformed_belief (self : QualityMetrics) :=
  mk (episode_id self) (errors_count self)
     (parsing_errors self) (api_errors self)
     (retries_count self) (malformed_beliefs_count self + 1)
     (registry_mismatches_count self) (warnings self)
     (execution_time_seconds self) (timestamp self).

Definition add_registry_mismatch (self : QualityMetrics) :=
  mk (episode_id self) (errors_count self)
     (parsing_errors self) (api_errors self)
     (retries_count self) (malformed_beliefs_count self)
     (registry_mismatches_count self + 1) (warnings self)
     (execution_time_seconds self) (timestamp self).

Definition add_warning (warning : string) (self : QualityMetrics) :=
  mk (episode_id self) (errors_count self)
     (parsing_errors self) (api_errors self)
     (retries_count self) (malformed_beliefs_count self)
     (registry_mismatches_count self) (warnings self ++ [warning])
     (execution_time_seconds self) (timestamp self).

(** A call of one of the six methods, and a run's calls in order. *)
Inductive call : Type :=
  | AddParsingError (error : string)
  | AddApiError (error : string)
  | AddRetry
  | AddMalformedBelief
  | AddRegistryMismatch
  | AddWarning (warning : string).

Definition apply (self : QualityMetrics) (c : call) : QualityMetrics :=
  match c with
  | AddParsingError error => add_parsing_error error self
  | AddApiError error => add_api_error error self
  | AddRetry => add_retry self
  | AddMalformedBelief => add_malformed_belief self
  | AddRegistryMismatch => add_registry_mismatch self
  | AddWarning warning => add_warning warning self
  end.

Definition metrics_after (episode_id now : string) (cs : list call)
  : QualityMetrics :=
  foldl apply (init episode_id now) cs.

(** The calls that record an error, a retry, a malformed belief, a
    registry mismatch. *)
Definition is_error (c : call) : bool :=
  match c with AddParsingError _ | AddApiError _ => true | _ => false end.
Definition is_retry (c : call) : bool :=
  match c with AddRetry => true | _ => false end.
Definition is_malformed (c : call) : bool :=
  match c with AddMalformedBelief => true | _ => false end.
Definition is_mismatch (c : call) : bool :=
  match c with AddRegistryMismatch => true | _ => false end.

(** No counter is negative. *)
Definition counters_nonneg (m : QualityMetrics) : Prop :=
  0 <= errors_count m /\ 0 <= retries_count m
  /\ 0 <= malformed_beliefs_count m /\ 0 <= registry_mismatches_count m.

(** [QualityScorer.calculate_score()] on [self.metrics] *)
Definition calculate_score (metrics : QualityMetrics) : Q :=
  let score := 100%Q in
  let score :=
    (score - inject_Z (errors_count metrics) * config.QUALITY_PENALTY_ERROR)%Q in
  let score :=
    (score - inject_Z (retries_count metrics) * config.QUALITY_PENALTY_RETRY)%Q in
  let score :=
    (score - inject_Z (malformed_beliefs_count metrics)
             * config.QUALITY_PENALTY_MALFORMED)%Q in
  let score :=
    (score - inject_Z (registry_mismatches_count metrics)
             * config.QUALITY_PENALTY_MISMATCH)%Q in
  Qmax 0 score.

(** [score >= QUALITY_THRESHOLDS[key]]; [None] is the [KeyError] of a
    missing key. *)
Definition meets (QUALITY_THRESHOLDS : gmap string Z) (score : Q)
    (key : string) : option bool :=
  cutoff ← QUALITY_THRESHOLDS !! key;
  Some (Qle_bool (inject_Z cutoff) score).

(** [QualityScorer.calculate_grade(score)], for
    [config.QUALITY_THRESHOLDS] given as [QUALITY_THRESHOLDS]. *)
Definition calculate_grade (QUALITY_THRESHOLDS : gmap string Z) (score : Q)
  : option string :=
  a ← meets QUALITY_THRESHOLDS score "A";
  if a : bool then Some "A"
  else
    b ← meets QUALITY_THRESHOLDS score "B";
    if b : bool then Some "B"
    else
      c ← meets QUALITY_THRESHOLDS score "C";
      if c : bool then Some "C"
      else
        d ← meets QUALITY_THRESHOLDS score "D";
        if d : bool then Some "D" else Some "F".

(** The grade as the specification words it: the first of A, B, C, D
    whose cutoff the score meets, else F. *)
Definition first_grade_met (QUALITY_THRESHOLDS : gmap string Z) (score : Q)
  : string :=
  let met key :=
    match QUALITY_THRESHOLDS !! key with
    | Some cutoff => Qle_bool (inject_Z cutoff) score
    | None => false
    end in
  match find met ["A"; "B"; "C"; "D"] with
  | Some key => key
  | None => "F"
  end.

End quality_scorer.

(** ** beliefs/extractor.py: BeliefExtractor *)

Module BeliefExtractor.

(** An entry of the response's "beliefs" for which building the
    [Belief] raises. *)
Definition is_malformed {B : Type} (entry : option B) : bool :=
  match entry with
  | None => true
  | Some _ => false
  end.

Section Extract.
Context {U B : Type}.
(** What a call of [self._extract_from_utterance], through its
    [retry_openai_call] wrapper, comes to on an utterance: the exception
    that leaves the wrapper or, for the attempt that returns, the entries
    of the response's "beliefs" in order, each with the [Belief] built
    from it, [None] when building it raises. An attempt that raises does
    so before the loop over the entries. *)
Variable belief_entries : U -> outcome (list (option B)) retry.exn.

(** [_extract_from_utterance(utterance)] with [self.quality_scorer], if
    any: how the call ends and the scorer's metrics after it. The loop
    over the entries counts a malformed belief for each entry that
    cannot be built. *)
Definition _extract_from_utterance
    (quality_scorer : option quality_scorer.QualityMetrics) (utterance : U)
  : outcome (list B) retry.exn * option quality_scorer.QualityMetrics :=
  match belief_entries utterance with
  | Raised e => (Raised e, quality_scorer)
  | Returned entries =>
      let '(beliefs, scorer) :=
        foldl (fun '(beliefs, scorer) belief_data =>
                 match belief_data with
                 | Some belief => (beliefs ++ [belief], scorer)
                 | None =>
                     (beliefs, quality_scorer.add_malformed_belief <$> scorer)
                 end) ([], quality_scorer) entries in
      (Returned beliefs, scorer)
  end.

(** [_extract_batch(utterances)] with [self.quality_scorer], if any: the
    beliefs returned and the scorer's metrics after the call. *)
Definition _extract_batch
    (quality_scorer : option quality_scorer.QualityMetrics)
    (utterances : list U)
  : list B * option quality_scorer.QualityMetrics :=
  foldl (fun '(beliefs, scorer) utterance =>
           match _extract_from_utterance scorer utterance with
           | (Returned utt_beliefs, scorer) => (beliefs ++ utt_beliefs, scorer)
           | (Raised e, scorer) =>
               (beliefs,
                quality_scorer.add_api_error (retry.exn_msg e) <$> scorer)
           end) ([], quality_scorer) utterances.

(** The value [extract(utterances)] returns. On the thread-pool path the
    worker threads update the scorer on their own; those updates and the
    calls of the W&B logger are not part of the returned value and are
    left out. *)
Definition extract (ENABLE_PARALLEL : bool) (MAX_WORKERS BATCH_SIZE : Z)
    (utterances : list U) (completion_order : list nat)
  : outcome (list B) (parallel.process_error retry.exn) :=
  match parallel.batch_items utterances BATCH_SIZE with
  | None => Raised parallel.RangeValueError
  | Some batches =>
      let batch_func batch : outcome (option (list B)) retry.exn :=
        Returned (Some (_extract_batch None batch).1) in
      if ENABLE_PARALLEL then
        let executor := ParallelExecutor.init MAX_WORKERS None in
        match ParallelExecutor.map None ENABLE_PARALLEL executor batch_func
                batches completion_order with
        | Returned batch_results => Returned (parallel.flatten batch_results)
        | Raised e => Raised (parallel.OfMap e)
        end
      else
        Returned (parallel.flatten
                    ((fun batch => Some (_extract_batch None batch).1)
                       <$> batches))
  end.

End Extract.

End BeliefExtractor.

(** * Properties *)

(** ** RateLimiter *)

Section RateLimiterProperties.
Import RateLimiter.

Lemma sum_counts_app d d' :
  sum_counts (d ++ d') = sum_counts d + sum_counts d'.
Proof.
  unfold sum_counts. induction d as [|x d IH]; simpl; [done|].
  rewrite IH. lia.
Qed.

(** A request that needs no wait is recorded at once, and the window
    then holds no more than the budget. *)
Lemma wait_if_needed_no_wait_within_budget self now lag tokens self' :
  wait_if_needed self now lag tokens = Some (self', 0%Q) ->
  0 < tokens ->
  sum_counts (token_counts (_clean_old_entries self now)) + tokens
    <= tpm self ->
  sum_counts (token_counts self') <= tpm self'.
Proof.
  unfold wait_if_needed. intros Hcall Htok Hfit.
  destruct (compute_wait _ now tokens) as [w|] eqn:Hw; [|discriminate].
  simpl in Hcall.
  destruct (Qlt_le_dec 0 w) as [Hpos|_].
  - injection Hcall as _ Hzero. rewrite Hzero in Hpos.
    exfalso. revert Hpos. apply Qlt_irrefl.
  - injection Hcall as <- _. simpl in *.
    rewrite decide_True by done.
    rewrite sum_counts_app. unfold sum_counts at 2. simpl. lia.
Qed.

(** C1, at a failing input. With a budget of 100 tokens per minute,
    requests of 10, 90 and 50 tokens arrive at seconds 0, 30 and 40. The
    third waits 20.1 s, until the entry of second 0 has left the window,
    and is then recorded although the entry of second 30 is still in it:
    the window holds 90 + 50 = 140 tokens, recorded 30.1 s apart. *)
Theorem wait_if_needed_exceeds_token_budget :
  let limiter := init (Some 3500) (Some 100) in
  exists before after_,
    calls limiter [(0%Q, 10); (30%Q, 90)] = Some before
    /\ wait_if_needed before 40 0 50 = Some (after_, 20.1%Q)
    /\ calls limiter [(0%Q, 10); (30%Q, 90); (40%Q, 50)] = Some after_
    /\ token_counts after_ = [(30%Q, 90); (60.1%Q, 50)]
    /\ (60.1 - 30 < 60)%Q
    /\ sum_counts (token_counts after_) = 140
    /\ tpm after_ = 100.
Proof.
  eexists _, _. repeat split; try (vm_compute; reflexivity).
Qed.

End RateLimiterProperties.

(** ** ParallelExecutor *)

Section ParallelExecutorProperties.
Import ParallelExecutor.
Context {T V E : Type} (py_None : V).
Implicit Types (func : T -> outcome V E) (items : list T).

Lemma collect_length (futures : list (outcome V E)) results index :
  length (collect py_None futures results index) = length results.
Proof.
  unfold collect.
  destruct (futures !! index) as [[v|e]|]; by rewrite ?length_insert.
Qed.

(** The [as_completed] loop leaves in each slot it visits the outcome of
    that slot's future, whatever the order of the visits. *)
Lemma collect_all_lookup func items order : forall results j,
  length results = length items ->
  foldl (collect py_None (func <$> items)) results order !! j =
    if decide (j ∈ order)
    then slot py_None func <$> items !! j
    else results !! j.
Proof.
  induction order as [|i order IH]; intros results j Hlen.
  - cbn [foldl]. destruct (decide (j ∈ [])) as [Hin|_]; [|done].
    by apply elem_of_nil in Hin.
  - cbn [foldl]. rewrite IH by (by rewrite collect_length).
    destruct (decide (j ∈ order)) as [Hin|Hnin].
    + rewrite decide_True; [done | by right].
    + destruct (decide (j = i)) as [->|Hne].
      * rewrite decide_True by left.
        unfold collect. rewrite list_lookup_fmap.
        destruct (items !! i) as [x|] eqn:Hx; simpl.
        -- assert (i < length results)%nat.
           { rewrite Hlen. by eapply lookup_lt_Some. }
           unfold slot.
           destruct (func x); by rewrite list_lookup_insert_eq.
        -- apply lookup_ge_None. rewrite Hlen. by apply lookup_ge_None.
      * rewrite decide_False by (rewrite elem_of_cons; tauto).
        unfold collect.
        destruct ((func <$> items) !! i) as [[v|e]|];
          by rewrite ?list_lookup_insert_ne.
Qed.

(** On the thread-pool path every slot holds its item's value, or [None]
    for an item on which [func] raises, for every completion order. *)
Lemma map_parallel_results self func items order :
  1 < max_workers self ->
  order ≡ₚ seq 0 (length items) ->
  map py_None true self func items order
    = Returned (slot py_None func <$> items).
Proof.
  intros Hw Hperm. unfold map. simpl.
  rewrite bool_decide_eq_false_2 by lia.
  rewrite decide_False by lia. f_equal.
  apply list_eq. intros j.
  rewrite collect_all_lookup by apply length_replicate.
  rewrite list_lookup_fmap.
  destruct (decide (j ∈ order)) as [Hin|Hnin]; [done|].
  assert (length items <= j)%nat as Hge.
  { destruct (decide (j < length items)%nat) as [Hlt|]; [|lia].
    exfalso. apply Hnin. rewrite Hperm. apply elem_of_seq. lia. }
  rewrite (proj2 (lookup_ge_None items j)) by done.
  apply lookup_ge_None. by rewrite length_replicate.
Qed.

(** The sequential path gives the same list when [func] raises on no
    item. *)
Lemma comprehension_total func items :
  Forall (fun x => exists v, func x = Returned v) items ->
  comprehension func items = Returned (slot py_None func <$> items).
Proof.
  induction 1 as [|x items [v Hv] _ IH]; simpl; [done|].
  unfold slot at 1. by rewrite Hv, IH.
Qed.

(** For a [func] that raises on no item, every width gives the same
    results. *)
Lemma map_width_independent enabled self self' func items order order' :
  Forall (fun x => exists v, func x = Returned v) items ->
  1 <= max_workers self -> 1 <= max_workers self' ->
  order ≡ₚ seq 0 (length items) -> order' ≡ₚ seq 0 (length items) ->
  map py_None enabled self func items order
    = map py_None enabled self' func items order'.
Proof.
  intros Htot Hw Hw' Hp Hp'.
  assert (Hall : forall s o, 1 <= max_workers s ->
            o ≡ₚ seq 0 (length items) ->
            map py_None enabled s func items o
              = Returned (slot py_None func <$> items)).
  { intros s o Hs Ho.
    destruct enabled, (decide (max_workers s = 1)) as [H1|H1].
    - unfold map. simpl. rewrite bool_decide_eq_true_2 by done.
      by rewrite comprehension_total.
    - apply map_parallel_results; [lia | done].
    - unfold map. simpl. by rewrite comprehension_total.
    - unfold map. simpl. by rewrite comprehension_total. }
  by rewrite !Hall.
Qed.

End ParallelExecutorProperties.

(** C2, at a failing input. [func] raises on the item 2 of [[1; 2; 3]].
    With [max_workers = 1] the list comprehension lets the exception leave
    [map] and there is no results list; with [max_workers = 4] the
    thread-pool path returns a list whose slot 1 is [None]. The two calls
    do not produce identical results. *)
Theorem map_width_one_differs_on_raising_func :
  let func := fun x : Z =>
    if decide (x = 2) then Raised "boom"%string else Returned (Some (10 * x)) in
  let sequential :=
    ParallelExecutor.map None true (ParallelExecutor.mk 1) func [1; 2; 3]
      [0; 1; 2]%nat in
  let parallel :=
    ParallelExecutor.map None true (ParallelExecutor.mk 4) func [1; 2; 3]
      [2; 0; 1]%nat in
  sequential = Raised (ParallelExecutor.FuncRaised "boom"%string)
  /\ parallel = Returned [Some 10; None; Some 30]
  /\ sequential <> parallel.
Proof.
  repeat split; try reflexivity. discriminate.
Qed.



(** ** retry_with_backoff *)

(** Powers of a rational, as far as the floats' range is concerned. *)
Lemma Qpower_le_1 (x : Q) (n : Z) :
  (0 <= x)%Q -> (x <= 1)%Q -> 0 <= n -> (x ^ n <= 1)%Q.
Proof.
  intros H0 H1 Hn. pattern n. apply natlike_ind; [| |exact Hn].
  - simpl. apply Qle_refl.
  - intros m Hm IH. unfold Z.succ. rewrite Qpower_plus' by lia.
    simpl (x ^ 1)%Q.
    assert (0 <= x ^ m)%Q by (apply Qpower_0_le; exact H0).
    apply Qle_trans with (1 * 1)%Q; [|apply Qle_refl].
    apply Qmult_le_compat_nonneg; split; assumption.
Qed.

Lemma Qpower_below (x : Q) (r top : Z) (bound : Q) :
  (0 <= x)%Q -> (1 < bound)%Q -> 0 <= r <= top ->
  (x ^ top < bound)%Q -> (x ^ r < bound)%Q.
Proof.
  intros H0 Hb Hr Htop. destruct (Qlt_le_dec 1 x) as [Hx|Hx].
  - eapply Qle_lt_trans; [|exact Htop].
    apply Qpower_le_compat_l; [lia|]. apply Qlt_le_weak, Hx.
  - eapply Qle_lt_trans; [|exact Hb]. apply Qpower_le_1; [assumption..|lia].
Qed.

(** A power within the floats' range is computed as it is. *)
Lemma py_pow_in_range (base : retry.number) (r top : Z) :
  (0 <= retry.value base)%Q ->
  retry.power_in_range base top ->
  0 <= r <= top ->
  retry.py_pow base r = Returned (retry.value base ^ r)%Q.
Proof.
  intros H0 Hrange Hr. destruct base as [z|x]; [reflexivity|].
  cbn [retry.py_pow retry.value retry.power_in_range] in *.
  destruct (Qlt_le_dec _ _) as [_|Hover]; [reflexivity|].
  exfalso. eapply Qlt_not_le; [|exact Hover].
  rewrite Qabs_pos by (by apply Qpower_0_le).
  apply Qpower_below with top; [done | reflexivity | done |].
  eapply Qle_lt_trans; [exact Hrange|reflexivity].
Qed.

(** A wait between 0 and [SLEEP_SAFE] is formatted and slept. *)
Lemma format_1f_safe (w : Q) :
  (0 <= w)%Q -> (w <= retry.SLEEP_SAFE)%Q -> retry.format_1f w = Returned tt.
Proof.
  intros H0 H1. unfold retry.format_1f.
  destruct (Qlt_le_dec _ _) as [_|Hover]; [reflexivity|].
  exfalso. eapply Qlt_not_le; [|exact Hover].
  rewrite Qabs_pos by done.
  eapply Qle_lt_trans; [exact H1|reflexivity].
Qed.

Lemma time_sleep_safe (w : Q) :
  (0 <= w)%Q -> (w <= retry.SLEEP_SAFE)%Q -> retry.time_sleep w = Returned tt.
Proof.
  intros H0 H1. unfold retry.time_sleep.
  assert (Hns : (0 <= w * inject_Z (10 ^ 9))%Q)
    by (apply Qmult_le_0_compat; [done|discriminate]).
  destruct (Qlt_le_dec _ (- _)) as [Hneg|_].
  { exfalso. eapply Qlt_not_le; [exact Hneg|].
    eapply Qle_trans; [|exact Hns]. discriminate. }
  destruct (Qlt_le_dec _ (inject_Z _)) as [_|Hover].
  - destruct (Qlt_le_dec w 0) as [Hneg|_]; [|reflexivity].
    exfalso. by eapply Qlt_not_le.
  - exfalso. eapply Qlt_not_le; [|exact Hover].
    apply Qle_lt_trans with (retry.SLEEP_SAFE * inject_Z (10 ^ 9))%Q.
    + apply Qmult_le_compat_r; [exact H1|discriminate].
    + reflexivity.
Qed.

Section RetryWithBackoffProperties.
Import retry.
Context {V S : Type}.
Variables (func_name : string) (func : nat -> outcome V exn).
Variables (max_retries : Z) (backoff_factor : number) (max_wait : Q).
Variables (exceptions : exn -> bool).
Variable on_retry : option (Z -> exn -> S -> S).
Variable errs : nat -> exn.
(** The number of the last round whose wait is computed. *)
Variable top : Z.

Hypothesis backoff_factor_nonneg : (0 <= value backoff_factor)%Q.
Hypothesis max_wait_nonneg : (0 <= max_wait)%Q.
Hypothesis max_wait_safe : (max_wait <= SLEEP_SAFE)%Q.
Hypothesis powers_in_range : power_in_range backoff_factor top.

Local Abbreviation loop :=
  (backoff_loop func_name func max_retries backoff_factor max_wait
     exceptions on_retry).
Local Abbreviation rounds := (backoff_rounds backoff_factor max_wait on_retry errs).
Local Abbreviation round := (backoff_round backoff_factor max_wait on_retry errs).
Local Abbreviation cbs := (callbacks on_retry errs).

Lemma after_after (evs evs' : list event) (r : run V S) :
  after evs (after evs' r) = after (evs ++ evs') r.
Proof. unfold after. simpl. by rewrite app_assoc. Qed.

Lemma after_nil (r : run V S) : after [] r = r.
Proof. by destruct r. Qed.

Lemma wait_time_nonneg (retries : Z) :
  (0 <= Qmin (value backoff_factor ^ retries) max_wait)%Q.
Proof. apply Q.min_glb; [by apply Qpower_0_le | done]. Qed.

Lemma wait_time_safe (retries : Z) :
  (Qmin (value backoff_factor ^ retries) max_wait <= SLEEP_SAFE)%Q.
Proof. eapply Qle_trans; [apply Q.le_min_r|done]. Qed.

(** A round whose invocation raises a caught error, with retries left,
    calls back, sleeps and goes on with the next invocation. *)
Lemma backoff_loop_retry budget n s :
  Z.of_nat n < max_retries ->
  Z.of_nat n < top ->
  func n = Raised (errs n) ->
  exceptions (errs n) = true ->
  loop (Datatypes.S budget) (Z.of_nat n) n s
    = after (round n)
        (loop budget (Z.of_nat (Datatypes.S n)) (Datatypes.S n) (cbs n 1%nat s)).
Proof.
  intros Hlt Htop Hraise Hcaught. cbn [backoff_loop].
  rewrite decide_True by lia. rewrite Hraise, Hcaught.
  rewrite decide_False by lia.
  rewrite (py_pow_in_range _ _ top) by (done || lia).
  rewrite format_1f_safe by (apply wait_time_nonneg || apply wait_time_safe).
  rewrite time_sleep_safe by (apply wait_time_nonneg || apply wait_time_safe).
  unfold backoff_round, callbacks. simpl.
  replace (Z.of_nat (Datatypes.S n)) with (Z.of_nat n + 1) by lia.
  by destruct on_retry.
Qed.

(** [k] such rounds in a row. *)
Lemma backoff_loop_retries k : forall budget n s,
  Z.of_nat (n + k) <= max_retries ->
  Z.of_nat (n + k) <= top ->
  (forall i, (n <= i < n + k)%nat ->
     func i = Raised (errs i) /\ exceptions (errs i) = true) ->
  loop (k + budget) (Z.of_nat n) n s
    = after (rounds n k)
        (loop budget (Z.of_nat (n + k)) (n + k)%nat (cbs n k s)).
Proof.
  induction k as [|k IH]; intros budget n s Hle Htop Herrs.
  - rewrite Nat.add_0_r. by rewrite after_nil.
  - destruct (Herrs n) as [Hraise Hcaught]; [lia|].
    change (Datatypes.S k + budget)%nat with (Datatypes.S (k + budget)).
    rewrite backoff_loop_retry by (done || lia).
    rewrite IH by (lia || (intros i Hi; apply Herrs; lia)).
    rewrite after_after.
    replace (Datatypes.S n + k)%nat with (n + Datatypes.S k)%nat by lia.
    unfold backoff_rounds, callbacks. by cbn [seq flat_map foldl].
Qed.

(** The run when the first [k <= max_retries] invocations raise caught
    errors and invocation [k] returns. *)
Lemma retry_with_backoff_success (k : nat) (v : V) (s : S) :
  Z.of_nat k <= max_retries ->
  Z.of_nat k <= top ->
  (forall i, (i < k)%nat ->
     func i = Raised (errs i) /\ exceptions (errs i) = true) ->
  func k = Returned v ->
  retry_with_backoff func_name func max_retries backoff_factor max_wait
    exceptions on_retry s
  = mk_run (Returned v) (rounds 0 k ++ [Call k]) (Z.of_nat k) (cbs 0 k s).
Proof.
  intros Hk Htop Herrs Hret. unfold retry_with_backoff.
  replace (Z.to_nat (max_retries + 1))
    with (k + Datatypes.S (Z.to_nat (max_retries - Z.of_nat k)))%nat by lia.
  rewrite (backoff_loop_retries k _ 0%nat s)
    by (simpl; lia || (intros i Hi; apply Herrs; lia)).
  cbn [backoff_loop Nat.add]. rewrite decide_True by lia.
  by rewrite Hret.
Qed.

(** The run when the first [max_retries + 1] invocations raise caught
    errors: the last one is raised again as it is. *)
Lemma retry_with_backoff_exhausted (k : nat) (e : exn) (s : S) :
  Z.of_nat k = max_retries ->
  Z.of_nat k <= top ->
  (forall i, (i < k)%nat ->
     func i = Raised (errs i) /\ exceptions (errs i) = true) ->
  func k = Raised e ->
  exceptions e = true ->
  retry_with_backoff func_name func max_retries backoff_factor max_wait
    exceptions on_retry s
  = mk_run (Raised e) (rounds 0 k ++ [Call k]) (max_retries + 1) (cbs 0 k s).
Proof.
  intros Hk Htop Herrs Hraise Hcaught. unfold retry_with_backoff.
  replace (Z.to_nat (max_retries + 1)) with (k + 1)%nat by lia.
  rewrite (backoff_loop_retries k _ 0%nat s)
    by (simpl; lia || (intros i Hi; apply Herrs; lia)).
  cbn [backoff_loop Nat.add]. rewrite decide_True by lia.
  rewrite Hraise, Hcaught. rewrite decide_True by lia.
  unfold after. simpl. by rewrite Hk.
Qed.

End RetryWithBackoffProperties.

Section BackoffRounds.
Import retry.
Context {S : Type}.
Variables (backoff_factor : number) (max_wait : Q).
Variable on_retry : option (Z -> exn -> S -> S).
Variable errs : nat -> exn.

Local Abbreviation rounds := (backoff_rounds backoff_factor max_wait on_retry errs).

(** The trace of [k] retried rounds has [k + 1]
    invocations, [k] sleeps and, with a callback, [k] calls of it. *)
Lemma backoff_rounds_calls n k :
  length (filter is_Call (rounds n k)) = k.
Proof.
  revert n. induction k as [|k IH]; intros n; [done|].
  unfold backoff_rounds in *. cbn [seq flat_map].
  rewrite filter_app, length_app, IH.
  unfold backoff_round. destruct on_retry; reflexivity.
Qed.

Lemma backoff_rounds_on_retry n k :
  is_Some on_retry ->
  length (filter is_OnRetry (rounds n k)) = k.
Proof.
  intros [cb Hcb]. revert n. induction k as [|k IH]; intros n; [done|].
  unfold backoff_rounds in *. cbn [seq flat_map].
  rewrite filter_app, length_app, IH.
  unfold backoff_round. rewrite Hcb. reflexivity.
Qed.

Lemma backoff_rounds_sleeps n k :
  filter is_Sleep (rounds n k)
  = (fun i => Sleep (Qmin (value backoff_factor ^ (Z.of_nat i + 1)) max_wait))
      <$> seq n k.
Proof.
  revert n. induction k as [|k IH]; intros n; [done|].
  unfold backoff_rounds in *. cbn [seq flat_map fmap list_fmap].
  rewrite filter_app, IH.
  unfold backoff_round. destruct on_retry; reflexivity.
Qed.

End BackoffRounds.

(** A [RetryCounter] used as the callback counts the retried rounds. *)
Lemma callbacks_RetryCounter (errs : nat -> retry.exn) (k : nat) :
  forall n count,
    retry.callbacks (Some retry.RetryCounter.increment) errs n k count
    = count + Z.of_nat k.
Proof.
  unfold retry.callbacks, retry.RetryCounter.increment.
  induction k as [|k IH]; intros n count; cbn [seq foldl]; [lia|].
  rewrite IH. lia.
Qed.

(** C4 as stated fails in its last part: after [max_retries + 1] failures
    the wrapper raises the very exception the operation raised (a bare
    [raise]), not an exception that wraps it. *)
Lemma retry_with_backoff_raises_unwrapped :
  let e := retry.mk_exn "ConnectionError" "boom" in
  let r :=
    retry.retry_with_backoff (V := Z) (S := unit) "call_api"
      (fun _ => Raised e) 1 (retry.PyInt 2) 60 (fun _ => true) None tt in
  retry.result r = Raised e
  /\ retry.trace r = [retry.Call 0; retry.Sleep 2; retry.Call 1]
  /\ ~ (exists wrapped, wrapped <> e /\ retry.result r = Raised wrapped).
Proof.
  repeat split; try reflexivity.
  intros (wrapped & Hne & Hr). apply Hne.
  vm_compute in Hr. by injection Hr.
Qed.

(** C4, amended. Let [max_retries >= 0], let [backoff_factor >= 0] be an
    [int] or a float whose power [backoff_factor ** max_retries] is at
    most the largest float, let [0 <= max_wait <= SLEEP_SAFE], and let
    the first [max_retries] invocations raise caught errors. The wrapper
    then makes exactly [max_retries + 1] invocations; before each retry
    it calls [on_retry] (exactly [max_retries] times, so a
    [RetryCounter] ends at [max_retries]) and sleeps
    [min(backoff_factor ** attempt, max_wait)] for attempt 1, 2, ...
    If invocation [max_retries + 1] returns, the wrapper returns that
    value. If it raises a caught error, the wrapper raises that same
    exception, unchanged and not wrapped, with no further attempt. *)
Theorem retry_with_backoff_at_max_retries {V S : Type}
    (func_name : string) (func : nat -> outcome V retry.exn)
    (max_retries : Z) (backoff_factor : retry.number) (max_wait : Q)
    (exceptions : retry.exn -> bool)
    (on_retry : option (Z -> retry.exn -> S -> S))
    (errs : nat -> retry.exn) (s : S) :
  0 <= max_retries ->
  (0 <= retry.value backoff_factor)%Q ->
  retry.power_in_range backoff_factor max_retries ->
  (0 <= max_wait)%Q ->
  (max_wait <= retry.SLEEP_SAFE)%Q ->
  let k := Z.to_nat max_retries in
  (forall i, (i < k)%nat ->
     func i = Raised (errs i) /\ exceptions (errs i) = true) ->
  let wrapper {S'} (on_retry : option (Z -> retry.exn -> S' -> S')) :=
    retry.retry_with_backoff func_name func max_retries backoff_factor
      max_wait exceptions on_retry in
  let expected :=
    retry.backoff_rounds backoff_factor max_wait on_retry errs 0 k
    ++ [retry.Call k] in
  (forall outcome_k,
     outcome_k = func k ->
     match outcome_k with
     | Returned _ => True
     | Raised e => exceptions e = true
     end ->
     retry.result (wrapper on_retry s) = outcome_k
     /\ retry.trace (wrapper on_retry s) = expected
     /\ retry.callback_state (wrapper on_retry s)
        = retry.callbacks on_retry errs 0 k s
     /\ retry.callback_state
          (wrapper (Some retry.RetryCounter.increment)
             retry.RetryCounter.init)
        = max_retries)
  /\ length (filter retry.is_Call expected) = Datatypes.S k
  /\ (is_Some on_retry -> length (filter retry.is_OnRetry expected) = k)
  /\ filter retry.is_Sleep expected
     = (fun i => retry.Sleep
                   (Qmin (retry.value backoff_factor ^ (Z.of_nat i + 1))
                      max_wait))
         <$> seq 0 k.
Proof.
  intros Hmr Hbf Hpow Hmw Hsafe k Herrs wrapper expected.
  assert (Hk' : Z.of_nat k = max_retries) by (subst k; lia).
  split; [|split; [|split]].
  - intros outcome_k Hk Hcaught. subst wrapper expected.
    destruct outcome_k as [v|e].
    + rewrite !(retry_with_backoff_success _ _ _ _ _ _ _ errs max_retries
                  Hbf Hmw Hsafe Hpow k v)
        by (done || lia).
      cbn [retry.result retry.trace retry.callback_state].
      rewrite callbacks_RetryCounter. unfold retry.RetryCounter.init.
      repeat split; try done; lia.
    + rewrite !(retry_with_backoff_exhausted _ _ _ _ _ _ _ errs max_retries
                  Hbf Hmw Hsafe Hpow k e)
        by (done || lia).
      cbn [retry.result retry.trace retry.callback_state].
      rewrite callbacks_RetryCounter. unfold retry.RetryCounter.init.
      repeat split; try done; lia.
  - subst expected. rewrite filter_app, length_app, backoff_rounds_calls.
    change (filter retry.is_Call [retry.Call k]) with [retry.Call k].
    simpl. lia.
  - intros Hsome. subst expected.
    rewrite filter_app, length_app, backoff_rounds_on_retry by done.
    change (filter retry.is_OnRetry [retry.Call k]) with (@nil retry.event).
    simpl. lia.
  - subst expected. rewrite filter_app, backoff_rounds_sleeps.
    change (filter retry.is_Sleep [retry.Call k]) with (@nil retry.event).
    by rewrite app_nil_r.
Qed.

Lemma retry_with_backoff_at_max_retries_witness :
  let e := retry.mk_exn "ConnectionError" "boom" in
  let func := fun i : nat => if (i <? 2)%nat then Raised e else Returned 7 in
  let r :=
    retry.retry_with_backoff "call_api" func 2 (retry.PyFloat 1.5) 60
      (fun _ => true)
      (Some retry.RetryCounter.increment) retry.RetryCounter.init in
  0 <= 2
  /\ (0 <= retry.value (retry.PyFloat 1.5))%Q
  /\ retry.power_in_range (retry.PyFloat 1.5) 2
  /\ (0 <= 60)%Q
  /\ (60 <= retry.SLEEP_SAFE)%Q
  /\ (forall i, (i < Z.to_nat 2)%nat -> func i = Raised e /\ true = true)
  /\ retry.result r = Returned 7
  /\ retry.callback_state r = 2
  /\ filter retry.is_Sleep (retry.trace r)
     = [retry.Sleep (Qmin (1.5 ^ 1) 60); retry.Sleep (Qmin (1.5 ^ 2) 60)].
Proof.
  intros e func r.
  assert (H1 : 0 <= 2) by lia.
  assert (H2 : (0 <= retry.value (retry.PyFloat 1.5))%Q)
    by (unfold Qle; simpl; lia).
  assert (H3 : retry.power_in_range (retry.PyFloat 1.5) 2)
    by (vm_compute; discriminate).
  assert (H4 : (0 <= 60)%Q) by (unfold Qle; simpl; lia).
  assert (H5 : (60 <= retry.SLEEP_SAFE)%Q) by (vm_compute; discriminate).
  assert (H6 : forall i, (i < Z.to_nat 2)%nat ->
                 func i = Raised e /\ true = true).
  { intros [|[|i]] Hi; simpl in Hi; (split; [reflexivity || lia | reflexivity]). }
  destruct (retry_with_backoff_at_max_retries "call_api" func 2
              (retry.PyFloat 1.5) 60
              (fun _ => true) (Some retry.RetryCounter.increment)
              (fun _ => e) retry.RetryCounter.init H1 H2 H3 H4 H5 H6)
    as (Hrun & _ & _ & Hsleeps).
  destruct (Hrun (Returned 7) eq_refl I) as (Hresult & Htrace & _ & Hcount).
  refine (conj H1 (conj H2 (conj H3 (conj H4 (conj H5 (conj H6
            (conj Hresult (conj Hcount _)))))))).
  fold r in Htrace. rewrite Htrace. exact Hsleeps.
Defined.

(** Why the powers are asked to stay within the floats' range: with the
    float [2.0 ** 600] as factor and two retries allowed, the wait of the
    second retry cannot be computed and the wrapper raises the
    [OverflowError] of the power, before the callback, in place of the
    third invocation. With the [int] [2 ** 600] it goes on. *)
Lemma retry_with_backoff_float_power_overflows :
  let e := retry.mk_exn "ConnectionError" "boom" in
  let func := fun i : nat => if (i <? 2)%nat then Raised e else Returned 7 in
  let wrapper := fun backoff_factor =>
    retry.retry_with_backoff "call_api" func 2 backoff_factor 60
      (fun _ => true)
      (Some retry.RetryCounter.increment) retry.RetryCounter.init in
  wrapper (retry.PyFloat (inject_Z (2 ^ 600)))
  = retry.mk_run (Raised retry.PowOverflowError)
      [retry.Call 0; retry.OnRetry 1 e; retry.Sleep 60; retry.Call 1] 2 1
  /\ retry.result (wrapper (retry.PyInt (2 ^ 600))) = Returned 7.
Proof. split; vm_compute; reflexivity. Qed.

(** ** retry_openai_call *)

Section RetryOpenaiCallProperties.
Import retry.
Context {V : Type}.
Variables (func_name : string) (func : nat -> outcome V exn).
Variable max_retries : Z.

Local Abbreviation oloop := (openai_loop func_name func max_retries).

Lemma after_after_unit (evs evs' : list event) (r : run V unit) :
  after evs (after evs' r) = after (evs ++ evs') r.
Proof. unfold after. simpl. by rewrite app_assoc. Qed.

Lemma after_nil_unit (r : run V unit) : after [] r = r.
Proof. by destruct r. Qed.

Lemma openai_wait_time_nonneg (error_msg : string) (retries : Z) :
  (0 <= openai_wait_time error_msg retries)%Q.
Proof.
  assert (Hpow : (0 <= config.RETRY_BACKOFF_FACTOR ^ retries)%Q)
    by (apply Qpower_0_le; unfold Qle; simpl; lia).
  assert (Hmax : (0 <= config.RETRY_MAX_WAIT)%Q) by (unfold Qle; simpl; lia).
  unfold openai_wait_time.
  destruct (is_rate_limit error_msg), (is_timeout error_msg);
    apply Q.min_glb; try done;
    apply Qmult_le_0_compat; try done; unfold Qle; simpl; lia.
Qed.

(** The three marker tests together are [retryable], and [no_marker] is
    its negation. *)
Lemma no_marker_retryable (error_msg : string) :
  no_marker error_msg = negb (retryable error_msg).
Proof.
  unfold no_marker, retryable, is_rate_limit, is_timeout, is_server_error.
  cbn [forallb existsb].
  destruct (contains "429" error_msg),
           (contains "rate_limit" (lower error_msg)),
           (contains "timeout" (lower error_msg)),
           (contains "timed out" (lower error_msg)),
           (contains "500" error_msg), (contains "502" error_msg),
           (contains "503" error_msg), (contains "504" error_msg);
    reflexivity.
Qed.

(** A round whose invocation raises an error without a marker ends the
    run there: no sleep, [retries] untouched. *)
Lemma openai_loop_fatal budget retries n e :
  retries <= max_retries ->
  func n = Raised e ->
  retryable (exn_msg e) = false ->
  oloop (Datatypes.S budget) retries n = mk_run (Raised e) [Call n] retries tt.
Proof.
  intros Hle Hraise Hfatal. cbn [openai_loop].
  rewrite decide_True by done. rewrite Hraise.
  fold (retryable (exn_msg e)). by rewrite Hfatal.
Qed.

(** A round whose invocation raises an error with a marker, with retries
    left, sleeps and goes on. *)
Lemma openai_loop_retry budget n errs :
  Z.of_nat n < max_retries ->
  func n = Raised (errs n) ->
  retryable (exn_msg (errs n)) = true ->
  oloop (Datatypes.S budget) (Z.of_nat n) n
    = after (openai_round errs n)
        (oloop budget (Z.of_nat (Datatypes.S n)) (Datatypes.S n)).
Proof.
  intros Hlt Hraise Hretry. cbn [openai_loop].
  rewrite decide_True by lia. rewrite Hraise.
  fold (retryable (exn_msg (errs n))). rewrite Hretry. cbn [negb].
  rewrite decide_False by lia.
  destruct (Qlt_le_dec _ 0) as [Hneg|_].
  { exfalso. eapply Qlt_not_le; [exact Hneg|].
    apply openai_wait_time_nonneg. }
  unfold openai_round.
  by replace (Z.of_nat (Datatypes.S n)) with (Z.of_nat n + 1) by lia.
Qed.

Lemma openai_loop_retries errs k : forall budget n,
  Z.of_nat (n + k) <= max_retries ->
  (forall i, (n <= i < n + k)%nat ->
     func i = Raised (errs i) /\ retryable (exn_msg (errs i)) = true) ->
  oloop (k + budget) (Z.of_nat n) n
    = after (openai_rounds errs n k)
        (oloop budget (Z.of_nat (n + k)) (n + k)%nat).
Proof.
  induction k as [|k IH]; intros budget n Hle Herrs.
  - rewrite Nat.add_0_r. by rewrite after_nil_unit.
  - destruct (Herrs n) as [Hraise Hretry]; [lia|].
    change (Datatypes.S k + budget)%nat with (Datatypes.S (k + budget)).
    rewrite (openai_loop_retry _ _ errs) by (done || lia).
    rewrite IH by (lia || (intros i Hi; apply Herrs; lia)).
    rewrite after_after_unit.
    replace (Datatypes.S n + k)%nat with (n + Datatypes.S k)%nat by lia.
    unfold openai_rounds. by cbn [seq flat_map].
Qed.

(** Every invocation after the first follows a round whose error had a
    marker. *)
Lemma openai_loop_calls budget : forall retries n m,
  Call m ∈ trace (oloop budget retries n) ->
  (n <= m)%nat
  /\ forall j, (n <= j < m)%nat ->
       exists e, func j = Raised e /\ retryable (exn_msg e) = true.
Proof.
  induction budget as [|budget IH]; intros retries n m; cbn [openai_loop].
  { intros Hin. by apply elem_of_nil in Hin. }
  assert (Hone : Call m ∈ [Call n] ->
            (n <= m)%nat
            /\ forall j, (n <= j < m)%nat ->
                 exists e, func j = Raised e /\ retryable (exn_msg e) = true).
  { intros Hin. apply list_elem_of_singleton in Hin. injection Hin as ->.
    split; [lia|]. intros j Hj. lia. }
  case_decide; [|intros Hin; by apply elem_of_nil in Hin].
  destruct (func n) as [v|e] eqn:Hn; [exact Hone|].
  fold (retryable (exn_msg e)).
  destruct (retryable (exn_msg e)) eqn:Hretry; cbn [negb]; [|exact Hone].
  case_decide.
  { destruct (is_rate_limit (exn_msg e)); exact Hone. }
  destruct (Qlt_le_dec _ 0); [exact Hone|].
  cbn [after trace]. rewrite elem_of_app. intros [Hin|Hin].
  - apply elem_of_cons in Hin as [Hin|Hin]; [injection Hin as ->|].
    + split; [lia|]. intros j Hj. lia.
    + apply list_elem_of_singleton in Hin. discriminate Hin.
  - apply IH in Hin as [Hle Hprev]. split; [lia|].
    intros j Hj. destruct (decide (j = n)) as [->|Hne]; [eauto|].
    apply Hprev. lia.
Qed.

End RetryOpenaiCallProperties.

(** C5 as stated fails for a marker written in another case: the message
    "Request TIMEOUT" contains none of the eight markers as they are
    written, yet the wrapper sleeps 2 s and invokes the function again,
    because the three words are looked for in the lowered message. *)
Lemma retry_openai_call_retries_uppercase_marker :
  let e := retry.mk_exn "APITimeoutError" "Request TIMEOUT" in
  retry.no_marker_as_written (retry.exn_msg e) = true
  /\ retry.retry_openai_call (V := Z) "extract_beliefs" (fun _ => Raised e) 1
     = retry.mk_run (Raised e)
         [retry.Call 0; retry.Sleep 2; retry.Call 1] 2 tt.
Proof. split; reflexivity. Qed.

(** C5, amended. Take an error whose message contains none of "429",
    "500", "502", "503", "504" and whose lowered message contains none of
    "rate_limit", "timeout", "timed out". When an invocation raises it,
    the wrapper raises that same error at once: nothing follows the
    invocation in the trace (no sleep) and [retries] keeps the value it
    had; raised by the first invocation, the trace is that single
    invocation and [retries] is 0. And every further invocation follows an
    error that matched one of the three marker classes. *)
Theorem retry_openai_call_fatal_immediate {V : Type}
    (func_name : string) (func : nat -> outcome V retry.exn)
    (max_retries : Z) :
  (forall (errs : nat -> retry.exn) (k : nat) (e : retry.exn),
     Z.of_nat k <= max_retries ->
     (forall i, (i < k)%nat ->
        func i = Raised (errs i)
        /\ retry.retryable (retry.exn_msg (errs i)) = true) ->
     func k = Raised e ->
     retry.no_marker (retry.exn_msg e) = true ->
     retry.retry_openai_call func_name func max_retries
     = retry.mk_run (Raised e)
         (retry.openai_rounds errs 0 k ++ [retry.Call k]) (Z.of_nat k) tt)
  /\ (forall e : retry.exn,
        0 <= max_retries ->
        func 0%nat = Raised e ->
        retry.no_marker (retry.exn_msg e) = true ->
        retry.retry_openai_call func_name func max_retries
        = retry.mk_run (Raised e) [retry.Call 0] 0 tt)
  /\ (forall n : nat,
        retry.Call (Datatypes.S n)
          ∈ retry.trace (retry.retry_openai_call func_name func max_retries) ->
        exists e,
          func n = Raised e /\ retry.no_marker (retry.exn_msg e) = false).
Proof.
  assert (Hgeneral : forall (errs : nat -> retry.exn) (k : nat) (e : retry.exn),
     Z.of_nat k <= max_retries ->
     (forall i, (i < k)%nat ->
        func i = Raised (errs i)
        /\ retry.retryable (retry.exn_msg (errs i)) = true) ->
     func k = Raised e ->
     retry.no_marker (retry.exn_msg e) = true ->
     retry.retry_openai_call func_name func max_retries
     = retry.mk_run (Raised e)
         (retry.openai_rounds errs 0 k ++ [retry.Call k]) (Z.of_nat k) tt).
  { intros errs k e Hk Herrs Hraise Hfatal.
    rewrite no_marker_retryable in Hfatal. apply negb_true_iff in Hfatal.
    unfold retry.retry_openai_call.
    replace (Z.to_nat (max_retries + 1))
      with (k + Datatypes.S (Z.to_nat (max_retries - Z.of_nat k)))%nat by lia.
    rewrite (openai_loop_retries _ _ _ errs k _ 0%nat)
      by (simpl; lia || (intros i Hi; apply Herrs; lia)).
    cbn [Nat.add].
    by rewrite (openai_loop_fatal _ _ _ _ _ _ e) by (done || lia). }
  split; [exact Hgeneral|]. split.
  - intros e Hmr Hraise Hfatal.
    apply (Hgeneral (fun _ => e) 0%nat e); [lia | intros i Hi; lia | done..].
  - intros n Hin. apply openai_loop_calls in Hin as [_ Hprev].
    destruct (Hprev n) as (e & Hraise & Hretry); [lia|].
    exists e. split; [done|]. by rewrite no_marker_retryable, Hretry.
Qed.

Lemma retry_openai_call_fatal_immediate_witness :
  let transient := retry.mk_exn "APIError" "HTTP 503 Service Unavailable" in
  let fatal := retry.mk_exn "AuthenticationError" "Incorrect API key" in
  let func := fun i : nat =>
    if (i <? 1)%nat then Raised transient else @Raised Z _ fatal in
  Z.of_nat 1 <= 3
  /\ (forall i, (i < 1)%nat ->
        func i = Raised transient
        /\ retry.retryable (retry.exn_msg transient) = true)
  /\ func 1%nat = Raised fatal
  /\ retry.no_marker (retry.exn_msg fatal) = true
  /\ retry.retry_openai_call "extract_beliefs" func 3
     = retry.mk_run (Raised fatal)
         [retry.Call 0; retry.Sleep 2; retry.Call 1] 1 tt.
Proof.
  intros transient fatal func.
  assert (H1 : Z.of_nat 1 <= 3) by (simpl; lia).
  assert (H2 : forall i, (i < 1)%nat ->
                 func i = Raised transient
                 /\ retry.retryable (retry.exn_msg transient) = true).
  { intros [|i] Hi; [split; reflexivity | lia]. }
  assert (H3 : func 1%nat = Raised fatal) by reflexivity.
  assert (H4 : retry.no_marker (retry.exn_msg fatal) = true) by reflexivity.
  exact (conj H1 (conj H2 (conj H3 (conj H4
    (proj1 (retry_openai_call_fatal_immediate "extract_beliefs" func 3)
       (fun _ => transient) 1%nat fatal H1 H2 H3 H4))))).
Defined.

(** ** CheckpointManager *)

(** [find] returns the first element that passes the test. *)
Lemma find_Some_first {A} (P : A -> bool) (l : list A) (p : A) :
  find P l = Some p <->
  exists l1 l2, l = l1 ++ p :: l2 /\ P p = true
                /\ forall q, q ∈ l1 -> P q = false.
Proof.
  induction l as [|x l IH]; simpl.
  - split; [discriminate|]. intros (l1 & l2 & Heq & _). by destruct l1.
  - destruct (P x) eqn:Hx.
    + split.
      * intros [= ->]. exists [], l. repeat split; [done|].
        intros q Hq. by apply elem_of_nil in Hq.
      * intros (l1 & l2 & Heq & Hp & Hnone). destruct l1 as [|y l1].
        -- by injection Heq as ->.
        -- injection Heq as -> _. rewrite Hnone in Hx; [done | left].
    + rewrite IH. split.
      * intros (l1 & l2 & -> & Hp & Hnone). exists (x :: l1), l2.
        repeat split; [done|]. intros q [->|Hq]%elem_of_cons; auto.
      * intros (l1 & l2 & Heq & Hp & Hnone). destruct l1 as [|y l1].
        -- injection Heq as -> _. congruence.
        -- injection Heq as -> ->. exists l1, l2.
           repeat split; [done|]. intros q Hq. apply Hnone. by right.
Qed.

Lemma find_None_all {A} (P : A -> bool) (l : list A) :
  find P l = None <-> forall q, q ∈ l -> P q = false.
Proof.
  induction l as [|x l IH]; simpl.
  - split; [|done]. intros _ q Hq. by apply elem_of_nil in Hq.
  - destruct (P x) eqn:Hx.
    + split; [discriminate|]. intros Hall.
      rewrite Hall in Hx; [done | left].
    + rewrite IH. split.
      * intros Hall q [->|Hq]%elem_of_cons; auto.
      * intros Hall q Hq. apply Hall. by right.
Qed.

Lemma elem_of_rev {A} (l : list A) (x : A) : x ∈ rev l <-> x ∈ l.
Proof. rewrite !list_elem_of_In. symmetry. apply in_rev. Qed.

Section CheckpointProperties.
Import checkpoint.
Context {Text : Type}.
Variable json_dump : json -> Text.
Variable json_load : Text -> option json.
Implicit Types (files : gmap string Text) (phases : list string).

(** [get_last_checkpoint] gives a phase exactly when it is saved and no
    phase after it in the order is. *)
Lemma get_last_checkpoint_Some phases files (p : string) :
  get_last_checkpoint phases files = Some p <->
  exists earlier later,
    phases = earlier ++ p :: later
    /\ exists_ files p = true
    /\ forall q, q ∈ later -> exists_ files q = false.
Proof.
  unfold get_last_checkpoint. rewrite find_Some_first. split.
  - intros (l1 & l2 & Heq & Hp & Hnone).
    exists (rev l2), (rev l1). repeat split; [|done|].
    + rewrite <- (rev_involutive phases), Heq, rev_app_distr. simpl.
      by rewrite <- app_assoc.
    + intros q Hq. apply Hnone. by apply elem_of_rev.
  - intros (earlier & later & -> & Hp & Hnone).
    exists (rev later), (rev earlier). repeat split; [|done|].
    + rewrite rev_app_distr. simpl. by rewrite <- app_assoc.
    + intros q Hq. apply Hnone. by apply elem_of_rev.
Qed.

Lemma get_last_checkpoint_None phases files :
  get_last_checkpoint phases files = None <->
  forall q, q ∈ phases -> exists_ files q = false.
Proof.
  unfold get_last_checkpoint. rewrite find_None_all.
  split; intros Hall q Hq; apply Hall; by apply elem_of_rev.
Qed.

(** C7. For every phase order and every set of saved checkpoints,
    [get_last_checkpoint] returns the phase that is latest in the order
    among those for which [exists] is true, and [None] exactly when no
    phase of the order has a checkpoint; with the order [A, B, C] and only
    A and B saved it returns B. *)
Theorem get_last_checkpoint_latest_saved phases files :
  (forall p,
     get_last_checkpoint phases files = Some p <->
     exists earlier later,
       phases = earlier ++ p :: later
       /\ exists_ files p = true
       /\ forall q, q ∈ later -> exists_ files q = false)
  /\ (get_last_checkpoint phases files = None <->
      forall q, q ∈ phases -> exists_ files q = false)
  /\ (forall A B C : string,
        exists_ files A = true -> exists_ files B = true ->
        exists_ files C = false ->
        get_last_checkpoint [A; B; C] files = Some B).
Proof.
  split; [|split].
  - apply get_last_checkpoint_Some.
  - apply get_last_checkpoint_None.
  - intros A B C HA HB HC. unfold get_last_checkpoint. simpl.
    by rewrite HC, HB.
Qed.

Lemma index_elem_of (x : string) phases :
  x ∈ phases -> is_Some (index x phases).
Proof.
  induction phases as [|p phases IH]; [by intros ?%elem_of_nil|].
  intros Hin. simpl. destruct (String.eqb p x) eqn:Hpx; [by eexists|].
  apply elem_of_cons in Hin as [->|Hin].
  - by rewrite String.eqb_refl in Hpx.
  - destruct (IH Hin) as [i ->]. by eexists.
Qed.

(** When no phase name is the empty string, [get_resume_point] is
    [get_last_checkpoint]. *)
Lemma get_resume_point_is_last phases (root : gmap string (node (Text := Text)))
    (episode_id : string) (now : Q) :
  (forall p, p ∈ phases -> p <> ""%string) ->
  get_resume_point phases root episode_id now
  = manager_get_last_checkpoint phases root episode_id now.
Proof.
  intros Hnonempty. unfold get_resume_point, manager_get_last_checkpoint.
  destruct (mkdir root episode_id now) as [root'|]; [simpl|done].
  destruct (get_last_checkpoint phases _) as [p|] eqn:Hlast; [|done].
  apply get_last_checkpoint_Some in Hlast as (earlier & later & Hphases & _).
  assert (Hin : p ∈ phases).
  { rewrite Hphases, elem_of_app, elem_of_cons. auto. }
  destruct (String.eqb_spec p "") as [->|_].
  { by destruct (Hnonempty _ Hin). }
  destruct (index_elem_of p phases Hin) as [i ->].
  by destruct (i <? _)%nat.
Qed.

(** C10. For every episode identifier and every content of the
    checkpoints root, [get_resume_point(episode_id)] returns what
    [CheckpointManager(episode_id).get_last_checkpoint()] returns: the last
    completed phase, or [None]; both raise when the episode path is a
    plain file. *)
Theorem get_resume_point_is_last_checkpoint
    (root : gmap string (node (Text := Text))) (episode_id : string) (now : Q) :
  get_resume_point config.CHECKPOINT_PHASES root episode_id now
  = manager_get_last_checkpoint config.CHECKPOINT_PHASES root episode_id now.
Proof.
  apply get_resume_point_is_last. intros p Hp.
  unfold config.CHECKPOINT_PHASES in Hp.
  repeat (apply elem_of_cons in Hp as [->|Hp]; [discriminate|]).
  by apply elem_of_nil in Hp.
Qed.

End CheckpointProperties.

Lemma get_last_checkpoint_latest_saved_witness :
  let files : gmap string string :=
    {[ "utterances.json" := "{}"; "beliefs_raw.json" := "{}" ]}%string in
  checkpoint.exists_ files "utterances" = true
  /\ checkpoint.exists_ files "beliefs_raw" = true
  /\ checkpoint.exists_ files "canonical_beliefs" = false
  /\ checkpoint.get_last_checkpoint
       ["utterances"; "beliefs_raw"; "canonical_beliefs"]%string files
     = Some "beliefs_raw"%string.
Proof.
  intros files.
  assert (HA : checkpoint.exists_ files "utterances" = true) by reflexivity.
  assert (HB : checkpoint.exists_ files "beliefs_raw" = true) by reflexivity.
  assert (HC : checkpoint.exists_ files "canonical_beliefs" = false)
    by reflexivity.
  exact (conj HA (conj HB (conj HC
    (proj2 (proj2 (get_last_checkpoint_latest_saved
                     ["utterances"; "beliefs_raw"; "canonical_beliefs"]%string
                     files))
       "utterances"%string "beliefs_raw"%string "canonical_beliefs"%string
       HA HB HC)))).
Defined.

(** Tuples are all that [json.dump] followed by [json.load] changes in
    a value. *)
Lemma pyval_size_elem (l : list checkpoint.pyval) (x : checkpoint.pyval) :
  x ∈ l ->
  (checkpoint.pyval_size x
   < Datatypes.S (foldr (fun x rest => checkpoint.pyval_size x + rest) 0 l))%nat.
Proof.
  induction l as [|y l IH]; [by intros ?%elem_of_nil|].
  intros [->|Hin]%elem_of_cons; simpl in *; [lia|]. specialize (IH Hin). lia.
Qed.

Lemma pyval_size_dict (m : gmap string checkpoint.pyval) (k : string)
    (x : checkpoint.pyval) :
  m !! k = Some x ->
  (checkpoint.pyval_size x < checkpoint.pyval_size (checkpoint.PDict m))%nat.
Proof.
  intros Hk. simpl. rewrite <- (insert_delete_id m k x) at 1 by done.
  rewrite map_fold_insert_L; [lia | intros; lia |]. by rewrite lookup_delete_eq.
Qed.

Lemma no_tuple_dict (m : gmap string checkpoint.pyval) (k : string)
    (x : checkpoint.pyval) :
  checkpoint.no_tuple (checkpoint.PDict m) = true ->
  m !! k = Some x ->
  checkpoint.no_tuple x = true.
Proof.
  intros Hm Hk. simpl in Hm. rewrite <- (insert_delete_id m k x) in Hm by done.
  rewrite map_fold_insert_L in Hm.
  - by apply andb_prop in Hm as [? _].
  - intros. by rewrite !andb_assoc, (andb_comm (checkpoint.no_tuple _)).
  - by rewrite lookup_delete_eq.
Qed.

Lemma of_json_to_json (v : checkpoint.pyval) :
  checkpoint.no_tuple v = true ->
  checkpoint.of_json (checkpoint.to_json v) = v.
Proof.
  remember (checkpoint.pyval_size v) as n eqn:Hn. revert v Hn.
  induction (lt_wf n) as [n _ IH]. intros v -> Hv.
  destruct v as [| | | | |l|l|m];
    cbn [checkpoint.of_json checkpoint.to_json]; try reflexivity.
  - f_equal. rewrite <- list_fmap_compose. rewrite <- (list_fmap_id l) at 2.
    apply list_fmap_ext. intros i x Hx. simpl.
    apply list_elem_of_lookup_2 in Hx.
    eapply IH; [|reflexivity|].
    + by apply pyval_size_elem.
    + cbn [checkpoint.no_tuple] in Hv. rewrite forallb_forall in Hv.
      apply Hv. by apply list_elem_of_In.
  - discriminate Hv.
  - f_equal. rewrite <- map_fmap_compose. rewrite <- (map_fmap_id m) at 2.
    apply map_fmap_ext. intros k x Hx. simpl.
    eapply IH; [|reflexivity|].
    + by eapply pyval_size_dict.
    + by eapply no_tuple_dict.
Qed.

Section SaveLoad.
Import checkpoint.
Context {Text : Type}.
Variable json_dump : json -> Text.
Variable json_load : Text -> option json.
Implicit Types files : gmap string Text.

(** After [save] the final file holds the dump of the checkpoint. *)
Lemma save_writes_checkpoint_file episode_id files phase data stats timestamp :
  (save json_dump true episode_id files phase data stats timestamp).1
    !! (phase ++ ".json")%string
  = Some (json_dump
            (to_json (checkpoint_structure episode_id phase data stats
                        timestamp))).
Proof.
  unfold save, rename. cbn [negb fst].
  rewrite lookup_insert_eq. cbn [fst]. by rewrite lookup_insert_eq.
Qed.

(** The JSON value of the checkpoint: an object with the metadata and
    the data. *)
Lemma checkpoint_structure_json episode_id phase data stats timestamp :
  exists checkpoint_metadata,
    to_json (checkpoint_structure episode_id phase data stats timestamp)
    = JDict {[ "metadata"%string := JDict checkpoint_metadata;
               "data"%string := to_json (PList data) ]}
    /\ is_Some (checkpoint_metadata !! "episode_id"%string)
    /\ is_Some (checkpoint_metadata !! "timestamp"%string).
Proof.
  eexists. split; [|split].
  - unfold checkpoint_structure. cbn [to_json].
    rewrite fmap_insert, map_fmap_singleton. cbn [to_json]. reflexivity.
  - rewrite !fmap_insert, map_fmap_singleton. by simplify_map_eq.
  - rewrite !fmap_insert, map_fmap_singleton. by simplify_map_eq.
Qed.

(** What a [load(phase)] that follows [save(phase, data, stats)]
    returns when [json.load] reads back the checkpoint that [json.dump]
    wrote: the JSON value of [data]. *)
Lemma save_then_load episode_id files phase data stats timestamp :
  let document :=
    to_json (checkpoint_structure episode_id phase data stats timestamp) in
  json_load (json_dump document) = Some document ->
  load json_load
    (save json_dump true episode_id files phase data stats timestamp).1 phase
  = Returned (Some (to_json (PList data))).
Proof.
  intros document Hread. subst document.
  unfold load, load_body. rewrite save_writes_checkpoint_file, Hread.
  destruct (checkpoint_structure_json episode_id phase data stats timestamp)
    as (metadata & -> & [eid Heid] & [ts Hts]).
  cbn [py_in bind]. rewrite lookup_insert_eq.
  rewrite bool_decide_eq_true_2 by done. cbn [negb].
  rewrite lookup_insert_ne by done. rewrite lookup_singleton_eq.
  rewrite bool_decide_eq_true_2 by done. cbn [negb subscript bind].
  rewrite lookup_insert_eq. rewrite lookup_insert_ne by done.
  rewrite lookup_singleton_eq. cbn [bind subscript to_json py_len].
  by rewrite Heid, Hts.
Qed.

(** C6, amended. With checkpointing enabled, let the phase name be
    plain, let [data] be a list with no tuple inside, and let [json.load]
    read back the checkpoint as [json.dump] writes it. Then
    [save(phase, data, stats)] returns the path of the phase file and a
    [load(phase)] that follows returns a value equal to [data]: the value
    [json.load] builds for the JSON value of [data]. *)
Theorem save_then_load_round_trip (episode_id : string) files (phase : string)
    (data : list pyval) (stats : option (gmap string pyval))
    (timestamp : string) :
  plain phase = true ->
  forallb no_tuple data = true ->
  let document :=
    to_json (checkpoint_structure episode_id phase data stats timestamp) in
  json_load (json_dump document) = Some document ->
  let saved := save json_dump true episode_id files phase data stats timestamp in
  saved.2 = Some (phase ++ ".json")%string
  /\ exists_ saved.1 phase = true
  /\ load json_load saved.1 phase = Returned (Some (to_json (PList data)))
  /\ of_json (to_json (PList data)) = PList data.
Proof.
  intros _ Hdata document Hread saved.
  split; [done|]. split; [|split].
  - unfold exists_. subst saved. rewrite save_writes_checkpoint_file.
    by apply bool_decide_eq_true.
  - by apply save_then_load.
  - by apply of_json_to_json.
Qed.

End SaveLoad.

(** C6 as stated fails on a list that holds a tuple, which is
    JSON-serializable: [json.dump] writes the tuple as an array and
    [json.load] reads a list, so [load] returns [[[1, 2]]] for the saved
    [[(1, 2)]], and a list is not equal to a tuple. *)
Lemma save_then_load_turns_tuple_into_list :
  let data := [checkpoint.PTuple [checkpoint.PInt 1; checkpoint.PInt 2]] in
  let saved :=
    checkpoint.save (Text := checkpoint.json) id true "episode_001" ∅
      "beliefs_raw" data None "2024-01-01T00:00:00" in
  let loaded :=
    checkpoint.JList [checkpoint.JList [checkpoint.JInt 1; checkpoint.JInt 2]] in
  checkpoint.plain "beliefs_raw" = true
  /\ checkpoint.load Some saved.1 "beliefs_raw" = Returned (Some loaded)
  /\ checkpoint.of_json loaded
     = checkpoint.PList
         [checkpoint.PList [checkpoint.PInt 1; checkpoint.PInt 2]]
  /\ checkpoint.of_json loaded <> checkpoint.PList data.
Proof.
  intros data saved loaded. split; [reflexivity|].
  split; [|split].
  - subst saved. by rewrite (save_then_load id Some).
  - reflexivity.
  - discriminate.
Qed.

Lemma save_then_load_round_trip_witness :
  let data := [checkpoint.PDict {[ "belief"%string := checkpoint.PStr "x" ]};
               checkpoint.PList [checkpoint.PInt 1; checkpoint.PInt 2]] in
  let document :=
    checkpoint.to_json
      (checkpoint.checkpoint_structure "episode_001" "beliefs_raw" data None
         "2024-01-01T00:00:00") in
  let saved :=
    checkpoint.save (Text := checkpoint.json) id true "episode_001" ∅
      "beliefs_raw" data None "2024-01-01T00:00:00" in
  checkpoint.plain "beliefs_raw" = true
  /\ forallb checkpoint.no_tuple data = true
  /\ Some (id document) = Some document
  /\ saved.2 = Some "beliefs_raw.json"%string
  /\ checkpoint.exists_ saved.1 "beliefs_raw" = true
  /\ checkpoint.load Some saved.1 "beliefs_raw"
     = Returned (Some (checkpoint.to_json (checkpoint.PList data)))
  /\ checkpoint.of_json (checkpoint.to_json (checkpoint.PList data))
     = checkpoint.PList data.
Proof.
  intros data document saved.
  assert (Hplain : checkpoint.plain "beliefs_raw" = true) by reflexivity.
  assert (Hdata : forallb checkpoint.no_tuple data = true) by reflexivity.
  assert (Hread : Some (id document) = Some document) by reflexivity.
  exact (conj Hplain (conj Hdata (conj Hread
           (save_then_load_round_trip id Some "episode_001" ∅
              "beliefs_raw" data None "2024-01-01T00:00:00" Hplain Hdata
              Hread)))).
Defined.

(** ** cleanup_old_checkpoints *)

Section CleanupProperties.
Import checkpoint.
Context {Text : Type}.
Implicit Types (root : gmap string (node (Text := Text))).
Implicit Types (entries : gmap string Text).

(** With [days > 0] every entry of the root goes through the loop body. *)
Lemma cleanup_lookup (days : Z) (now : Q) root (name : string) :
  0 < days ->
  cleanup_old_checkpoints (Some days) now root !! name
  = root !! name ≫= cleanup_entry (now - inject_Z (days * 86400))%Q now.
Proof.
  intros Hdays. unfold cleanup_old_checkpoints, if_not_None.
  rewrite decide_False by lia. apply lookup_omap.
Qed.

(** What is left of a directory once its [*.json] files are unlinked. *)
Lemma left_lookup entries (file : string) :
  filter (fun kv : string * Text => ¬ is_json kv.1) entries !! file
  = if is_json file then None else entries !! file.
Proof.
  destruct (is_json file) eqn:Hjson.
  - apply map_lookup_filter_None. right. intros x _ Hnot. simpl in Hnot.
    apply Hnot. by rewrite Hjson.
  - destruct (entries !! file) as [x|] eqn:Hfile.
    + apply map_lookup_filter_Some. split; [done|]. simpl.
      rewrite Hjson. intros [].
    + apply map_lookup_filter_None. by left.
Qed.

(** C8, amended. For [days > 0] and every entry of the checkpoints root:
    a directory modified strictly before [now - days] loses all its
    [*.json] files, keeps its other files, and is removed when nothing is
    left in it; a directory modified at [now - days] or later, and every
    plain file of the root, is left as it is. Only the modification time
    of the directory is compared, whatever the files contain. *)
Theorem cleanup_old_checkpoints_strictly_older (days : Z) (now : Q) root :
  0 < days ->
  let cutoff_date := (now - inject_Z (days * 86400))%Q in
  let root' := cleanup_old_checkpoints (Some days) now root in
  (forall name mtime entries,
     root !! name = Some (Dir mtime entries) ->
     (mtime < cutoff_date)%Q ->
     (forall file, is_json file = true ->
        checkpoint_dir root' name !! file = None)
     /\ (forall file, is_json file = false ->
           checkpoint_dir root' name !! file = entries !! file)
     /\ ((forall file, is_Some (entries !! file) -> is_json file = true) ->
         root' !! name = None))
  /\ (forall name mtime entries,
        root !! name = Some (Dir mtime entries) ->
        (cutoff_date <= mtime)%Q ->
        root' !! name = Some (Dir mtime entries))
  /\ (forall name content,
        root !! name = Some (File content) ->
        root' !! name = Some (File content)).
Proof.
  intros Hdays cutoff_date root'. split; [|split].
  - intros name mtime entries Hname Hold.
    assert (Hdir : checkpoint_dir root' name
                   = filter (fun kv : string * Text => ¬ is_json kv.1) entries
                   /\ (filter (fun kv : string * Text => ¬ is_json kv.1) entries
                       = ∅ -> root' !! name = None)).
    { unfold checkpoint_dir. subst root'.
      rewrite cleanup_lookup, Hname by done. simpl.
      fold cutoff_date.
      destruct (Qlt_le_dec mtime cutoff_date) as [_|Hnew].
      2: { exfalso. by eapply Qlt_not_le. }
      destruct (map_to_list _) as [|kv l] eqn:Hlist.
      - apply map_to_list_empty_iff in Hlist. by rewrite Hlist.
      - split; [done|]. intros Hempty. rewrite Hempty in Hlist.
        by rewrite map_to_list_empty in Hlist. }
    destruct Hdir as [-> Hremoved]. split; [|split].
    + intros file Hjson. by rewrite left_lookup, Hjson.
    + intros file Hjson. by rewrite left_lookup, Hjson.
    + intros Hall. apply Hremoved. apply map_eq. intros file.
      rewrite left_lookup, lookup_empty.
      destruct (is_json file) eqn:Hjson; [done|].
      destruct (entries !! file) as [x|] eqn:Hfile; [|done].
      rewrite Hall in Hjson; [done | by rewrite Hfile].
  - intros name mtime entries Hname Hnew. subst root'.
    rewrite cleanup_lookup, Hname by done. simpl. fold cutoff_date.
    destruct (Qlt_le_dec mtime cutoff_date) as [Hold|_]; [|done].
    exfalso. by eapply Qlt_not_le.
  - intros name content Hname. subst root'.
    by rewrite cleanup_lookup, Hname.
Qed.

End CleanupProperties.

(** C8 as stated fails at the boundary: a directory modified exactly 30
    days before [now] is "at least 30 days" old, and
    [cleanup_old_checkpoints(30)] leaves it and its checkpoint as they
    are, since the test is [mtime < cutoff_date]. *)
Lemma cleanup_keeps_directory_exactly_days_old :
  let now := 3000000%Q in
  let mtime := 408000%Q in
  let episode_dir :=
    checkpoint.Dir mtime {[ "utterances.json"%string := "[]"%string ]} in
  let root : gmap string checkpoint.node :=
    {[ "episode_001"%string := episode_dir ]} in
  (now - mtime == inject_Z (30 * 86400))%Q
  /\ checkpoint.cleanup_old_checkpoints (Some 30) now root
       !! "episode_001"%string = Some episode_dir.
Proof.
  split; [reflexivity|].
  rewrite cleanup_lookup by lia. rewrite lookup_singleton_eq. reflexivity.
Qed.

Lemma cleanup_old_checkpoints_strictly_older_witness :
  let now := 3000000%Q in
  let root : gmap string checkpoint.node :=
    {[ "episode_001"%string :=
         checkpoint.Dir 1000
           {[ "utterances.json"%string := "[]"%string ]} ]} in
  0 < 30
  /\ checkpoint.cleanup_old_checkpoints (Some 30) now root
       !! "episode_001"%string = None.
Proof.
  intros now root.
  assert (H : 0 < 30) by lia.
  split; [exact H|].
  destruct (cleanup_old_checkpoints_strictly_older 30 now root H)
    as [Hold _].
  destruct (Hold "episode_001"%string 1000%Q
              {[ "utterances.json"%string := "[]"%string ]})
    as (_ & _ & Hremoved).
  - apply lookup_singleton_eq.
  - reflexivity.
  - apply Hremoved. intros file [x Hfile].
    apply lookup_singleton_Some in Hfile as [<- _]. reflexivity.
Defined.

(** ** QualityScorer *)

Section QualityScorerProperties.
Import quality_scorer.

(** The four counters start at 0 and the six methods only add to them. *)
Lemma apply_counters_nonneg (m : QualityMetrics) (c : call) :
  counters_nonneg m -> counters_nonneg (apply m c).
Proof.
  unfold counters_nonneg. destruct c; simpl; lia.
Qed.

Lemma metrics_after_counters_nonneg (episode_id now : string) (cs : list call) :
  counters_nonneg (metrics_after episode_id now cs).
Proof.
  unfold metrics_after.
  assert (Hinit : counters_nonneg (init episode_id now))
    by (unfold counters_nonneg; simpl; lia).
  revert Hinit. generalize (init episode_id now).
  induction cs as [|c cs IH]; intros m Hm; [done|].
  simpl. apply IH. by apply apply_counters_nonneg.
Qed.

Lemma calculate_score_bounds (m : QualityMetrics) :
  counters_nonneg m ->
  (0 <= calculate_score m)%Q /\ (calculate_score m <= 100)%Q.
Proof.
  intros (He & Hr & Hm & Hx). split; [apply Q.le_max_l|].
  unfold calculate_score. apply Q.max_lub; [unfold Qle; simpl; lia|].
  unfold config.QUALITY_PENALTY_ERROR, config.QUALITY_PENALTY_RETRY,
    config.QUALITY_PENALTY_MALFORMED, config.QUALITY_PENALTY_MISMATCH.
  rewrite Zle_Qle in He, Hr, Hm, Hx. change (inject_Z 0) with 0%Q in *.
  lra.
Qed.

(** With the four keys present no lookup fails, and the chain of tests
    picks the first cutoff the score meets. *)
Lemma calculate_grade_first_met (thresholds : gmap string Z) (score : Q)
    (a b c d : Z) :
  thresholds !! "A"%string = Some a -> thresholds !! "B"%string = Some b ->
  thresholds !! "C"%string = Some c -> thresholds !! "D"%string = Some d ->
  calculate_grade thresholds score = Some (first_grade_met thresholds score).
Proof.
  intros Ha Hb Hc Hd. unfold calculate_grade, first_grade_met, meets.
  cbn [find]. rewrite Ha, Hb, Hc, Hd. cbn [mbind option_bind].
  by destruct (Qle_bool (inject_Z a) score), (Qle_bool (inject_Z b) score),
       (Qle_bool (inject_Z c) score), (Qle_bool (inject_Z d) score).
Qed.

End QualityScorerProperties.

(** C9. For every state of the counters, [calculate_score] is
    [max(0, 100 - errors * W_err - retries * W_retry - malformed * W_mal
    - mismatches * W_mis)]; it is never below 0, and after any calls of
    the six methods on fresh metrics (so for all counters that are not
    negative) it is at most 100. With the configured weights 2.0 and 0.5,
    2 errors and 1 retry give 95.5. [calculate_grade] returns the first of
    A, B, C, D whose configured cutoff the score meets, else F; the
    configured cutoffs 90, 80, 70, 60 make this the descending order, and
    95.5 is graded A. *)
Theorem calculate_score_and_grade :
  (forall m : quality_scorer.QualityMetrics,
     quality_scorer.calculate_score m
     = Qmax 0
         (100
          - inject_Z (quality_scorer.errors_count m)
            * config.QUALITY_PENALTY_ERROR
          - inject_Z (quality_scorer.retries_count m)
            * config.QUALITY_PENALTY_RETRY
          - inject_Z (quality_scorer.malformed_beliefs_count m)
            * config.QUALITY_PENALTY_MALFORMED
          - inject_Z (quality_scorer.registry_mismatches_count m)
            * config.QUALITY_PENALTY_MISMATCH)%Q
     /\ (0 <= quality_scorer.calculate_score m)%Q)
  /\ (forall (episode_id now : string) (cs : list quality_scorer.call),
        (quality_scorer.calculate_score
           (quality_scorer.metrics_after episode_id now cs) <= 100)%Q)
  /\ (forall m : quality_scorer.QualityMetrics,
        quality_scorer.counters_nonneg m ->
        (quality_scorer.calculate_score m <= 100)%Q)
  /\ (config.QUALITY_PENALTY_ERROR == 2)%Q
  /\ (config.QUALITY_PENALTY_RETRY == 0.5)%Q
  /\ (forall m : quality_scorer.QualityMetrics,
        quality_scorer.errors_count m = 2 ->
        quality_scorer.retries_count m = 1 ->
        quality_scorer.malformed_beliefs_count m = 0 ->
        quality_scorer.registry_mismatches_count m = 0 ->
        (quality_scorer.calculate_score m == 95.5)%Q)
  /\ (forall (thresholds : gmap string Z) (score : Q) (a b c d : Z),
        thresholds !! "A"%string = Some a ->
        thresholds !! "B"%string = Some b ->
        thresholds !! "C"%string = Some c ->
        thresholds !! "D"%string = Some d ->
        quality_scorer.calculate_grade thresholds score
        = Some (quality_scorer.first_grade_met thresholds score))
  /\ (forall score : Q,
        quality_scorer.calculate_grade config.QUALITY_THRESHOLDS score
        = Some (quality_scorer.first_grade_met config.QUALITY_THRESHOLDS score))
  /\ (config.QUALITY_THRESHOLDS !! "A"%string = Some 90
      /\ config.QUALITY_THRESHOLDS !! "B"%string = Some 80
      /\ config.QUALITY_THRESHOLDS !! "C"%string = Some 70
      /\ config.QUALITY_THRESHOLDS !! "D"%string = Some 60)
  /\ quality_scorer.calculate_grade config.QUALITY_THRESHOLDS 95.5
     = Some "A"%string.
Proof.
  split; [|split; [|split; [|split; [|split; [|split; [|split;
    [|split; [|split]]]]]]]].
  - intros m. split; [reflexivity | apply Q.le_max_l].
  - intros episode_id now cs.
    apply calculate_score_bounds, metrics_after_counters_nonneg.
  - intros m Hm. by apply calculate_score_bounds.
  - reflexivity.
  - reflexivity.
  - intros m He Hr Hm Hx. unfold quality_scorer.calculate_score.
    by rewrite He, Hr, Hm, Hx.
  - apply calculate_grade_first_met.
  - intros score. by apply (calculate_grade_first_met _ _ 90 80 70 60).
  - repeat split; reflexivity.
  - reflexivity.
Qed.

Lemma calculate_score_and_grade_witness :
  let m :=
    quality_scorer.metrics_after "episode_001" "2024-01-01T00:00:00"
      [quality_scorer.AddParsingError "bad timestamp";
       quality_scorer.AddRetry;
       quality_scorer.AddApiError "HTTP 500"] in
  quality_scorer.counters_nonneg m
  /\ quality_scorer.errors_count m = 2
  /\ quality_scorer.retries_count m = 1
  /\ quality_scorer.malformed_beliefs_count m = 0
  /\ quality_scorer.registry_mismatches_count m = 0
  /\ config.QUALITY_THRESHOLDS !! "A"%string = Some 90
  /\ config.QUALITY_THRESHOLDS !! "B"%string = Some 80
  /\ config.QUALITY_THRESHOLDS !! "C"%string = Some 70
  /\ config.QUALITY_THRESHOLDS !! "D"%string = Some 60
  /\ (quality_scorer.calculate_score m <= 100)%Q
  /\ (quality_scorer.calculate_score m == 95.5)%Q
  /\ quality_scorer.calculate_grade config.QUALITY_THRESHOLDS
       (quality_scorer.calculate_score m)
     = Some (quality_scorer.first_grade_met config.QUALITY_THRESHOLDS
               (quality_scorer.calculate_score m)).
Proof.
  intros m.
  assert (H0 : quality_scorer.counters_nonneg m)
    by (unfold quality_scorer.counters_nonneg; simpl; lia).
  assert (H1 : quality_scorer.errors_count m = 2) by reflexivity.
  assert (H2 : quality_scorer.retries_count m = 1) by reflexivity.
  assert (H3 : quality_scorer.malformed_beliefs_count m = 0) by reflexivity.
  assert (H4 : quality_scorer.registry_mismatches_count m = 0) by reflexivity.
  assert (HA : config.QUALITY_THRESHOLDS !! "A"%string = Some 90) by reflexivity.
  assert (HB : config.QUALITY_THRESHOLDS !! "B"%string = Some 80) by reflexivity.
  assert (HC : config.QUALITY_THRESHOLDS !! "C"%string = Some 70) by reflexivity.
  assert (HD : config.QUALITY_THRESHOLDS !! "D"%string = Some 60) by reflexivity.
  destruct calculate_score_and_grade
    as (_ & _ & Hbound & _ & _ & Hexample & Hgrade & _).
  exact (conj H0 (conj H1 (conj H2 (conj H3 (conj H4 (conj HA (conj HB
    (conj HC (conj HD (conj (Hbound m H0) (conj (Hexample m H1 H2 H3 H4)
    (Hgrade config.QUALITY_THRESHOLDS (quality_scorer.calculate_score m)
       90 80 70 60 HA HB HC HD)))))))))))).
Defined.

(** * Further properties *)

(** ** RateLimiter: the request window *)

Section RateLimiterWindow.
Import RateLimiter.

Lemma pop_older_length {A} (ts : A -> Q) (cutoff : Q) (d : list A) :
  (length (pop_older ts cutoff d) <= length d)%nat.
Proof.
  induction d as [|x d IH]; simpl; [lia|].
  destruct (Qlt_le_dec (ts x) cutoff); simpl; lia.
Qed.

Lemma pop_older_head {A} (ts : A -> Q) (cutoff : Q) (d : list A) (x : A) :
  head (pop_older ts cutoff d) = Some x -> (cutoff <= ts x)%Q.
Proof.
  induction d as [|y d IH]; simpl; [discriminate|].
  destruct (Qlt_le_dec (ts y) cutoff) as [|Hle]; [done|].
  simpl. by intros [= <-].
Qed.

Lemma pop_older_pops {A} (ts : A -> Q) (cutoff : Q) (d : list A) (x : A) :
  head d = Some x -> (ts x < cutoff)%Q ->
  (length (pop_older ts cutoff d) < length d)%nat.
Proof.
  destruct d as [|y d]; simpl; [discriminate|]. intros [= ->] Hold.
  destruct (Qlt_le_dec (ts x) cutoff) as [_|Hle].
  - pose proof (pop_older_length ts cutoff d). lia.
  - exfalso. by eapply Qlt_not_le.
Qed.

(** With a positive [rpm] the wait is computed without error, is not
    negative, and covers the expiry of the oldest request when the window
    is full. *)
Lemma compute_wait_covers_oldest (self : t) (now : Q) (tokens : Z) :
  1 <= rpm self ->
  exists w,
    compute_wait self now tokens = Some w
    /\ (0 <= w)%Q
    /\ (rpm self <= Z.of_nat (length (request_times self)) ->
        exists oldest,
          head (request_times self) = Some oldest
          /\ (60 - (now - oldest) + (1 # 10) <= w)%Q).
Proof.
  intros Hrpm. unfold compute_wait.
  assert (Hfirst : exists w1,
    (if decide (rpm self <= Z.of_nat (length (request_times self))) then
       oldest_request ← head (request_times self);
       Some (Qmax 0 (60 - (now - oldest_request) + (1 # 10))%Q)
     else Some 0%Q) = Some w1
    /\ (0 <= w1)%Q
    /\ (rpm self <= Z.of_nat (length (request_times self)) ->
        exists oldest,
          head (request_times self) = Some oldest
          /\ (60 - (now - oldest) + (1 # 10) <= w1)%Q)).
  { case_decide as Hfull.
    - destruct (request_times self) as [|oldest d] eqn:Hd;
        [simpl in Hfull; lia|].
      simpl. eexists. split; [done|]. split; [apply Q.le_max_l|].
      intros _. exists oldest. split; [done | apply Q.le_max_r].
    - exists 0%Q. split; [done|]. split; [apply Qle_refl | done]. }
  destruct Hfirst as (w1 & -> & Hw1 & Hcover). simpl.
  assert (Hstay : exists w, Some w1 = Some w /\ (0 <= w)%Q
            /\ (rpm self <= Z.of_nat (length (request_times self)) ->
                exists oldest, head (request_times self) = Some oldest
                  /\ (60 - (now - oldest) + (1 # 10) <= w)%Q))
    by (exists w1; done).
  case_decide; [|done]. case_decide; [|done].
  eexists. split; [done|]. split.
  - eapply Qle_trans; [exact Hw1 | apply Q.le_max_l].
  - intros Hfull. destruct (Hcover Hfull) as (oldest & Hhead & Hle).
    exists oldest. split; [done|].
    eapply Qle_trans; [exact Hle | apply Q.le_max_l].
Qed.

Lemma wait_if_needed_request_window (self : t) (now lag : Q) (tokens : Z) :
  1 <= rpm self ->
  (0 <= lag)%Q ->
  Z.of_nat (length (request_times self)) <= rpm self ->
  exists self' w,
    wait_if_needed self now lag tokens = Some (self', w)
    /\ (0 <= w)%Q
    /\ rpm self' = rpm self
    /\ tpm self' = tpm self
    /\ Z.of_nat (length (request_times self')) <= rpm self'.
Proof.
  intros Hrpm Hlag Hlen. unfold wait_if_needed.
  set (c := _clean_old_entries self now).
  assert (Hc : Z.of_nat (length (request_times c)) <= rpm self).
  { subst c. simpl.
    pose proof (pop_older_length id (now - 60)%Q (request_times self)). lia. }
  assert (Hrpmc : rpm c = rpm self) by done.
  assert (Htpmc : tpm c = tpm self) by done.
  assert (Hfresh : forall x, head (request_times c) = Some x ->
                     (now - 60 <= x)%Q).
  { intros x Hx. by apply (pop_older_head id) in Hx. }
  clearbody c.
  destruct (compute_wait_covers_oldest c now tokens)
    as (w & Hw & Hnonneg & Hcover); [lia|].
  rewrite Hw. simpl.
  destruct (Qlt_le_dec 0 w) as [Hpos|Hzero].
  - eexists _, w. split; [done|]. split; [done|]. do 2 (split; [done|]).
    simpl. rewrite length_app. simpl.
    destruct (decide (rpm c <= Z.of_nat (length (request_times c))))
      as [Hfull|Hroom].
    + destruct (Hcover Hfull) as (oldest & Hhead & Hle).
      assert (length (pop_older id (now + w + lag - 60)%Q (request_times c))
                < length (request_times c))%nat.
      { apply (pop_older_pops id _ _ oldest); [done|]. unfold id. lra. }
      lia.
    + pose proof (pop_older_length id (now + w + lag - 60)%Q
                    (request_times c)). lia.
  - eexists _, w. split; [done|]. split; [done|]. do 2 (split; [done|]).
    simpl. rewrite length_app. simpl.
    destruct (decide (rpm c <= Z.of_nat (length (request_times c))))
      as [Hfull|Hroom]; [|lia].
    exfalso. destruct (Hcover Hfull) as (oldest & Hhead & Hle).
    apply Hfresh in Hhead. lra.
Qed.

End RateLimiterWindow.

(** X1. With [rpm >= 1], a call of [wait_if_needed] on a window of at
    most [rpm] requests never fails, returns a wait that is not negative
    and leaves a window of at most [rpm] requests, however long the sleep
    really took; so after any sequence of calls on a fresh limiter, at any
    clock readings, the request window holds at most [rpm] entries. *)
Theorem request_window_within_rpm :
  (forall (self : RateLimiter.t) (now lag : Q) (tokens : Z),
     1 <= RateLimiter.rpm self ->
     (0 <= lag)%Q ->
     Z.of_nat (length (RateLimiter.request_times self)) <= RateLimiter.rpm self ->
     exists self' w,
       RateLimiter.wait_if_needed self now lag tokens = Some (self', w)
       /\ (0 <= w)%Q
       /\ RateLimiter.rpm self' = RateLimiter.rpm self
       /\ Z.of_nat (length (RateLimiter.request_times self'))
          <= RateLimiter.rpm self')
  /\ (forall (rpm_limit : Z) (tpm_arg : option Z) (reqs : list (Q * Z)),
        1 <= rpm_limit ->
        exists st,
          RateLimiter.calls (RateLimiter.init (Some rpm_limit) tpm_arg) reqs
          = Some st
          /\ Z.of_nat (length (RateLimiter.request_times st)) <= rpm_limit).
Proof.
  split.
  - intros self now lag tokens Hrpm Hlag Hlen.
    destruct (wait_if_needed_request_window self now lag tokens)
      as (self' & w & Hcall & Hw & Hr & _ & Hlen'); [done..|].
    by exists self', w.
  - intros rpm_limit tpm_arg reqs Hrpm.
    assert (Hgen : forall self,
              RateLimiter.rpm self = rpm_limit ->
              Z.of_nat (length (RateLimiter.request_times self)) <= rpm_limit ->
              exists st,
                RateLimiter.calls self reqs = Some st
                /\ Z.of_nat (length (RateLimiter.request_times st))
                   <= rpm_limit).
    { induction reqs as [|[now tokens] reqs IH]; intros self Hself Hlen.
      - by exists self.
      - destruct (wait_if_needed_request_window self now 0 tokens)
          as (self' & w & Hcall & _ & Hr & _ & Hlen');
          [lia | apply Qle_refl | lia |].
        cbn [RateLimiter.calls]. rewrite Hcall. simpl.
        apply IH; lia. }
    apply Hgen.
    + unfold RateLimiter.init, int_or_default. simpl.
      by rewrite decide_False by lia.
    + simpl. lia.
Qed.

Lemma request_window_within_rpm_witness :
  1 <= 2
  /\ exists st,
       RateLimiter.calls (RateLimiter.init (Some 2) (Some 100))
         [(0%Q, 10); (1%Q, 10); (2%Q, 10)] = Some st
       /\ Z.of_nat (length (RateLimiter.request_times st)) <= 2.
Proof.
  assert (H : 1 <= 2) by lia.
  exact (conj H (proj2 request_window_within_rpm 2 (Some 100)
                   [(0%Q, 10); (1%Q, 10); (2%Q, 10)] H)).
Defined.

(** ** RateLimiter: order of the timestamps *)

Section RateLimiterOrder.
Import RateLimiter.
Context {A : Type} (ts : A -> Q).

Lemma ordered_bounds (lo hi : Q) (d : list A) :
  ordered ts lo hi d -> (lo <= hi)%Q.
Proof.
  revert lo. induction d as [|x d IH]; intros lo; simpl; [done|].
  intros [Hlo Hrest]. eapply Qle_trans; [exact Hlo | by apply IH].
Qed.

Lemma ordered_weaken (lo hi hi' : Q) (d : list A) :
  ordered ts lo hi d -> (hi <= hi')%Q -> ordered ts lo hi' d.
Proof.
  revert lo. induction d as [|x d IH]; intros lo; simpl.
  - intros. by eapply Qle_trans.
  - intros [Hlo Hrest] Hhi. split; [done | by apply IH].
Qed.

(** Pruning an ordered window leaves the entries from the cutoff on. *)
Lemma pop_older_ordered (lo hi cutoff : Q) (d : list A) :
  ordered ts lo hi d -> (cutoff <= hi)%Q ->
  ordered ts cutoff hi (pop_older ts cutoff d).
Proof.
  revert lo. induction d as [|x d IH]; intros lo; simpl; [done|].
  intros [Hlo Hrest] Hcut.
  destruct (Qlt_le_dec (ts x) cutoff) as [|Hle]; [by eapply IH|].
  by split.
Qed.

Lemma ordered_snoc (lo hi : Q) (d : list A) (x : A) :
  ordered ts lo hi d -> (hi <= ts x)%Q ->
  ordered ts lo (ts x) (d ++ [x]).
Proof.
  revert lo. induction d as [|y d IH]; intros lo; simpl.
  - intros Hlo Hhi. split; [by eapply Qle_trans | apply Qle_refl].
  - intros [Hlo Hrest] Hhi. split; [done | by apply IH].
Qed.

End RateLimiterOrder.

(** X2. Let the timestamps of both windows be in non-decreasing order and
    not after the clock reading [now] of a call. After the call, with the
    request recorded at [recorded] ([now], or the reading after the
    sleep), both windows are again in non-decreasing order, every entry of
    both lies within the 60 seconds up to [recorded], and the last request
    entry is [recorded]. *)
Theorem wait_if_needed_keeps_windows_ordered
    (self self' : RateLimiter.t) (now lag w lo lo' latest : Q) (tokens : Z) :
  RateLimiter.ordered id lo latest (RateLimiter.request_times self) ->
  RateLimiter.ordered fst lo' latest (RateLimiter.token_counts self) ->
  (latest <= now)%Q ->
  (0 <= lag)%Q ->
  RateLimiter.wait_if_needed self now lag tokens = Some (self', w) ->
  let recorded := if Qlt_le_dec 0 w then (now + w + lag)%Q else now in
  RateLimiter.ordered id (recorded - 60) recorded
    (RateLimiter.request_times self')
  /\ RateLimiter.ordered fst (recorded - 60) recorded
       (RateLimiter.token_counts self')
  /\ last (RateLimiter.request_times self') = Some recorded.
Proof.
  intros Hreq Htok Hnow Hlag. unfold RateLimiter.wait_if_needed.
  destruct (RateLimiter.compute_wait _ now tokens) as [w0|]; [|done].
  intros Hcall. simpl in Hcall.
  set (recorded := if Qlt_le_dec 0 w then (now + w + lag)%Q else now).
  assert (Hrec : (now <= recorded)%Q).
  { subst recorded. destruct (Qlt_le_dec 0 w); lra. }
  assert (Hcut : (recorded - 60 <= recorded)%Q) by lra.
  assert (Hreq1 : RateLimiter.ordered id (now - 60) recorded
            (RateLimiter.pop_older id (now - 60)%Q
               (RateLimiter.request_times self))).
  { eapply ordered_weaken; [|exact Hrec].
    eapply pop_older_ordered; [|lra].
    eapply ordered_weaken; [exact Hreq | done]. }
  assert (Htok1 : RateLimiter.ordered fst (now - 60) recorded
            (RateLimiter.pop_older fst (now - 60)%Q
               (RateLimiter.token_counts self))).
  { eapply ordered_weaken; [|exact Hrec].
    eapply pop_older_ordered; [|lra].
    eapply ordered_weaken; [exact Htok | done]. }
  assert (Hsnoc_req : forall d,
            RateLimiter.ordered id (recorded - 60) recorded d ->
            RateLimiter.ordered id (recorded - 60) recorded (d ++ [recorded])).
  { intros d Hd.
    apply (ordered_snoc id (recorded - 60) recorded d recorded Hd).
    apply Qle_refl. }
  assert (Hsnoc_tok : forall d,
            RateLimiter.ordered fst (recorded - 60) recorded d ->
            RateLimiter.ordered fst (recorded - 60) recorded
              (if decide (0 < tokens) then d ++ [(recorded, tokens)] else d)).
  { intros d Hd. case_decide; [|done].
    apply (ordered_snoc fst (recorded - 60) recorded d (recorded, tokens) Hd).
    apply Qle_refl. }
  destruct (Qlt_le_dec 0 w0) as [Hpos|Hzero];
    injection Hcall as <- <-; subst recorded; simpl.
  - destruct (Qlt_le_dec 0 w0) as [_|Hbad]; [|exfalso; lra].
    split; [|split].
    + apply Hsnoc_req. by eapply pop_older_ordered.
    + apply Hsnoc_tok. by eapply pop_older_ordered.
    + apply last_snoc.
  - destruct (Qlt_le_dec 0 w0) as [Hbad|_]; [exfalso; lra|].
    split; [|split].
    + by apply Hsnoc_req.
    + by apply Hsnoc_tok.
    + apply last_snoc.
Qed.

Lemma wait_if_needed_keeps_windows_ordered_witness :
  let self :=
    RateLimiter.mk 2 100 [0%Q; 1%Q] [(0%Q, 60); (1%Q, 30)] in
  let self' :=
    RateLimiter.mk 2 100 [1%Q; 60.1%Q] [(1%Q, 30); (60.1%Q, 50)] in
  RateLimiter.ordered id 0 1 (RateLimiter.request_times self)
  /\ RateLimiter.ordered fst 0 1 (RateLimiter.token_counts self)
  /\ (1 <= 2)%Q
  /\ (0 <= 0)%Q
  /\ RateLimiter.wait_if_needed self 2 0 50 = Some (self', 58.1%Q)
  /\ RateLimiter.ordered id (60.1 - 60) 60.1
       (RateLimiter.request_times self')
  /\ RateLimiter.ordered fst (60.1 - 60) 60.1
       (RateLimiter.token_counts self')
  /\ last (RateLimiter.request_times self') = Some 60.1%Q.
Proof.
  intros self self'.
  assert (H1 : RateLimiter.ordered id 0 1 (RateLimiter.request_times self))
    by (simpl; unfold id, Qle; simpl; lia).
  assert (H2 : RateLimiter.ordered fst 0 1 (RateLimiter.token_counts self))
    by (simpl; unfold Qle; simpl; lia).
  assert (H3 : (1 <= 2)%Q) by (unfold Qle; simpl; lia).
  assert (H4 : (0 <= 0)%Q) by (unfold Qle; simpl; lia).
  assert (H5 : RateLimiter.wait_if_needed self 2 0 50 = Some (self', 58.1%Q))
    by reflexivity.
  exact (conj H1 (conj H2 (conj H3 (conj H4 (conj H5
    (wait_if_needed_keeps_windows_ordered self self' 2 0 58.1 0 0 1 50
       H1 H2 H3 H4 H5)))))).
Defined.

(** X3. A request larger than the whole token budget is never refused:
    on a fresh limiter it waits 60.1 s and is then recorded, so the token
    window holds more than [tpm]. *)
Theorem wait_if_needed_admits_oversized_request
    (rpm_limit tpm_limit : Z) (now lag : Q) (tokens : Z) :
  1 <= rpm_limit ->
  1 <= tpm_limit ->
  tpm_limit < tokens ->
  exists st w,
    RateLimiter.wait_if_needed
      (RateLimiter.init (Some rpm_limit) (Some tpm_limit)) now lag tokens
    = Some (st, w)
    /\ (w == 60.1)%Q
    /\ RateLimiter.token_counts st = [((now + w + lag)%Q, tokens)]
    /\ RateLimiter.tpm st < RateLimiter.sum_counts (RateLimiter.token_counts st).
Proof.
  intros Hrpm Htpm Hbig.
  unfold RateLimiter.wait_if_needed, RateLimiter.compute_wait,
    RateLimiter.init, int_or_default.
  rewrite !decide_False by lia. cbn -[Qmax Qlt_le_dec Qplus Qminus].
  rewrite decide_False by lia.
  cbn -[Qmax Qlt_le_dec Qplus Qminus].
  rewrite decide_True by lia.
  cbn -[Qmax Qlt_le_dec Qplus Qminus].
  rewrite decide_True by lia.
  cbn -[Qmax Qlt_le_dec Qplus Qminus].
  set (w := Qmax 0 (60 - (now - now) + (1 # 10))%Q).
  assert (Hw : (w == 60.1)%Q).
  { subst w. rewrite Q.max_r; [lra|]. lra. }
  destruct (Qlt_le_dec 0 w) as [_|Hbad]; [|exfalso; lra].
  eexists _, w. split; [reflexivity|]. split; [done|].
  cbn -[Qplus]. rewrite decide_True by lia.
  split; [done|]. cbn. lia.
Qed.

Lemma wait_if_needed_admits_oversized_request_witness :
  1 <= 3500 /\ 1 <= 100 /\ 100 < 250
  /\ exists st w,
       RateLimiter.wait_if_needed (RateLimiter.init (Some 3500) (Some 100))
         5 0 250 = Some (st, w)
       /\ (w == 60.1)%Q
       /\ RateLimiter.token_counts st = [((5 + w + 0)%Q, 250)]
       /\ RateLimiter.tpm st
          < RateLimiter.sum_counts (RateLimiter.token_counts st).
Proof.
  assert (H1 : 1 <= 3500) by lia.
  assert (H2 : 1 <= 100) by lia.
  assert (H3 : 100 < 250) by lia.
  exact (conj H1 (conj H2 (conj H3
    (wait_if_needed_admits_oversized_request 3500 100 5 0 250 H1 H2 H3)))).
Defined.

(** ** ParallelExecutor: the sequential path *)

Section SequentialPath.
Import ParallelExecutor.
Context {T V E : Type}.
Implicit Types (func : T -> outcome V E) (items : list T).

Lemma comprehension_Returned func items (vs : list V) :
  comprehension func items = Returned vs <->
  Forall2 (fun x v => func x = Returned v) items vs.
Proof.
  revert vs. induction items as [|x items IH]; intros vs; simpl.
  - split; [intros [= <-]; constructor | by intros ->%Forall2_nil_inv_l].
  - destruct (func x) as [v|e] eqn:Hx.
    + destruct (comprehension func items) as [vs'|e'] eqn:Hrest.
      * split.
        -- intros [= <-]. constructor; [done | by apply IH].
        -- intros (v' & vs'' & Hv & Hvs & ->)%Forall2_cons_inv_l.
           apply IH in Hvs. congruence.
      * split; [discriminate|].
        intros (v' & vs'' & Hv & Hvs & ->)%Forall2_cons_inv_l.
        apply IH in Hvs. discriminate.
    + split; [discriminate|].
      intros (v' & vs'' & Hv & _)%Forall2_cons_inv_l. congruence.
Qed.

Lemma comprehension_Raised func items (e : E) :
  comprehension func items = Raised e <->
  exists before x after,
    items = before ++ x :: after
    /\ Forall (fun y => exists v, func y = Returned v) before
    /\ func x = Raised e.
Proof.
  induction items as [|x items IH]; simpl.
  - split; [discriminate|]. intros (before & y & after & Heq & _).
    by destruct before.
  - split.
    + destruct (func x) as [v|e0] eqn:Hx.
      * destruct (comprehension func items) as [vs'|e'] eqn:Hrest;
          [discriminate|].
        intros [= ->].
        destruct (proj1 IH eq_refl) as (before & y & after & -> & Hok & Hy).
        exists (x :: before), y, after. repeat split; [|done].
        constructor; eauto.
      * intros [= ->]. exists [], x, items.
        repeat split; [constructor | done].
    + intros (before & y & after & Heq & Hok & Hy).
      destruct before as [|b before]; simpl in Heq.
      * injection Heq as <- <-. by rewrite Hy.
      * injection Heq as <- ->.
        apply Forall_cons in Hok as [[v Hv] Hok]. rewrite Hv.
        assert (Hrest : comprehension func (before ++ y :: after) = Raised e)
          by (apply IH; eauto 6).
        by rewrite Hrest.
Qed.

End SequentialPath.

(** X4. On the sequential path ([max_workers = 1], or parallelism
    disabled) [map] returns exactly when [func] returns on every item, with
    the values in the order of the items; otherwise it raises the
    exception of the first item on which [func] raises. The completion
    order plays no part. *)
Theorem map_sequential_first_failure {T V E : Type} (py_None : V)
    (enabled : bool) (self : ParallelExecutor.t)
    (func : T -> outcome V E) (items : list T) (order : list nat) :
  enabled = false \/ ParallelExecutor.max_workers self = 1 ->
  (forall vs,
     ParallelExecutor.map py_None enabled self func items order = Returned vs
     <-> Forall2 (fun x v => func x = Returned v) items vs)
  /\ (forall err,
        ParallelExecutor.map py_None enabled self func items order = Raised err
        <-> exists before x after e,
              items = before ++ x :: after
              /\ Forall (fun y => exists v, func y = Returned v) before
              /\ func x = Raised e
              /\ err = ParallelExecutor.FuncRaised e).
Proof.
  intros Hseq.
  assert (Hmap : ParallelExecutor.map py_None enabled self func items order
            = match ParallelExecutor.comprehension func items with
              | Returned vs => Returned vs
              | Raised e => Raised (ParallelExecutor.FuncRaised e)
              end).
  { unfold ParallelExecutor.map. destruct Hseq as [->|Hone]; [done|].
    rewrite (bool_decide_eq_true_2 _ Hone). by rewrite orb_true_r. }
  rewrite Hmap. split.
  - intros vs. rewrite <- comprehension_Returned.
    destruct (ParallelExecutor.comprehension func items); split; congruence.
  - intros err. split.
    + destruct (ParallelExecutor.comprehension func items) as [vs|e] eqn:Hc;
        [discriminate|].
      intros [= <-]. apply comprehension_Raised in Hc
        as (before & x & after & ? & ? & ?).
      by exists before, x, after, e.
    + intros (before & x & after & e & Heq & Hok & Hx & ->).
      assert (Hc : ParallelExecutor.comprehension func items = Raised e)
        by (apply comprehension_Raised; eauto 6).
      by rewrite Hc.
Qed.

Lemma map_sequential_first_failure_witness :
  let func := fun x : Z =>
    if decide (x < 2) then Returned (Some (10 * x))
    else Raised ("failed on " ++ retry.str_of_int x)%string in
  let run :=
    ParallelExecutor.map None true (ParallelExecutor.mk 1) func [1; 2; 3]
      [2; 1; 0]%nat in
  (true = false \/ ParallelExecutor.max_workers (ParallelExecutor.mk 1) = 1)
  /\ run = Raised (ParallelExecutor.FuncRaised "failed on 2"%string).
Proof.
  intros func run.
  assert (H : true = false
              \/ ParallelExecutor.max_workers (ParallelExecutor.mk 1) = 1)
    by (right; reflexivity).
  split; [exact H|].
  apply (proj2 (map_sequential_first_failure None true
                  (ParallelExecutor.mk 1) func [1; 2; 3] [2; 1; 0]%nat H)).
  exists [1], 2, [3], "failed on 2"%string.
  repeat split; try reflexivity.
  constructor; [by eexists | constructor].
Defined.

(** ** batch_items *)

Section Batches.
Import parallel.
Context {T : Type}.
Implicit Types (items : list T).

(** The batches of a positive batch size [b], as chunks of the list. *)
Lemma batch_items_chunks items (batch_size : Z) :
  0 < batch_size ->
  batch_items items batch_size
  = Some ((fun k => take (Z.to_nat batch_size)
                         (drop (k * Z.to_nat batch_size) items))
            <$> seq 0 (Z.to_nat ((Z.of_nat (length items) + batch_size - 1)
                                 / batch_size))).
Proof.
  intros Hpos. unfold batch_items, range_from_0, slice.
  rewrite !decide_False by lia. f_equal.
  rewrite <- list_fmap_compose. apply list_fmap_ext. intros _ k _. simpl.
  f_equal; [f_equal; lia|]. f_equal. lia.
Qed.

Lemma concat_chunks items (b m : nat) :
  concat ((fun k => take b (drop (k * b) items)) <$> seq 0 m)
  = take (m * b) items.
Proof.
  induction m as [|m IH]; [done|].
  rewrite seq_S, fmap_app, concat_app, IH. simpl.
  rewrite app_nil_r, take_take_drop. f_equal. lia.
Qed.

(** The number of batches is the ceiling of [len / b]: they cover the
    list, and the last one starts inside it. *)
Lemma batch_count_bounds (n batch_size : Z) :
  0 <= n -> 0 < batch_size ->
  let m := (n + batch_size - 1) / batch_size in
  0 <= m /\ n <= m * batch_size /\ (m - 1) * batch_size < n.
Proof.
  intros Hn Hb m.
  pose proof (Z.mul_div_le (n + batch_size - 1) batch_size Hb) as Hle.
  pose proof (Z.mul_succ_div_gt (n + batch_size - 1) batch_size Hb) as Hgt.
  fold m in Hle, Hgt.
  assert (0 <= m) by (apply Z.div_pos; lia).
  repeat split; nia.
Qed.

End Batches.

Lemma batch_items_cover {T : Type} (items : list T) (batch_size : Z) :
  0 < batch_size ->
  exists batches,
    parallel.batch_items items batch_size = Some batches
    /\ concat batches = items
    /\ Forall (fun batch =>
                 0 < Z.of_nat (length batch) <= batch_size) batches
    /\ (forall i batch,
          batches !! i = Some batch ->
          (i + 1 < length batches)%nat ->
          Z.of_nat (length batch) = batch_size)
    /\ Z.of_nat (length batches)
       = (Z.of_nat (length items) + batch_size - 1) / batch_size.
Proof.
  intros Hpos. eexists. split; [by apply batch_items_chunks|].
  set (b := Z.to_nat batch_size).
  set (m := Z.to_nat ((Z.of_nat (length items) + batch_size - 1) / batch_size)).
  destruct (batch_count_bounds (Z.of_nat (length items)) batch_size)
    as (Hm & Hcover & Hlast); [lia | done |].
  assert (Hb : Z.of_nat b = batch_size) by (subst b; lia).
  assert (Hm' : Z.of_nat m
                = (Z.of_nat (length items) + batch_size - 1) / batch_size)
    by (subst m; lia).
  rewrite <- Hm' in Hcover, Hlast. rewrite <- Hb in Hcover, Hlast.
  clearbody b m.
  assert (Hlen : forall k, (k < m)%nat ->
            length (take b (drop (k * b) items))
            = Nat.min b (length items - k * b)
            /\ (k * b < length items)%nat).
  { intros k Hk. rewrite length_take, length_drop. split; [done|]. nia. }
  split; [|split; [|split]].
  - rewrite concat_chunks. apply take_ge. nia.
  - apply Forall_fmap, Forall_forall. intros k Hk%elem_of_seq. simpl.
    destruct (Hlen k) as [-> Hin]; lia.
  - intros i batch Hi Hnotlast.
    rewrite length_fmap, length_seq in Hnotlast.
    rewrite list_lookup_fmap in Hi.
    rewrite lookup_seq_lt in Hi by lia. simpl in Hi. injection Hi as <-.
    destruct (Hlen i) as [-> Hin]; [lia|]. nia.
  - by rewrite length_fmap, length_seq.
Qed.

(** X5. For a batch size of at least 1, [batch_items] cuts the list into
    consecutive batches: put end to end they give the list back, no batch
    is empty or longer than [batch_size], every batch but the last has
    exactly [batch_size] items, and there are [ceil(len / batch_size)] of
    them. *)
Theorem batch_items_partition {T : Type} (items : list T) (batch_size : Z) :
  0 < batch_size ->
  exists batches,
    parallel.batch_items items batch_size = Some batches
    /\ concat batches = items
    /\ Forall (fun batch =>
                 0 < Z.of_nat (length batch) <= batch_size) batches
    /\ (forall i batch,
          batches !! i = Some batch ->
          (i + 1 < length batches)%nat ->
          Z.of_nat (length batch) = batch_size)
    /\ Z.of_nat (length batches)
       = (Z.of_nat (length items) + batch_size - 1) / batch_size.
Proof. apply batch_items_cover. Qed.

Lemma batch_items_partition_witness :
  0 < 2
  /\ exists batches,
       parallel.batch_items [1; 2; 3; 4; 5] 2 = Some batches
       /\ concat batches = [1; 2; 3; 4; 5]
       /\ Forall (fun batch => 0 < Z.of_nat (length batch) <= 2) batches
       /\ (forall i batch,
             batches !! i = Some batch ->
             (i + 1 < length batches)%nat ->
             Z.of_nat (length batch) = 2)
       /\ Z.of_nat (length batches) = (Z.of_nat (length [1; 2; 3; 4; 5]) + 2 - 1) / 2.
Proof.
  assert (H : 0 < 2) by lia.
  exact (conj H (batch_items_partition [1; 2; 3; 4; 5] 2 H)).
Defined.

(** X6. The other batch sizes: a batch size of 0 raises the [ValueError]
    of [range]; a negative batch size gives no batch at all, so the items
    of a non-empty list are all left out; and an empty list gives no batch
    for any batch size but 0. *)
Theorem batch_items_edge_cases {T : Type} (items : list T) (batch_size : Z) :
  (batch_size = 0 -> parallel.batch_items items batch_size = None)
  /\ (batch_size < 0 ->
      parallel.batch_items items batch_size = Some []
      /\ (items <> [] ->
          forall batches,
            parallel.batch_items items batch_size = Some batches ->
            concat batches <> items))
  /\ (batch_size <> 0 ->
      parallel.batch_items (@nil T) batch_size = Some []).
Proof.
  split; [|split].
  - intros ->. reflexivity.
  - intros Hneg. unfold parallel.batch_items.
    rewrite decide_False by lia. rewrite decide_True by done.
    split; [done|]. intros Hitems batches [= <-]. simpl. congruence.
  - intros Hnz. destruct (decide (batch_size < 0)) as [Hneg|Hpos].
    + unfold parallel.batch_items.
      rewrite decide_False by done. by rewrite decide_True.
    + destruct (batch_items_cover (@nil T) batch_size)
        as (batches & Hb & Hconcat & Hne & _); [lia|].
      rewrite Hb. f_equal. destruct batches as [|batch batches]; [done|].
      apply Forall_cons in Hne as [Hlen _].
      destruct batch; simpl in *; [lia | discriminate].
Qed.

Lemma batch_items_edge_cases_witness :
  -2 < 0
  /\ parallel.batch_items [1; 2; 3] (-2) = Some []
  /\ (forall batches,
        parallel.batch_items [1; 2; 3] (-2) = Some batches ->
        concat batches <> [1; 2; 3]).
Proof.
  assert (H : -2 < 0) by lia.
  destruct (proj1 (proj2 (batch_items_edge_cases [1; 2; 3] (-2))) H)
    as [Hnone Hlost].
  exact (conj H (conj Hnone (Hlost ltac:(discriminate)))).
Defined.

(** ** process_in_batches and BeliefExtractor *)

Lemma flatten_bind {R : Type} (batch_results : list (option (list R))) :
  parallel.flatten batch_results = batch_results ≫= default [].
Proof.
  unfold parallel.flatten.
  assert (Hgen : forall acc,
    foldl (fun results batch_result =>
             match batch_result with
             | Some (x :: l) => results ++ x :: l
             | Some [] => results
             | None => results
             end) acc batch_results
    = acc ++ (batch_results ≫= default [])).
  { induction batch_results as [|r rs IH]; intros acc; simpl.
    - by rewrite app_nil_r.
    - rewrite IH. destruct r as [[|x l]|]; simpl; by rewrite <- ?app_assoc. }
  apply Hgen.
Qed.

Lemma bind_fmap_list {A B C} (f : A -> B) (g : B -> list C) (l : list A) :
  (f <$> l) ≫= g = l ≫= (fun x => g (f x)).
Proof.
  induction l as [|x l IH]; [done|].
  by rewrite fmap_cons, !bind_cons, IH.
Qed.

Lemma bind_concat {A B} (g : A -> list B) (ls : list (list A)) :
  concat ls ≫= g = ls ≫= (fun l => l ≫= g).
Proof.
  induction ls as [|l ls IH]; [done|].
  by rewrite concat_cons, bind_app, bind_cons, IH.
Qed.

Lemma bind_ext_list {A B} (g h : A -> list B) (l : list A) :
  (forall x, g x = h x) -> l ≫= g = l ≫= h.
Proof.
  intros Hgh. induction l as [|x l IH]; [done|].
  by rewrite !bind_cons, Hgh, IH.
Qed.

(** On either path of [map], when it returns the slots of the items. *)
Lemma map_slots_when_isolated_or_total {T V E : Type} (py_None : V)
    (enabled : bool) (max_workers : Z) (func : T -> outcome V E)
    (items : list T) (order : list nat) :
  1 <= max_workers ->
  order ≡ₚ seq 0 (length items) ->
  (enabled = true /\ 1 < max_workers)
  \/ (forall x, exists v, func x = Returned v) ->
  ParallelExecutor.map py_None enabled
    (ParallelExecutor.init max_workers None) func items order
  = Returned (ParallelExecutor.slot py_None func <$> items).
Proof.
  intros Hw Hperm Hcase.
  destruct (decide (enabled = true /\ 1 < max_workers)) as [[-> Hpar]|Hseq].
  { by apply map_parallel_results. }
  destruct Hcase as [?|Htotal]; [done|].
  assert (Hall : Forall (fun x => exists v, func x = Returned v) items)
    by (apply Forall_forall; auto).
  unfold ParallelExecutor.map. simpl.
  destruct enabled; simpl.
  - assert (max_workers = 1) as -> by lia.
    rewrite bool_decide_eq_true_2 by done.
    by rewrite (comprehension_total py_None).
  - by rewrite (comprehension_total py_None).
Qed.

(** X7. Let the batch size in force be at least 1 and [MAX_WORKERS] at
    least 1. When the batches go through the thread pool (both parallel
    flags set, more than one worker), [process_in_batches] returns, for
    every completion order, the results of the batches in the order of
    the batches, a batch on which [func] raises or returns [None]
    contributing nothing. When [func] raises on no batch, it returns that
    same list whatever the flags and the number of workers. *)
Theorem process_in_batches_results {T R E : Type}
    (ENABLE_PARALLEL : bool) (MAX_WORKERS BATCH_SIZE : Z)
    (func : list T -> outcome (option (list R)) E) (items : list T)
    (batch_size : option Z) (parallel_flag : bool) (order : list nat) :
  0 < int_or_default batch_size BATCH_SIZE ->
  1 <= MAX_WORKERS ->
  (forall batches,
     parallel.batch_items items (int_or_default batch_size BATCH_SIZE)
     = Some batches ->
     order ≡ₚ seq 0 (length batches)) ->
  (parallel_flag && ENABLE_PARALLEL = true /\ 1 < MAX_WORKERS)
  \/ (forall batch, exists r, func batch = Returned r) ->
  exists batches,
    parallel.batch_items items (int_or_default batch_size BATCH_SIZE)
    = Some batches
    /\ parallel.process_in_batches ENABLE_PARALLEL MAX_WORKERS BATCH_SIZE
         func items batch_size parallel_flag order
       = Returned (batches ≫= fun batch =>
                     match func batch with
                     | Returned (Some l) => l
                     | Returned None => []
                     | Raised _ => []
                     end).
Proof.
  intros Hbs Hw Horder Hcase.
  destruct (batch_items_cover items (int_or_default batch_size BATCH_SIZE))
    as (batches & Hbatches & _); [done|].
  exists batches. split; [done|].
  unfold parallel.process_in_batches. rewrite Hbatches.
  assert (Hkept : (ParallelExecutor.slot None func <$> batches)
                    ≫= default (@nil R)
            = batches ≫= fun batch =>
                match func batch with
                | Returned (Some l) => l
                | Returned None => @nil R
                | Raised _ => @nil R
                end).
  { rewrite bind_fmap_list. apply bind_ext_list. intros batch.
    unfold ParallelExecutor.slot. by destruct (func batch) as [[l|]|]. }
  destruct (parallel_flag && ENABLE_PARALLEL) eqn:Hflags.
  - rewrite (map_slots_when_isolated_or_total None ENABLE_PARALLEL
               MAX_WORKERS func batches order); [| done | by apply Horder |].
    + by rewrite flatten_bind, Hkept.
    + destruct Hcase as [[_ Hpar]|Htotal]; [left | by right].
      split; [|done]. by apply andb_true_iff in Hflags as [_ ->].
  - destruct Hcase as [[? _]|Htotal]; [done|].
    rewrite (comprehension_total None).
    + by rewrite flatten_bind, Hkept.
    + apply Forall_forall. auto.
Qed.

Lemma process_in_batches_results_witness :
  let func := fun batch : list Z =>
    if decide (3 ∈ batch) then @Raised _ string "boom"
    else Returned (Some ((fun x => 10 * x) <$> batch)) in
  0 < int_or_default (Some 2) 10
  /\ 1 <= 4
  /\ (forall batches,
        parallel.batch_items [1; 2; 3; 4; 5] (int_or_default (Some 2) 10)
        = Some batches ->
        [2; 0; 1]%nat ≡ₚ seq 0 (length batches))
  /\ ((true && true = true /\ 1 < 4)
      \/ (forall batch, exists r, func batch = Returned r))
  /\ parallel.process_in_batches true 4 10 func [1; 2; 3; 4; 5] (Some 2) true
       [2; 0; 1]%nat
     = Returned [10; 20; 50].
Proof.
  intros func.
  assert (H1 : 0 < int_or_default (Some 2) 10) by (simpl; lia).
  assert (H2 : 1 <= 4) by lia.
  assert (H3 : forall batches,
            parallel.batch_items [1; 2; 3; 4; 5] (int_or_default (Some 2) 10)
            = Some batches ->
            [2; 0; 1]%nat ≡ₚ seq 0 (length batches)).
  { intros batches [= <-]. simpl.
    transitivity [0; 2; 1]%nat; [apply perm_swap|].
    apply perm_skip, perm_swap. }
  assert (H4 : (true && true = true /\ 1 < 4)
               \/ (forall batch, exists r, func batch = Returned r))
    by (left; split; [reflexivity | lia]).
  destruct (process_in_batches_results true 4 10 func [1; 2; 3; 4; 5]
              (Some 2) true [2; 0; 1]%nat H1 H2 H3 H4)
    as (batches & Hbatches & Hrun).
  injection Hbatches as <-.
  exact (conj H1 (conj H2 (conj H3 (conj H4 Hrun)))).
Defined.

Section ExtractorProperties.
Import BeliefExtractor.
Context {U B : Type}.
Variable extract_one : U -> outcome (list (option B)) retry.exn.

(** The beliefs of an utterance that are kept, the message recorded
    for an utterance that fails, and the malformed entries of an
    utterance that does not. *)
Local Abbreviation kept := (fun u =>
  match extract_one u with
  | Returned entries => omap id entries
  | Raised _ => []
  end).
Local Abbreviation recorded := (fun u =>
  match extract_one u with
  | Returned _ => []
  | Raised e => [retry.exn_msg e]
  end).
Local Abbreviation malformed := (fun u =>
  match extract_one u with
  | Returned entries => filter is_malformed entries
  | Raised _ => []
  end).

(** The scorer after [errors] API errors and [n] malformed beliefs, in
    any order. *)
Local Abbreviation scored := (fun (errors : list string) (n : nat) m =>
  Nat.iter n quality_scorer.add_malformed_belief
    (foldl (fun m msg => quality_scorer.add_api_error msg m) m errors)).

Lemma add_api_errors_fields (msgs : list string) :
  forall m : quality_scorer.QualityMetrics,
    let m' := foldl (fun m msg => quality_scorer.add_api_error msg m) m msgs in
    quality_scorer.errors_count m'
    = quality_scorer.errors_count m + Z.of_nat (length msgs)
    /\ quality_scorer.api_errors m' = quality_scorer.api_errors m ++ msgs
    /\ quality_scorer.parsing_errors m' = quality_scorer.parsing_errors m
    /\ quality_scorer.retries_count m' = quality_scorer.retries_count m
    /\ quality_scorer.malformed_beliefs_count m'
       = quality_scorer.malformed_beliefs_count m
    /\ quality_scorer.registry_mismatches_count m'
       = quality_scorer.registry_mismatches_count m
    /\ quality_scorer.warnings m' = quality_scorer.warnings m.
Proof.
  induction msgs as [|msg msgs IH]; intros m; simpl.
  - rewrite app_nil_r. repeat split; lia.
  - destruct (IH (quality_scorer.add_api_error msg m))
      as (He & Ha & Hp & Hr & Hm & Hx & Hw).
    simpl in *. rewrite He, Ha, Hp, Hr, Hm, Hx, Hw, <- app_assoc.
    repeat split; lia.
Qed.

Lemma add_malformed_beliefs_fields (n : nat) (m : quality_scorer.QualityMetrics) :
  let m' := Nat.iter n quality_scorer.add_malformed_belief m in
  quality_scorer.errors_count m' = quality_scorer.errors_count m
  /\ quality_scorer.api_errors m' = quality_scorer.api_errors m
  /\ quality_scorer.parsing_errors m' = quality_scorer.parsing_errors m
  /\ quality_scorer.retries_count m' = quality_scorer.retries_count m
  /\ quality_scorer.malformed_beliefs_count m'
     = quality_scorer.malformed_beliefs_count m + Z.of_nat n
  /\ quality_scorer.registry_mismatches_count m'
     = quality_scorer.registry_mismatches_count m
  /\ quality_scorer.warnings m' = quality_scorer.warnings m.
Proof.
  induction n as [|n IH]; intros m'.
  - subst m'. simpl. repeat split; lia.
  - subst m'. rewrite Nat.iter_succ.
    destruct IH as (He & Ha & Hp & Hr & Hm & Hx & Hw).
    cbn [quality_scorer.add_malformed_belief quality_scorer.errors_count
         quality_scorer.api_errors quality_scorer.parsing_errors
         quality_scorer.retries_count quality_scorer.malformed_beliefs_count
         quality_scorer.registry_mismatches_count quality_scorer.warnings].
    rewrite He, Ha, Hp, Hr, Hm, Hx, Hw. repeat split; lia.
Qed.

(** The two kinds of update act on different fields, so they commute. *)
Lemma add_malformed_api_error (msg : string) (n : nat)
    (m : quality_scorer.QualityMetrics) :
  quality_scorer.add_api_error msg
    (Nat.iter n quality_scorer.add_malformed_belief m)
  = Nat.iter n quality_scorer.add_malformed_belief
      (quality_scorer.add_api_error msg m).
Proof.
  induction n as [|n IH]; [done|].
  rewrite !Nat.iter_succ, <- IH. reflexivity.
Qed.

Lemma add_malformed_api_errors (msgs : list string) (n : nat) :
  forall m : quality_scorer.QualityMetrics,
    foldl (fun m msg => quality_scorer.add_api_error msg m)
      (Nat.iter n quality_scorer.add_malformed_belief m) msgs
    = Nat.iter n quality_scorer.add_malformed_belief
        (foldl (fun m msg => quality_scorer.add_api_error msg m) m msgs).
Proof.
  induction msgs as [|msg msgs IH]; intros m; cbn [foldl]; [done|].
  by rewrite add_malformed_api_error, IH.
Qed.

(** The loop of [_extract_from_utterance] over the entries. *)
Lemma build_beliefs_fold (entries : list (option B)) :
  forall beliefs (scorer : option quality_scorer.QualityMetrics),
    foldl (fun '(beliefs, scorer) belief_data =>
             match belief_data with
             | Some belief => (beliefs ++ [belief], scorer)
             | None =>
                 (beliefs, quality_scorer.add_malformed_belief <$> scorer)
             end) (beliefs, scorer) entries
    = (beliefs ++ omap id entries,
       Nat.iter (length (filter is_malformed entries))
         quality_scorer.add_malformed_belief <$> scorer).
Proof.
  induction entries as [|[belief|] entries IH]; intros beliefs scorer;
    cbn [foldl].
  - rewrite app_nil_r. by destruct scorer.
  - rewrite IH. cbn [omap list_omap id]. by rewrite <- app_assoc.
  - rewrite IH. cbn [omap list_omap id].
    change (filter is_malformed (None :: entries))
      with (None :: filter is_malformed entries).
    cbn [length]. destruct scorer as [m|]; [|done]. cbn [fmap option_fmap option_map].
    do 2 f_equal. by rewrite Nat.iter_succ_r.
Qed.

Lemma _extract_batch_fold (utterances : list U) :
  forall beliefs (scorer : option quality_scorer.QualityMetrics),
    foldl (fun '(beliefs, scorer) utterance =>
             match _extract_from_utterance extract_one scorer utterance with
             | (Returned utt_beliefs, scorer) =>
                 (beliefs ++ utt_beliefs, scorer)
             | (Raised e, scorer) =>
                 (beliefs,
                  quality_scorer.add_api_error (retry.exn_msg e) <$> scorer)
             end) (beliefs, scorer) utterances
    = (beliefs ++ (utterances ≫= kept),
       scored (utterances ≫= recorded) (length (utterances ≫= malformed))
         <$> scorer).
Proof.
  induction utterances as [|u us IH]; intros beliefs scorer.
  - simpl. rewrite app_nil_r. by destruct scorer.
  - cbn [foldl]. rewrite !bind_cons. unfold _extract_from_utterance.
    destruct (extract_one u) as [entries|e].
    + rewrite build_beliefs_fold. cbn [app]. rewrite IH.
      rewrite app_assoc, length_app. f_equal.
      destruct scorer as [m|]; [|done]. cbn [fmap option_fmap option_map].
      f_equal. rewrite add_malformed_api_errors, <- Nat.iter_add.
      f_equal. rewrite ?length_app. lia.
    + rewrite IH. cbn [app length]. by destruct scorer.
Qed.

(** X8. [_extract_batch] returns the beliefs of the utterances on which
    the extraction succeeds, in the order of the utterances, whatever
    happens on the others. With a scorer, each failing utterance adds 1 to
    [errors_count] and its message to [api_errors], in order, each
    malformed entry of the other utterances adds 1 to
    [malformed_beliefs_count], and nothing else of the metrics changes:
    no retry is counted. Without a scorer there is still none. *)
Theorem _extract_batch_isolates_failures
    (scorer : option quality_scorer.QualityMetrics) (utterances : list U) :
  (_extract_batch extract_one scorer utterances).1 = utterances ≫= kept
  /\ match scorer, (_extract_batch extract_one scorer utterances).2 with
     | Some m, Some m' =>
         quality_scorer.errors_count m'
         = quality_scorer.errors_count m
           + Z.of_nat (length (utterances ≫= recorded))
         /\ quality_scorer.api_errors m'
            = quality_scorer.api_errors m ++ (utterances ≫= recorded)
         /\ quality_scorer.parsing_errors m' = quality_scorer.parsing_errors m
         /\ quality_scorer.retries_count m' = quality_scorer.retries_count m
         /\ quality_scorer.malformed_beliefs_count m'
            = quality_scorer.malformed_beliefs_count m
              + Z.of_nat (length (utterances ≫= malformed))
         /\ quality_scorer.registry_mismatches_count m'
            = quality_scorer.registry_mismatches_count m
         /\ quality_scorer.warnings m' = quality_scorer.warnings m
     | None, None => True
     | _, _ => False
     end.
Proof.
  unfold _extract_batch. destruct scorer as [m|];
    rewrite !_extract_batch_fold; cbn [fst snd app fmap option_fmap option_map];
    (split; [reflexivity|]); [|exact I].
  destruct (add_api_errors_fields (utterances ≫= recorded) m)
    as (He & Ha & Hp & Hr & Hm & Hx & Hw).
  destruct (add_malformed_beliefs_fields (length (utterances ≫= malformed))
              (foldl (fun m msg => quality_scorer.add_api_error msg m) m
                 (utterances ≫= recorded)))
    as (He' & Ha' & Hp' & Hr' & Hm' & Hx' & Hw').
  cbn zeta in *.
  rewrite He', Ha', Hp', Hr', Hm', Hx', Hw', He, Ha, Hp, Hr, Hm, Hx, Hw.
  done.
Qed.

(** X9. For a batch size of at least 1 and at least one worker,
    [extract] returns the beliefs of the utterances on which the
    extraction succeeds, in the order of the utterances: the batch size,
    the parallel flag, the number of workers and the completion order of
    the batches do not change the result. *)
Theorem extract_independent_of_batching (ENABLE_PARALLEL : bool)
    (MAX_WORKERS BATCH_SIZE : Z) (utterances : list U) (order : list nat) :
  0 < BATCH_SIZE ->
  1 <= MAX_WORKERS ->
  (forall batches,
     parallel.batch_items utterances BATCH_SIZE = Some batches ->
     order ≡ₚ seq 0 (length batches)) ->
  extract extract_one ENABLE_PARALLEL MAX_WORKERS BATCH_SIZE utterances order
  = Returned (utterances ≫= kept).
Proof.
  intros Hbs Hw Horder.
  destruct (batch_items_cover utterances BATCH_SIZE)
    as (batches & Hbatches & Hconcat & _); [done|].
  unfold extract. rewrite Hbatches.
  assert (Hflat : batches ≫= (fun batch =>
                      (_extract_batch extract_one None batch).1)
                  = utterances ≫= kept).
  { rewrite <- Hconcat. rewrite bind_concat. apply bind_ext_list.
    intros batch. unfold _extract_batch. by rewrite _extract_batch_fold. }
  destruct ENABLE_PARALLEL.
  - rewrite (map_slots_when_isolated_or_total None true MAX_WORKERS);
      [| done | by apply Horder | right; by eexists].
    rewrite flatten_bind, bind_fmap_list. by rewrite <- Hflat.
  - rewrite flatten_bind, bind_fmap_list. by rewrite <- Hflat.
Qed.

End ExtractorProperties.

Lemma extract_independent_of_batching_witness :
  let extract_one := fun u : Z =>
    if decide (u = 2) then Raised (retry.mk_exn "AuthenticationError" "no key")
    else Returned [Some u; None; Some u] in
  0 < 2
  /\ 1 <= 4
  /\ (forall batches,
        parallel.batch_items [1; 2; 3] 2 = Some batches ->
        [1; 0]%nat ≡ₚ seq 0 (length batches))
  /\ BeliefExtractor.extract extract_one true 4 2 [1; 2; 3] [1; 0]%nat
     = Returned [1; 1; 3; 3].
Proof.
  intros extract_one.
  assert (H1 : 0 < 2) by lia.
  assert (H2 : 1 <= 4) by lia.
  assert (H3 : forall batches,
            parallel.batch_items [1; 2; 3] 2 = Some batches ->
            [1; 0]%nat ≡ₚ seq 0 (length batches)).
  { intros batches [= <-]. apply perm_swap. }
  exact (conj H1 (conj H2 (conj H3
    (extract_independent_of_batching extract_one true 4 2 [1; 2; 3]
       [1; 0]%nat H1 H2 H3)))).
Defined.

(** ** retry_with_backoff: bounds and early exits *)

(** A length that [time.sleep] accepts is not negative. *)
Lemma time_sleep_Returned (w : Q) :
  retry.time_sleep w = Returned tt -> (0 <= w)%Q.
Proof.
  unfold retry.time_sleep.
  destruct (Qlt_le_dec _ (- _)); [discriminate|].
  destruct (Qlt_le_dec _ (inject_Z _)); [|discriminate].
  by destruct (Qlt_le_dec w 0).
Qed.

Section RetryBounds.
Import retry.
Context {V S : Type}.
Variables (func_name : string) (func : nat -> outcome V exn).
Variables (max_retries : Z) (backoff_factor : number) (max_wait : Q).
Variables (exceptions : exn -> bool).
Variable on_retry : option (Z -> exn -> S -> S).

Local Abbreviation bloop :=
  (backoff_loop func_name func max_retries backoff_factor max_wait
     exceptions on_retry).

Lemma filter_after_length (P : event -> bool) (evs : list event)
    (r : run V S) :
  length (filter P (trace (after evs r)))
  = (length (filter P evs) + length (filter P (trace r)))%nat.
Proof. unfold after. simpl. by rewrite filter_app, length_app. Qed.

(** From any state of the loop: the invocations left, the sleeps left,
    and the length of every sleep. *)
Lemma backoff_loop_bounds (budget : nat) : forall (retries : Z) (n : nat) (s : S),
  (length (filter is_Call (trace (bloop budget retries n s)))
   <= Z.to_nat (max_retries + 1 - retries))%nat
  /\ (length (filter is_Sleep (trace (bloop budget retries n s)))
      <= Z.to_nat (max_retries - retries))%nat
  /\ (forall w, Sleep w ∈ trace (bloop budget retries n s) ->
        (0 <= w)%Q /\ (w <= max_wait)%Q).
Proof.
  induction budget as [|budget IH]; intros retries n s; cbn [backoff_loop].
  { simpl. split; [|split]; [lia | lia |]. by intros w ?%elem_of_nil. }
  assert (Hstop : forall (o : outcome V exn) (r : Z) (s' : S) (evs : list event),
            retries <= max_retries ->
            evs = [Call n] \/ (exists r' e, evs = [Call n; OnRetry r' e]) ->
            (length (filter is_Call (trace (mk_run o evs r s')))
             <= Z.to_nat (max_retries + 1 - retries))%nat
            /\ (length (filter is_Sleep (trace (mk_run o evs r s')))
                <= Z.to_nat (max_retries - retries))%nat
            /\ (forall w, Sleep w ∈ trace (mk_run o evs r s') ->
                  (0 <= w)%Q /\ (w <= max_wait)%Q)).
  { intros o r s' evs Hle Hevs. cbn [trace].
    assert (Hc : length (filter is_Call evs) = 1%nat)
      by (destruct Hevs as [->|(r' & e & ->)]; reflexivity).
    assert (Hs : length (filter is_Sleep evs) = 0%nat)
      by (destruct Hevs as [->|(r' & e & ->)]; reflexivity).
    rewrite Hc, Hs. split; [lia|]. split; [lia|]. intros w Hin.
    destruct Hevs as [->|(r' & e & ->)];
      repeat (apply elem_of_cons in Hin as [Hin|Hin]; [discriminate Hin|]);
      by apply elem_of_nil in Hin. }
  case_decide as Hle.
  2: { simpl. split; [|split]; [lia | lia |]. by intros w ?%elem_of_nil. }
  destruct (func n) as [v|e]; [by apply Hstop; auto|].
  destruct (exceptions e); [|by apply Hstop; auto].
  case_decide as Hexhausted; [by apply Hstop; auto|].
  destruct (py_pow backoff_factor (retries + 1)) as [power|err];
    [|by apply Hstop; auto].
  set (wait_time := Qmin power max_wait).
  destruct (format_1f wait_time) as [_|err]; [|by apply Hstop; auto].
  assert (Hround : forall (called : list event) (s' : S),
            called = [] \/ called = [OnRetry (retries + 1) e] ->
            let r :=
              match time_sleep wait_time with
              | Raised err =>
                  mk_run (Raised err) ([Call n] ++ called) (retries + 1) s'
              | Returned _ =>
                  after ([Call n] ++ called ++ [Sleep wait_time])
                    (bloop budget (retries + 1) (Datatypes.S n) s')
              end in
            (length (filter is_Call (trace r))
             <= Z.to_nat (max_retries + 1 - retries))%nat
            /\ (length (filter is_Sleep (trace r))
                <= Z.to_nat (max_retries - retries))%nat
            /\ (forall w, Sleep w ∈ trace r ->
                  (0 <= w)%Q /\ (w <= max_wait)%Q)).
  { intros called s' Hcalled r. subst r.
    destruct (time_sleep wait_time) as [[]|err] eqn:Hsleep.
    2: { apply Hstop; [done|]. destruct Hcalled as [-> | ->]; [by left|].
         right. by eexists _, _. }
    apply time_sleep_Returned in Hsleep as Hok.
    destruct (IH (retries + 1) (Datatypes.S n) s')
      as (Hcalls & Hsleeps & Hwaits).
    rewrite !filter_after_length.
    assert (Hc : length (filter is_Call ([Call n] ++ called ++ [Sleep wait_time]))
                 = 1%nat)
      by (destruct Hcalled as [-> | ->]; reflexivity).
    assert (Hs : length (filter is_Sleep ([Call n] ++ called ++ [Sleep wait_time]))
                 = 1%nat)
      by (destruct Hcalled as [-> | ->]; reflexivity).
    rewrite Hc, Hs. split; [lia|]. split; [lia|].
    intros w. cbn [after trace]. rewrite elem_of_app.
    intros [Hin|Hin]; [|by apply Hwaits].
    assert (w = wait_time) as ->.
    { destruct Hcalled as [-> | ->]; simpl in Hin;
        repeat (apply elem_of_cons in Hin as [Hin|Hin];
                [by (discriminate Hin || injection Hin)|]);
        by apply elem_of_nil in Hin. }
    split; [done | apply Q.le_min_r]. }
  destruct on_retry as [callback|].
  - apply (Hround [OnRetry (retries + 1) e]). by right.
  - apply (Hround []). by left.
Qed.

End RetryBounds.

(** X10. Whatever the wrapped function does and whatever the settings,
    one call of the [retry_with_backoff] wrapper invokes the function at
    most [max_retries + 1] times, sleeps at most [max_retries] times, and
    no sleep is negative or longer than [max_wait]. *)
Theorem retry_with_backoff_bounded {V S : Type}
    (func_name : string) (func : nat -> outcome V retry.exn)
    (max_retries : Z) (backoff_factor : retry.number) (max_wait : Q)
    (exceptions : retry.exn -> bool)
    (on_retry : option (Z -> retry.exn -> S -> S)) (s : S) :
  let r :=
    retry.retry_with_backoff func_name func max_retries backoff_factor
      max_wait exceptions on_retry s in
  (length (filter retry.is_Call (retry.trace r))
   <= Z.to_nat (max_retries + 1))%nat
  /\ (length (filter retry.is_Sleep (retry.trace r))
      <= Z.to_nat max_retries)%nat
  /\ (forall w, retry.Sleep w ∈ retry.trace r ->
        (0 <= w)%Q /\ (w <= max_wait)%Q).
Proof.
  intros r. subst r. unfold retry.retry_with_backoff.
  destruct (backoff_loop_bounds func_name func max_retries backoff_factor
              max_wait exceptions on_retry (Z.to_nat (max_retries + 1)) 0
              0%nat s) as (Hcalls & Hsleeps & Hwaits).
  rewrite Z.sub_0_r in Hcalls, Hsleeps. done.
Qed.

(** X11. With a negative [max_retries] neither wrapper ever invokes the
    wrapped function: the loop is not entered and the [RuntimeError]
    placed after it is raised. *)
Theorem negative_max_retries_never_calls {V S : Type}
    (func_name : string) (func : nat -> outcome V retry.exn)
    (max_retries : Z) (backoff_factor : retry.number) (max_wait : Q)
    (exceptions : retry.exn -> bool)
    (on_retry : option (Z -> retry.exn -> S -> S)) (s : S) :
  max_retries < 0 ->
  retry.retry_with_backoff func_name func max_retries backoff_factor
    max_wait exceptions on_retry s
  = retry.mk_run (Raised (retry.RuntimeError func_name)) [] 0 s
  /\ retry.retry_openai_call func_name func max_retries
     = retry.mk_run (Raised (retry.RuntimeError func_name)) [] 0 tt.
Proof.
  intros Hneg.
  unfold retry.retry_with_backoff, retry.retry_openai_call.
  destruct (Z.to_nat (max_retries + 1)) as [|budget] eqn:Hbudget; [done|].
  cbn [retry.backoff_loop retry.openai_loop].
  by rewrite !decide_False by lia.
Qed.

Lemma negative_max_retries_never_calls_witness :
  -1 < 0
  /\ retry.retry_with_backoff (V := Z) "call_api" (fun _ => Returned 7)
       (-1) (retry.PyInt 2) 60 (fun _ => true)
       (Some retry.RetryCounter.increment) 0
     = retry.mk_run (Raised (retry.RuntimeError "call_api")) [] 0 0
  /\ retry.retry_openai_call (V := Z) "call_api" (fun _ => Returned 7) (-1)
     = retry.mk_run (Raised (retry.RuntimeError "call_api")) [] 0 tt.
Proof.
  assert (H : -1 < 0) by lia.
  exact (conj H (negative_max_retries_never_calls "call_api"
                   (fun _ => Returned 7) (-1) (retry.PyInt 2) 60
                   (fun _ => true)
                   (Some retry.RetryCounter.increment) 0 H)).
Defined.

(** X12. Let [backoff_factor >= 0] be an [int] or a float whose power
    [backoff_factor ** k] is at most the largest float, and let
    [0 <= max_wait <= SLEEP_SAFE]. After [k <= max_retries] caught
    failures, an invocation that returns, or that raises an exception
    outside [exceptions], ends the run with exactly that outcome: the
    value is the one a first-attempt success would give, and the uncaught
    exception is raised at once, with no callback and no sleep for it.
    The trace is the [k] retried rounds and that invocation. *)
Theorem retry_with_backoff_early_exit {V S : Type}
    (func_name : string) (func : nat -> outcome V retry.exn)
    (max_retries : Z) (backoff_factor : retry.number) (max_wait : Q)
    (exceptions : retry.exn -> bool)
    (on_retry : option (Z -> retry.exn -> S -> S))
    (errs : nat -> retry.exn) (s : S) (k : nat) :
  (0 <= retry.value backoff_factor)%Q ->
  retry.power_in_range backoff_factor (Z.of_nat k) ->
  (0 <= max_wait)%Q ->
  (max_wait <= retry.SLEEP_SAFE)%Q ->
  Z.of_nat k <= max_retries ->
  (forall i, (i < k)%nat ->
     func i = Raised (errs i) /\ exceptions (errs i) = true) ->
  match func k with
  | Returned _ => True
  | Raised e => exceptions e = false
  end ->
  retry.retry_with_backoff func_name func max_retries backoff_factor
    max_wait exceptions on_retry s
  = retry.mk_run (func k)
      (retry.backoff_rounds backoff_factor max_wait on_retry errs 0 k
       ++ [retry.Call k])
      (Z.of_nat k) (retry.callbacks on_retry errs 0 k s).
Proof.
  intros Hbf Hpow Hmw Hsafe Hk Herrs Hexit.
  destruct (func k) as [v|e] eqn:Hfk.
  - apply (retry_with_backoff_success _ _ _ _ _ _ _ errs (Z.of_nat k));
      (done || lia).
  - unfold retry.retry_with_backoff.
    replace (Z.to_nat (max_retries + 1))
      with (k + Datatypes.S (Z.to_nat (max_retries - Z.of_nat k)))%nat by lia.
    rewrite (backoff_loop_retries _ _ _ _ _ _ _ errs (Z.of_nat k)
               Hbf Hmw Hsafe Hpow k _ 0%nat s)
      by (simpl; lia || (intros i Hi; apply Herrs; lia)).
    cbn [retry.backoff_loop Nat.add]. rewrite decide_True by lia.
    by rewrite Hfk, Hexit.
Qed.

Lemma retry_with_backoff_early_exit_witness :
  let caught := retry.mk_exn "ConnectionError" "reset" in
  let other := retry.mk_exn "KeyError" "belief_text" in
  let is_connection := fun e =>
    String.eqb (retry.exn_type e) "ConnectionError" in
  let func := fun i : nat =>
    if (i <? 1)%nat then Raised caught else @Raised Z _ other in
  (0 <= retry.value (retry.PyFloat 2))%Q
  /\ retry.power_in_range (retry.PyFloat 2) (Z.of_nat 1)
  /\ (0 <= 60)%Q
  /\ (60 <= retry.SLEEP_SAFE)%Q
  /\ Z.of_nat 1 <= 3
  /\ (forall i, (i < 1)%nat ->
        func i = Raised caught /\ is_connection caught = true)
  /\ is_connection other = false
  /\ retry.retry_with_backoff "call_api" func 3 (retry.PyFloat 2) 60
       is_connection (Some retry.RetryCounter.increment) 0
     = retry.mk_run (Raised other)
         [retry.Call 0; retry.OnRetry 1 caught; retry.Sleep 2; retry.Call 1]
         1 1.
Proof.
  intros caught other is_connection func.
  assert (H1 : (0 <= retry.value (retry.PyFloat 2))%Q)
    by (unfold Qle; simpl; lia).
  assert (H2 : retry.power_in_range (retry.PyFloat 2) (Z.of_nat 1))
    by (vm_compute; discriminate).
  assert (H3 : (0 <= 60)%Q) by (unfold Qle; simpl; lia).
  assert (H4 : (60 <= retry.SLEEP_SAFE)%Q) by (vm_compute; discriminate).
  assert (H5 : Z.of_nat 1 <= 3) by (simpl; lia).
  assert (H6 : forall i, (i < 1)%nat ->
                 func i = Raised caught /\ is_connection caught = true).
  { intros [|i] Hi; [split; reflexivity | lia]. }
  assert (H7 : is_connection other = false) by reflexivity.
  exact (conj H1 (conj H2 (conj H3 (conj H4 (conj H5 (conj H6 (conj H7
    (retry_with_backoff_early_exit "call_api" func 3 (retry.PyFloat 2) 60
       is_connection
       (Some retry.RetryCounter.increment) (fun _ => caught) 0 1%nat
       H1 H2 H3 H4 H5 H6 H7)))))))).
Defined.

(** ** retry_openai_call: outcomes and bounds *)

Section RetryOpenaiBounds.
Import retry.
Context {V : Type}.
Variables (func_name : string) (func : nat -> outcome V exn).
Variable max_retries : Z.

Local Abbreviation oloop' := (openai_loop func_name func max_retries).

Lemma filter_after_length_unit (P : event -> bool) (evs : list event)
    (r : run V unit) :
  length (filter P (trace (after evs r)))
  = (length (filter P evs) + length (filter P (trace r)))%nat.
Proof. unfold after. simpl. by rewrite filter_app, length_app. Qed.

Lemma openai_wait_time_le_max (error_msg : string) (retries : Z) :
  (openai_wait_time error_msg retries <= config.RETRY_MAX_WAIT)%Q.
Proof.
  unfold openai_wait_time.
  destruct (is_rate_limit error_msg), (is_timeout error_msg);
    apply Q.le_min_r.
Qed.

Lemma openai_loop_bounds (budget : nat) : forall (retries : Z) (n : nat),
  (length (filter is_Call (trace (oloop' budget retries n)))
   <= Z.to_nat (max_retries + 1 - retries))%nat
  /\ (length (filter is_Sleep (trace (oloop' budget retries n)))
      <= Z.to_nat (max_retries - retries))%nat
  /\ (forall w, Sleep w ∈ trace (oloop' budget retries n) ->
        (0 <= w)%Q /\ (w <= config.RETRY_MAX_WAIT)%Q).
Proof.
  induction budget as [|budget IH]; intros retries n; cbn [openai_loop].
  { simpl. split; [|split]; [lia | lia |]. by intros w ?%elem_of_nil. }
  assert (Hstop : forall (o : outcome V exn) (r : Z),
            retries <= max_retries ->
            (length (filter is_Call (trace (mk_run o [Call n] r tt)))
             <= Z.to_nat (max_retries + 1 - retries))%nat
            /\ (length (filter is_Sleep (trace (mk_run o [Call n] r tt)))
                <= Z.to_nat (max_retries - retries))%nat
            /\ (forall w, Sleep w ∈ trace (mk_run o [Call n] r tt) ->
                  (0 <= w)%Q /\ (w <= config.RETRY_MAX_WAIT)%Q)).
  { intros o r Hle. cbn [trace].
    change (filter is_Call [Call n]) with [Call n].
    change (filter is_Sleep [Call n]) with (@nil event).
    split; [simpl; lia|]. split; [simpl; lia|]. intros w Hin.
    apply elem_of_cons in Hin as [Hin|Hin]; [discriminate Hin|].
    by apply elem_of_nil in Hin. }
  case_decide as Hle.
  2: { simpl. split; [|split]; [lia | lia |]. by intros w ?%elem_of_nil. }
  destruct (func n) as [v|e]; [by apply Hstop|].
  destruct (negb _); [by apply Hstop|].
  case_decide as Hexhausted.
  { destruct (is_rate_limit (exn_msg e)); by apply Hstop. }
  set (wait_time := openai_wait_time (exn_msg e) (retries + 1)).
  destruct (Qlt_le_dec wait_time 0) as [Hneg|Hok]; [by apply Hstop|].
  destruct (IH (retries + 1) (Datatypes.S n)) as (Hcalls & Hsleeps & Hwaits).
  rewrite !filter_after_length_unit.
  assert (Hc : length (filter is_Call [Call n; Sleep wait_time]) = 1%nat)
    by reflexivity.
  assert (Hs : length (filter is_Sleep [Call n; Sleep wait_time]) = 1%nat)
    by reflexivity.
  rewrite Hc, Hs. split; [lia|]. split; [lia|].
  intros w. cbn [after trace]. rewrite elem_of_app.
  intros [Hin|Hin]; [|by apply Hwaits].
  apply elem_of_cons in Hin as [Hin|Hin]; [discriminate Hin|].
  apply list_elem_of_singleton in Hin. injection Hin as ->.
  split; [done | apply openai_wait_time_le_max].
Qed.

End RetryOpenaiBounds.

(** X13. [retry_openai_call]: when the first [k <= max_retries]
    invocations raise errors with a marker and invocation [k] returns, the
    wrapper returns that value, after [k] sleeps and [k + 1]
    invocations. *)
Theorem retry_openai_call_success_after_retries {V : Type}
    (func_name : string) (func : nat -> outcome V retry.exn)
    (max_retries : Z) (errs : nat -> retry.exn) (k : nat) (v : V) :
  Z.of_nat k <= max_retries ->
  (forall i, (i < k)%nat ->
     func i = Raised (errs i)
     /\ retry.retryable (retry.exn_msg (errs i)) = true) ->
  func k = Returned v ->
  retry.retry_openai_call func_name func max_retries
  = retry.mk_run (Returned v)
      (retry.openai_rounds errs 0 k ++ [retry.Call k]) (Z.of_nat k) tt.
Proof.
  intros Hk Herrs Hret. unfold retry.retry_openai_call.
  replace (Z.to_nat (max_retries + 1))
    with (k + Datatypes.S (Z.to_nat (max_retries - Z.of_nat k)))%nat by lia.
  rewrite (openai_loop_retries _ _ _ errs k _ 0%nat)
    by (simpl; lia || (intros i Hi; apply Herrs; lia)).
  cbn [retry.openai_loop Nat.add]. rewrite decide_True by lia.
  by rewrite Hret.
Qed.

Lemma retry_openai_call_success_after_retries_witness :
  let transient := retry.mk_exn "APITimeoutError" "Request timed out." in
  let func := fun i : nat =>
    if (i <? 2)%nat then Raised transient else Returned 7 in
  Z.of_nat 2 <= 3
  /\ (forall i, (i < 2)%nat ->
        func i = Raised transient
        /\ retry.retryable (retry.exn_msg transient) = true)
  /\ func 2%nat = Returned 7
  /\ retry.retry_openai_call "extract" func 3
     = retry.mk_run (Returned 7)
         [retry.Call 0; retry.Sleep 2; retry.Call 1; retry.Sleep 4;
          retry.Call 2] 2 tt.
Proof.
  intros transient func.
  assert (H1 : Z.of_nat 2 <= 3) by (simpl; lia).
  assert (H2 : forall i, (i < 2)%nat ->
                 func i = Raised transient
                 /\ retry.retryable (retry.exn_msg transient) = true).
  { intros [|[|i]] Hi; [split; reflexivity | split; reflexivity | lia]. }
  assert (H3 : func 2%nat = Returned 7) by reflexivity.
  exact (conj H1 (conj H2 (conj H3
    (retry_openai_call_success_after_retries "extract" func 3
       (fun _ => transient) 2%nat 7 H1 H2 H3)))).
Defined.

(** X14. [retry_openai_call]: when the first [max_retries + 1]
    invocations all raise errors with a marker, the wrapper makes no
    further attempt; if the last error is a rate-limit error it raises a
    new [RateLimitError("Rate limit exceeded after N retries")] in its
    place, otherwise it raises the last error itself. *)
Theorem retry_openai_call_exhausted {V : Type}
    (func_name : string) (func : nat -> outcome V retry.exn)
    (max_retries : Z) (errs : nat -> retry.exn) :
  0 <= max_retries ->
  let k := Z.to_nat max_retries in
  (forall i, (i <= k)%nat ->
     func i = Raised (errs i)
     /\ retry.retryable (retry.exn_msg (errs i)) = true) ->
  retry.retry_openai_call func_name func max_retries
  = retry.mk_run
      (Raised (if retry.is_rate_limit (retry.exn_msg (errs k))
               then retry.RateLimitError max_retries
               else errs k))
      (retry.openai_rounds errs 0 k ++ [retry.Call k]) (max_retries + 1) tt.
Proof.
  intros Hmr k Herrs. unfold retry.retry_openai_call.
  assert (Hk : Z.of_nat k = max_retries) by (subst k; lia).
  replace (Z.to_nat (max_retries + 1)) with (k + 1)%nat by lia.
  rewrite (openai_loop_retries _ _ _ errs k _ 0%nat)
    by (simpl; lia || (intros i Hi; apply Herrs; lia)).
  cbn [retry.openai_loop Nat.add]. rewrite decide_True by lia.
  destruct (Herrs k) as [Hraise Hretry]; [lia|].
  rewrite Hraise. fold (retry.retryable (retry.exn_msg (errs k))).
  rewrite Hretry. cbn [negb]. rewrite decide_True by lia.
  rewrite Hk. by destruct (retry.is_rate_limit _).
Qed.

Lemma retry_openai_call_exhausted_witness :
  let limited := retry.mk_exn "APIError" "Error code: 429" in
  0 <= 1
  /\ (forall i, (i <= Z.to_nat 1)%nat ->
        @Raised Z _ limited = Raised limited
        /\ retry.retryable (retry.exn_msg limited) = true)
  /\ retry.retry_openai_call (V := Z) "extract" (fun _ => Raised limited) 1
     = retry.mk_run
         (Raised (retry.mk_exn "RateLimitError"
                    "Rate limit exceeded after 1 retries"))
         [retry.Call 0; retry.Sleep 4; retry.Call 1] 2 tt.
Proof.
  intros limited.
  assert (H1 : 0 <= 1) by lia.
  assert (H2 : forall i, (i <= Z.to_nat 1)%nat ->
                 @Raised Z _ limited = Raised limited
                 /\ retry.retryable (retry.exn_msg limited) = true)
    by (intros i _; split; reflexivity).
  exact (conj H1 (conj H2
    (retry_openai_call_exhausted "extract" (fun _ => Raised limited) 1
       (fun _ => limited) H1 H2))).
Defined.

(** X15. Whatever the wrapped function does, one call of the
    [retry_openai_call] wrapper invokes it at most [max_retries + 1]
    times and sleeps at most [max_retries] times, each time between 0 and
    60 seconds. The wait after a rate-limit error is the double of the
    wait after any other retried error at the same attempt, capped at 60:
    [min(2 * other, 60)]. *)
Theorem retry_openai_call_bounded {V : Type}
    (func_name : string) (func : nat -> outcome V retry.exn)
    (max_retries : Z) :
  let r := retry.retry_openai_call func_name func max_retries in
  (length (filter retry.is_Call (retry.trace r))
   <= Z.to_nat (max_retries + 1))%nat
  /\ (length (filter retry.is_Sleep (retry.trace r))
      <= Z.to_nat max_retries)%nat
  /\ (forall w, retry.Sleep w ∈ retry.trace r -> (0 <= w)%Q /\ (w <= 60)%Q)
  /\ (forall (limited other : string) (retries : Z),
        retry.is_rate_limit limited = true ->
        retry.is_rate_limit other = false ->
        (retry.openai_wait_time limited retries
         == Qmin (2 * retry.openai_wait_time other retries) 60)%Q).
Proof.
  intros r. subst r. unfold retry.retry_openai_call.
  destruct (openai_loop_bounds func_name func max_retries
              (Z.to_nat (max_retries + 1)) 0 0%nat)
    as (Hcalls & Hsleeps & Hwaits).
  rewrite Z.sub_0_r in Hcalls, Hsleeps.
  split; [done|]. split; [done|]. split; [exact Hwaits|].
  intros limited other retries Hlimited Hother.
  unfold retry.openai_wait_time. rewrite Hlimited, Hother.
  assert (Hsame : (if retry.is_timeout other
                   then Qmin (config.RETRY_BACKOFF_FACTOR ^ retries)
                          config.RETRY_MAX_WAIT
                   else Qmin (config.RETRY_BACKOFF_FACTOR ^ retries)
                          config.RETRY_MAX_WAIT)
                  = Qmin (config.RETRY_BACKOFF_FACTOR ^ retries)
                      config.RETRY_MAX_WAIT)
    by (by destruct (retry.is_timeout other)).
  rewrite Hsame. unfold config.RETRY_MAX_WAIT.
  set (p := (config.RETRY_BACKOFF_FACTOR ^ retries)%Q). clearbody p.
  destruct (Qlt_le_dec 30 p) as [Hbig|Hsmall].
  - rewrite (Q.min_r (p * 2) 60) by lra.
    destruct (Qlt_le_dec 60 p) as [Hhuge|Hmid].
    + rewrite (Q.min_r p 60) by lra. rewrite Q.min_r by lra. reflexivity.
    + rewrite (Q.min_l p 60) by lra. rewrite Q.min_r by lra. reflexivity.
  - rewrite (Q.min_l (p * 2) 60) by lra.
    rewrite (Q.min_l p 60) by lra. rewrite Q.min_l by lra. lra.
Qed.

Lemma retry_openai_call_bounded_witness :
  retry.is_rate_limit "Error code: 429" = true
  /\ retry.is_rate_limit "Request timed out" = false
  /\ (retry.openai_wait_time "Error code: 429" 2
      == Qmin (2 * retry.openai_wait_time "Request timed out" 2) 60)%Q.
Proof.
  assert (H1 : retry.is_rate_limit "Error code: 429" = true) by reflexivity.
  assert (H2 : retry.is_rate_limit "Request timed out" = false)
    by reflexivity.
  exact (conj H1 (conj H2
           (proj2 (proj2 (proj2
              (retry_openai_call_bounded (V := unit) "extract_beliefs"
                 (fun _ => Returned tt) 3)))
              "Error code: 429"%string "Request timed out"%string 2 H1 H2))).
Defined.

(** ** Classification of error messages *)

Lemma prefix_iff (needle hay : string) :
  String.prefix needle hay = true <->
  exists post, hay = (needle ++ post)%string.
Proof.
  revert hay. induction needle as [|a needle IH]; intros hay; simpl.
  - destruct hay; split; eauto.
  - destruct hay as [|b hay]; simpl.
    + split; [discriminate | by intros [post ?]].
    + destruct (ascii_dec a b) as [->|Hne].
      * rewrite IH. split; intros [post Hpost]; exists post.
        -- by rewrite Hpost.
        -- simpl in Hpost. by injection Hpost.
      * split; [discriminate|]. intros [post Hpost]. simpl in Hpost.
        injection Hpost as Hab _. congruence.
Qed.

(** [contains] is the substring test. *)
Lemma contains_iff (needle hay : string) :
  contains needle hay = true <->
  exists pre post, hay = (pre ++ needle ++ post)%string.
Proof.
  induction hay as [|c hay IH].
  - cbn [contains]. destruct (String.prefix needle "") eqn:Hp.
    + apply prefix_iff in Hp as [post Hpost]. split; [|done].
      intros _. by exists ""%string, post.
    + split; [discriminate|]. intros (pre & post & Heq).
      destruct pre; [|discriminate Heq]. simpl in Heq.
      assert (String.prefix needle "" = true) by (apply prefix_iff; eauto).
      congruence.
  - cbn [contains]. destruct (String.prefix needle (String c hay)) eqn:Hp.
    + apply prefix_iff in Hp as [post Hpost]. split; [|done].
      intros _. by exists ""%string, post.
    + rewrite IH. split.
      * intros (pre & post & ->). by exists (String c pre), post.
      * intros (pre & post & Heq). destruct pre as [|c' pre]; simpl in Heq.
        -- assert (String.prefix needle (String c hay) = true)
             by (apply prefix_iff; eauto).
           congruence.
        -- injection Heq as _ ->. by exists pre, post.
Qed.

(** X16. [retry_openai_call] retries an error exactly when its message
    has one of "429", "500", "502", "503", "504" somewhere in it, or when
    its lowered message has one of "rate_limit", "timeout", "timed out"
    somewhere in it, whatever comes before and after the marker. *)
Theorem retryable_iff_marker_substring (error_msg : string) :
  retry.retryable error_msg = true <->
  (exists code pre post,
     code ∈ ["429"; "500"; "502"; "503"; "504"]%string
     /\ error_msg = (pre ++ code ++ post)%string)
  \/ (exists word pre post,
        word ∈ ["rate_limit"; "timeout"; "timed out"]%string
        /\ lower error_msg = (pre ++ word ++ post)%string).
Proof.
  unfold retry.retryable, retry.is_rate_limit, retry.is_timeout,
    retry.is_server_error. cbn [existsb].
  rewrite !orb_true_iff, !contains_iff. split.
  - intros [[[H|H]|[H|H]]|[H|[H|[H|[H|H]]]]];
      try discriminate H; destruct H as (pre & post & H);
      [left | right | right | right | left | left | left | left];
      eexists _, pre, post; (split; [|exact H]); rewrite !elem_of_cons; tauto.
  - intros [(code & pre & post & Hin & ->)|(word & pre & post & Hin & Heq)].
    + repeat (apply elem_of_cons in Hin as [->|Hin]; [eauto 10|]).
      by apply elem_of_nil in Hin.
    + repeat (apply elem_of_cons in Hin as [->|Hin]; [eauto 10|]).
      by apply elem_of_nil in Hin.
Qed.

(** ** CheckpointManager: file names *)

Lemma string_length_app (a b : string) :
  String.length (a ++ b) = (String.length a + String.length b)%nat.
Proof. induction a as [|c a IH]; simpl; [done|]. by rewrite IH. Qed.

Lemma string_app_inj_r (a b c : string) :
  (a ++ c = b ++ c)%string -> a = b.
Proof.
  revert b. induction a as [|x a IH]; intros [|y b] Heq.
  - done.
  - apply (f_equal String.length) in Heq.
    rewrite !string_length_app in Heq. cbn [String.length] in Heq. lia.
  - apply (f_equal String.length) in Heq.
    rewrite !string_length_app in Heq. cbn [String.length] in Heq. lia.
  - cbn [String.append] in Heq. injection Heq as -> Heq.
    f_equal. by apply IH.
Qed.

Lemma tmp_name_not_json (s q : string) :
  (s ++ ".tmp")%string <> (q ++ ".json")%string.
Proof.
  revert q. induction s as [|c s IH]; intros [|d q] Heq.
  - discriminate Heq.
  - apply (f_equal String.length) in Heq.
    rewrite !string_length_app in Heq. cbn [String.length] in Heq. lia.
  - destruct s as [|c' s]; [discriminate Heq|].
    apply (f_equal String.length) in Heq.
    rewrite !string_length_app in Heq. cbn [String.length] in Heq. lia.
  - cbn [String.append] in Heq. injection Heq as _ Heq. by apply (IH q).
Qed.

Lemma phase_file_is_json (phase : string) :
  checkpoint.is_json (phase ++ ".json") = true.
Proof.
  unfold checkpoint.is_json. rewrite string_length_app.
  cbn [String.length].
  rewrite (proj2 (Nat.leb_le 5 (String.length phase + 5))) by lia.
  cbn [andb].
  replace (String.length phase + 5 - 5)%nat with (String.length phase) by lia.
  apply String.eqb_eq.
  induction phase as [|c phase IH]; [done|].
  cbn [String.length String.append substring]. exact IH.
Qed.

Section CheckpointFiles.
Import checkpoint.
Context {Text : Type}.
Variable json_dump : json -> Text.
Variable json_load : Text -> option json.
Implicit Types (files : gmap string Text) (phases : list string).

(** [save] touches two names only: the phase file and its temporary
    file. *)
Lemma save_lookup_other (enabled : bool) (episode_id : string) files
    (phase : string) (data : list pyval) (stats : option (gmap string pyval))
    (timestamp name : string) :
  name <> (phase ++ ".json")%string ->
  name <> with_suffix (phase ++ ".json") ".tmp" ->
  (save json_dump enabled episode_id files phase data stats timestamp).1
    !! name = files !! name.
Proof.
  intros Hfinal Htemp. unfold save. destruct enabled; [|done]. cbn [negb fst].
  unfold rename. rewrite lookup_insert_eq.
  rewrite lookup_insert_ne by done. rewrite lookup_delete_ne by done.
  by rewrite lookup_insert_ne.
Qed.

Lemma save_lookup_phase (episode_id : string) files
    (phase : string) (data : list pyval) (stats : option (gmap string pyval))
    (timestamp : string) :
  is_Some ((save json_dump true episode_id files phase data stats
              timestamp).1 !! (phase ++ ".json")%string).
Proof.
  unfold save, rename. cbn [negb fst]. rewrite lookup_insert_eq.
  rewrite lookup_insert_eq. by eexists.
Qed.

Lemma load_depends_on_phase_file files files' (phase : string) :
  files' !! (phase ++ ".json")%string = files !! (phase ++ ".json")%string ->
  load json_load files' phase = load json_load files phase
  /\ exists_ files' phase = exists_ files phase.
Proof.
  intros Heq. unfold load, load_body, exists_. by rewrite Heq.
Qed.

End CheckpointFiles.

(** ** CheckpointManager: load *)

Section LoadProperties.
Import checkpoint.
Context {Text : Type}.
Variable json_load : Text -> option json.
Implicit Types (files : gmap string Text).

(** X17. [load(phase)] returns data exactly when the phase file exists
    and holds a JSON object whose "metadata" entry is an object with the
    keys "episode_id" and "timestamp" and whose "data" entry is a list, an
    object or a string; it then returns that "data" entry. It returns
    [None] exactly when the phase file does not exist. *)
Theorem load_returns_data_iff_well_formed files (phase : string) :
  (forall data,
     load json_load files phase = Returned (Some data) <->
     exists text m metadata,
       files !! (phase ++ ".json")%string = Some text
       /\ json_load text = Some (JDict m)
       /\ m !! "metadata"%string = Some (JDict metadata)
       /\ m !! "data"%string = Some data
       /\ is_Some (metadata !! "episode_id"%string)
       /\ is_Some (metadata !! "timestamp"%string)
       /\ match data with
          | JList _ | JDict _ | JStr _ => True
          | _ => False
          end)
  /\ (load json_load files phase = Returned None <->
      files !! (phase ++ ".json")%string = None).
Proof.
  unfold load, load_body. split.
  - intros data. split.
    + destruct (files !! _) as [text|]; [|discriminate].
      destruct (json_load text) as [checkpoint|] eqn:Hload; [|discriminate].
      destruct checkpoint as [| | | | s | l | m]; cbn [py_in bind];
        try discriminate.
      * destruct (contains _ s); cbn [negb]; [|discriminate].
        destruct (contains _ s); cbn [negb]; discriminate.
      * destruct (existsb _ l); cbn [negb]; [|discriminate].
        destruct (existsb _ l); cbn [negb]; discriminate.
      * destruct (m !! "metadata"%string) as [metadata|] eqn:Hmeta.
        2: { rewrite bool_decide_eq_false_2 by (by intros [? ?]).
             discriminate. }
        rewrite bool_decide_eq_true_2 by done. cbn [negb].
        destruct (m !! "data"%string) as [d|] eqn:Hdata.
        2: { rewrite bool_decide_eq_false_2 by (by intros [? ?]).
             discriminate. }
        rewrite bool_decide_eq_true_2 by done. cbn [negb subscript bind].
        rewrite Hmeta, Hdata. cbn [bind].
        destruct metadata as [| | | | | | md]; cbn [subscript bind];
          try discriminate.
        destruct (md !! "episode_id"%string) eqn:Heid; [|discriminate].
        cbn [bind].
        destruct d; cbn [py_len bind]; try discriminate;
          (destruct (md !! "timestamp"%string) eqn:Hts; [|discriminate]);
          intros [= <-]; eexists text, m, md;
          repeat split; try done; by eexists.
    + intros (text & m & md & -> & -> & Hmeta & Hdata & [eid Heid]
              & [ts Hts] & Hsized).
      cbn [py_in bind]. rewrite Hmeta, Hdata.
      rewrite !bool_decide_eq_true_2 by done. cbn [negb subscript bind].
      rewrite Hmeta, Hdata. cbn [subscript bind]. rewrite Heid, Hts.
      cbn [bind]. by destruct data.
  - destruct (files !! _) as [text|]; [|done].
    split; [|discriminate].
    destruct (json_load text) as [checkpoint|]; [|discriminate].
    destruct checkpoint as [| | | | s | l | m]; cbn [py_in bind];
      try discriminate.
    + destruct (contains _ s); cbn [negb]; [|discriminate].
      destruct (contains _ s); cbn [negb]; discriminate.
    + destruct (existsb _ l); cbn [negb]; [|discriminate].
      destruct (existsb _ l); cbn [negb]; discriminate.
    + destruct (bool_decide _); cbn [negb]; [|discriminate].
      destruct (bool_decide _); cbn [negb subscript bind]; [|discriminate].
      destruct (m !! "metadata"%string) as [metadata|]; [|discriminate].
      cbn [bind].
      destruct (m !! "data"%string) as [d|]; [|discriminate]. cbn [bind].
      destruct metadata as [| | | | | | md]; cbn [subscript bind];
        try discriminate.
      destruct (md !! "episode_id"%string); [|discriminate]. cbn [bind].
      destruct d; cbn [py_len bind]; try discriminate;
        destruct (md !! "timestamp"%string); discriminate.
Qed.

End LoadProperties.

Section LoadErrors.
Import checkpoint.
Context {Text : Type}.
Variable json_load : Text -> option json.
Implicit Types (files : gmap string Text).

(** X18. How [load(phase)] fails on a phase file that exists. A text that
    is not JSON gives "Failed to load". A JSON object without the key
    "metadata" or without the key "data" gives "Invalid checkpoint
    structure". A JSON null, boolean or number gives "Failed to load" (a
    [TypeError] of the membership test). A JSON list passes the structure
    test when it holds the strings "metadata" and "data", and then fails
    with "Failed to load"; otherwise it gives "Invalid checkpoint
    structure". An object whose metadata object lacks "episode_id" gives
    "Failed to load" with the [KeyError]. *)
Theorem load_error_cases files (phase : string) (text : Text) :
  files !! (phase ++ ".json")%string = Some text ->
  (json_load text = None ->
   load json_load files phase = Raised (FailedToLoad phase JSONDecodeError))
  /\ (forall m,
        json_load text = Some (JDict m) ->
        m !! "metadata"%string = None \/ m !! "data"%string = None ->
        load json_load files phase
        = Raised (InvalidStructure (phase ++ ".json")))
  /\ (forall checkpoint,
        json_load text = Some checkpoint ->
        match checkpoint with
        | JNull | JBool _ | JInt _ | JFloat _ => True
        | _ => False
        end ->
        load json_load files phase = Raised (FailedToLoad phase TypeError))
  /\ (forall l,
        json_load text = Some (JList l) ->
        load json_load files phase
        = Raised (if existsb (is_str "metadata") l
                     && existsb (is_str "data") l
                  then FailedToLoad phase TypeError
                  else InvalidStructure (phase ++ ".json")))
  /\ (forall m metadata,
        json_load text = Some (JDict m) ->
        m !! "metadata"%string = Some (JDict metadata) ->
        is_Some (m !! "data"%string) ->
        metadata !! "episode_id"%string = None ->
        load json_load files phase
        = Raised (FailedToLoad phase (KeyError "episode_id"))).
Proof.
  intros Hfile. unfold load, load_body. rewrite Hfile.
  split; [|split; [|split; [|split]]].
  - by intros ->.
  - intros m -> Hmissing. cbn [py_in bind].
    destruct (m !! "metadata"%string) as [metadata|] eqn:Hmeta.
    + destruct Hmissing as [?|Hdata]; [done|]. rewrite Hdata.
      rewrite bool_decide_eq_true_2 by done. cbn [negb].
      by rewrite bool_decide_eq_false_2 by (by intros [? ?]).
    + by rewrite bool_decide_eq_false_2 by (by intros [? ?]).
  - intros checkpoint -> Hkind. by destruct checkpoint.
  - intros l ->. cbn [py_in bind].
    destruct (existsb (is_str "metadata") l); cbn [negb andb]; [|done].
    by destruct (existsb (is_str "data") l).
  - intros m metadata -> Hmeta [d Hdata] Heid. cbn [py_in bind].
    rewrite Hmeta, Hdata. rewrite !bool_decide_eq_true_2 by done.
    cbn [negb subscript bind]. rewrite Hmeta, Hdata.
    cbn [subscript bind]. by rewrite Heid.
Qed.

End LoadErrors.

Lemma load_error_cases_witness :
  let files : gmap string string :=
    {[ "beliefs_raw.json"%string := "{ not json"%string ]} in
  files !! ("beliefs_raw" ++ ".json")%string = Some "{ not json"%string
  /\ checkpoint.load (fun _ : string => None) files "beliefs_raw"
     = Raised (checkpoint.FailedToLoad "beliefs_raw"
                 checkpoint.JSONDecodeError).
Proof.
  intros files.
  assert (H : files !! ("beliefs_raw" ++ ".json")%string
              = Some "{ not json"%string) by reflexivity.
  exact (conj H (proj1 (load_error_cases (fun _ : string => None) files
                          "beliefs_raw" "{ not json"%string H) eq_refl)).
Defined.

(** ** CheckpointManager: save, delete and the resume point *)

Section SaveDelete.
Import checkpoint.
Context {Text : Type}.
Variable json_dump : json -> Text.
Variable json_load : Text -> option json.
Implicit Types (files : gmap string Text) (phases : list string).

Lemma save_other_phase_file (enabled : bool) (episode_id : string) files
    (phase other : string) (data : list pyval)
    (stats : option (gmap string pyval)) (timestamp : string) :
  other <> phase ->
  (save json_dump enabled episode_id files phase data stats timestamp).1
    !! (other ++ ".json")%string
  = files !! (other ++ ".json")%string.
Proof.
  intros Hother. apply save_lookup_other.
  - intros Heq. by apply string_app_inj_r in Heq.
  - unfold with_suffix. intros Heq. symmetry in Heq.
    by apply tmp_name_not_json in Heq.
Qed.

(** X19. For plain phase names, [save(phase, ...)] leaves the checkpoint
    of every other phase as it was: for another phase [exists] and [load]
    give what they gave before, whether checkpointing is enabled or
    not. *)
Theorem save_leaves_other_phases (enabled : bool) (episode_id : string) files
    (phase other : string) (data : list pyval)
    (stats : option (gmap string pyval)) (timestamp : string) :
  plain phase = true ->
  plain other = true ->
  other <> phase ->
  let files' :=
    (save json_dump enabled episode_id files phase data stats timestamp).1 in
  exists_ files' other = exists_ files other
  /\ load json_load files' other = load json_load files other.
Proof.
  intros _ _ Hother files'.
  assert (Hsame : files' !! (other ++ ".json")%string
                  = files !! (other ++ ".json")%string)
    by (by apply save_other_phase_file).
  destruct (load_depends_on_phase_file json_load files files' other Hsame).
  done.
Qed.

Lemma delete_lookup files (phase name : string) :
  delete_ files phase !! name
  = if decide (name = (phase ++ ".json")%string) then None else files !! name.
Proof.
  unfold delete_.
  destruct (files !! (phase ++ ".json")%string) eqn:Hfile.
  - case_decide as Hname; [subst; apply lookup_delete_eq|].
    by apply lookup_delete_ne.
  - case_decide as Hname; [by subst | done].
Qed.

(** X20. For plain phase names: after [delete(phase)] the phase has no
    checkpoint, [exists] is false and [load] returns [None]; every other
    phase is as before; and deleting a phase that has no checkpoint
    changes nothing. *)
Theorem delete_removes_only_phase files (phase : string) :
  plain phase = true ->
  exists_ (delete_ files phase) phase = false
  /\ load json_load (delete_ files phase) phase = Returned None
  /\ (forall other,
        plain other = true ->
        other <> phase ->
        exists_ (delete_ files phase) other = exists_ files other
        /\ load json_load (delete_ files phase) other
           = load json_load files other)
  /\ (exists_ files phase = false -> delete_ files phase = files).
Proof.
  intros _. split; [|split; [|split]].
  - unfold exists_. rewrite delete_lookup, decide_True by done.
    by apply bool_decide_eq_false_2, is_Some_None.
  - unfold load, load_body. by rewrite delete_lookup, decide_True.
  - intros other _ Hother.
    assert (Hsame : delete_ files phase !! (other ++ ".json")%string
                    = files !! (other ++ ".json")%string).
    { rewrite delete_lookup, decide_False; [done|].
      intros Heq. by apply string_app_inj_r in Heq. }
    destruct (load_depends_on_phase_file json_load files _ other Hsame).
    done.
  - unfold exists_, delete_. intros Hnone.
    apply bool_decide_eq_false_1 in Hnone.
    destruct (files !! (phase ++ ".json")%string); [|done].
    destruct Hnone. by eexists.
Qed.

(** X21. After [delete_all()] no phase with a plain name has a
    checkpoint: [exists] is false, [load] returns [None] and
    [get_last_checkpoint] returns [None] for every order of plain phase
    names. The files that do not match [*.json] are left in place. *)
Theorem delete_all_removes_every_checkpoint files :
  (forall phase,
     plain phase = true ->
     exists_ (delete_all files) phase = false
     /\ load json_load (delete_all files) phase = Returned None)
  /\ (forall phases,
        Forall (fun phase => plain phase = true) phases ->
        get_last_checkpoint phases (delete_all files) = None)
  /\ (forall name,
        is_json name = false -> delete_all files !! name = files !! name).
Proof.
  assert (Hgone : forall phase,
            delete_all files !! (phase ++ ".json")%string = None).
  { intros phase. unfold delete_all. rewrite left_lookup.
    by rewrite phase_file_is_json. }
  assert (Hexists : forall phase, exists_ (delete_all files) phase = false).
  { intros phase. unfold exists_. rewrite Hgone.
    by apply bool_decide_eq_false_2, is_Some_None. }
  split; [|split].
  - intros phase _. split; [done|].
    unfold load, load_body. by rewrite Hgone.
  - intros phases _. apply get_last_checkpoint_None. auto.
  - intros name Hname. unfold delete_all. by rewrite left_lookup, Hname.
Qed.

(** X22. Saving a phase of the order, with checkpointing enabled, never
    moves the resume point backwards: afterwards [get_last_checkpoint]
    returns a phase that has neither the saved phase nor the previous
    resume point after it in the order. *)
Theorem save_advances_last_checkpoint phases (episode_id : string) files
    (phase : string) (data : list pyval) (stats : option (gmap string pyval))
    (timestamp : string) :
  phase ∈ phases ->
  let files' :=
    (save json_dump true episode_id files phase data stats timestamp).1 in
  exists last earlier later,
    get_last_checkpoint phases files' = Some last
    /\ phases = earlier ++ last :: later
    /\ (phase ∉ later)
    /\ (forall previous,
          get_last_checkpoint phases files = Some previous ->
          previous ∉ later).
Proof.
  intros Hin files'.
  assert (Hsaved : exists_ files' phase = true).
  { unfold exists_. apply bool_decide_eq_true_2. apply save_lookup_phase. }
  assert (Hkept : forall x, exists_ files x = true -> exists_ files' x = true).
  { intros x Hx. destruct (decide (x = phase)) as [->|Hne]; [done|].
    unfold exists_ in *. subst files'.
    by rewrite save_other_phase_file. }
  destruct (get_last_checkpoint phases files') as [last|] eqn:Hlast.
  - apply get_last_checkpoint_Some in Hlast
      as (earlier & later & Hphases & Hlast_saved & Hlater).
    exists last, earlier, later. split; [done|]. split; [done|]. split.
    + intros Hp. apply Hlater in Hp. congruence.
    + intros previous Hprev Hp.
      apply get_last_checkpoint_Some in Hprev as (_ & _ & _ & Hsv & _).
      apply Hkept in Hsv. apply Hlater in Hp. congruence.
  - exfalso.
    pose proof (proj1 (get_last_checkpoint_None phases files') Hlast phase Hin).
    congruence.
Qed.

End SaveDelete.

Lemma save_leaves_other_phases_witness :
  let files : gmap string checkpoint.json :=
    {[ "utterances.json"%string := checkpoint.JNull ]} in
  let files' :=
    (checkpoint.save id true "episode_001" files "beliefs_raw"
       [checkpoint.PInt 1] None "2024-01-01T00:00:00").1 in
  checkpoint.plain "beliefs_raw" = true
  /\ checkpoint.plain "utterances" = true
  /\ "utterances"%string <> "beliefs_raw"%string
  /\ checkpoint.exists_ files' "utterances" = checkpoint.exists_ files "utterances"
  /\ checkpoint.load Some files' "utterances"
     = checkpoint.load Some files "utterances".
Proof.
  intros files files'.
  assert (H1 : checkpoint.plain "beliefs_raw" = true) by reflexivity.
  assert (H2 : checkpoint.plain "utterances" = true) by reflexivity.
  assert (H : "utterances"%string <> "beliefs_raw"%string) by discriminate.
  exact (conj H1 (conj H2 (conj H
           (save_leaves_other_phases id Some true "episode_001" files
              "beliefs_raw" "utterances" [checkpoint.PInt 1] None
              "2024-01-01T00:00:00" H1 H2 H)))).
Defined.

Lemma delete_removes_only_phase_witness :
  let files : gmap string checkpoint.json :=
    {[ "utterances.json"%string := checkpoint.JNull;
       "beliefs_raw.json"%string := checkpoint.JNull ]} in
  checkpoint.plain "beliefs_raw" = true
  /\ checkpoint.plain "utterances" = true
  /\ "utterances"%string <> "beliefs_raw"%string
  /\ checkpoint.exists_ (checkpoint.delete_ files "beliefs_raw") "beliefs_raw"
     = false
  /\ checkpoint.exists_ (checkpoint.delete_ files "beliefs_raw") "utterances"
     = checkpoint.exists_ files "utterances"
  /\ checkpoint.load Some (checkpoint.delete_ files "beliefs_raw") "utterances"
     = checkpoint.load Some files "utterances".
Proof.
  intros files.
  assert (H1 : checkpoint.plain "beliefs_raw" = true) by reflexivity.
  assert (H2 : checkpoint.plain "utterances" = true) by reflexivity.
  assert (H : "utterances"%string <> "beliefs_raw"%string) by discriminate.
  destruct (delete_removes_only_phase Some files "beliefs_raw" H1)
    as (Hgone & _ & Hothers & _).
  exact (conj H1 (conj H2 (conj H (conj Hgone
           (Hothers "utterances"%string H2 H))))).
Defined.

Lemma delete_all_removes_every_checkpoint_witness :
  let files : gmap string checkpoint.json :=
    {[ "utterances.json"%string := checkpoint.JNull;
       "beliefs_raw.tmp"%string := checkpoint.JNull ]} in
  checkpoint.plain "utterances" = true
  /\ checkpoint.exists_ (checkpoint.delete_all files) "utterances" = false
  /\ checkpoint.is_json "beliefs_raw.tmp" = false
  /\ checkpoint.delete_all files !! "beliefs_raw.tmp"%string
     = files !! "beliefs_raw.tmp"%string.
Proof.
  intros files.
  assert (H1 : checkpoint.plain "utterances" = true) by reflexivity.
  assert (H : checkpoint.is_json "beliefs_raw.tmp" = false) by reflexivity.
  destruct (delete_all_removes_every_checkpoint Some files)
    as (Hphases & _ & Hkept).
  exact (conj H1 (conj (proj1 (Hphases "utterances"%string H1))
           (conj H (Hkept "beliefs_raw.tmp"%string H)))).
Defined.

Lemma save_advances_last_checkpoint_witness :
  let files : gmap string checkpoint.json :=
    {[ "utterances.json"%string := checkpoint.JNull ]} in
  let files' :=
    (checkpoint.save id true "episode_001" files "beliefs_raw"
       [checkpoint.PInt 1] None "2024-01-01T00:00:00").1 in
  "beliefs_raw"%string ∈ config.CHECKPOINT_PHASES
  /\ exists last earlier later,
       checkpoint.get_last_checkpoint config.CHECKPOINT_PHASES files'
       = Some last
       /\ config.CHECKPOINT_PHASES = earlier ++ last :: later
       /\ ("beliefs_raw"%string ∉ later)
       /\ (forall previous,
             checkpoint.get_last_checkpoint config.CHECKPOINT_PHASES files
             = Some previous ->
             previous ∉ later).
Proof.
  intros files files'.
  assert (H : "beliefs_raw"%string ∈ config.CHECKPOINT_PHASES)
    by (unfold config.CHECKPOINT_PHASES; right; left).
  exact (conj H (save_advances_last_checkpoint id config.CHECKPOINT_PHASES
                   "episode_001" files "beliefs_raw" [checkpoint.PInt 1] None
                   "2024-01-01T00:00:00" H)).
Defined.

(** ** cleanup_old_checkpoints, run again *)

Section CleanupAgain.
Import checkpoint.
Context {Text : Type}.
Implicit Types (root : gmap string (node (Text := Text))).

Lemma filter_not_json_idemp (entries : gmap string Text) :
  filter (fun kv : string * Text => ¬ is_json kv.1)
    (filter (fun kv : string * Text => ¬ is_json kv.1) entries)
  = filter (fun kv : string * Text => ¬ is_json kv.1) entries.
Proof.
  apply map_eq. intros name. rewrite !left_lookup.
  by destruct (is_json name).
Qed.

Lemma cleanup_entry_twice (cutoff_date now : Q) (n n' : node (Text := Text)) :
  (cutoff_date <= now)%Q ->
  cleanup_entry cutoff_date now n = Some n' ->
  cleanup_entry cutoff_date now n' = Some n'.
Proof.
  intros Hcut. destruct n as [content|mtime entries]; simpl.
  { by intros [= <-]. }
  destruct (Qlt_le_dec mtime cutoff_date) as [Hold|Hnew].
  2: { intros [= <-]. simpl. destruct (Qlt_le_dec mtime cutoff_date);
         [exfalso; by eapply Qlt_not_le | done]. }
  set (remaining := filter (fun kv : string * Text => ¬ is_json kv.1) entries).
  assert (Hidem : filter (fun kv : string * Text => ¬ is_json kv.1) remaining
                  = remaining) by apply filter_not_json_idemp.
  destruct (map_to_list remaining) as [|kv l] eqn:Hlist; [discriminate|].
  intros [= <-]. cbn [cleanup_entry].
  case_decide as Hsize.
  - destruct (Qlt_le_dec mtime cutoff_date) as [_|?];
      [|exfalso; by eapply Qlt_not_le].
    rewrite Hidem, Hlist. by rewrite decide_True.
  - destruct (Qlt_le_dec now cutoff_date) as [Hbad|_]; [|done].
    exfalso. by eapply Qlt_not_le.
Qed.

End CleanupAgain.

(** X23. Running [cleanup_old_checkpoints] a second time with the same
    [days] at the same time removes nothing more: the root is as the first
    run left it. With [days <= 0] the first run already changes
    nothing. *)
Theorem cleanup_old_checkpoints_idempotent {Text : Type} (days : option Z)
    (now : Q) (root : gmap string (checkpoint.node (Text := Text))) :
  checkpoint.cleanup_old_checkpoints days now
    (checkpoint.cleanup_old_checkpoints days now root)
  = checkpoint.cleanup_old_checkpoints days now root
  /\ (if_not_None days config.CHECKPOINT_CLEANUP_DAYS <= 0 ->
      checkpoint.cleanup_old_checkpoints days now root = root).
Proof.
  unfold checkpoint.cleanup_old_checkpoints.
  set (d := if_not_None days config.CHECKPOINT_CLEANUP_DAYS).
  destruct (decide (d <= 0)) as [Hoff|Hon]; [done|].
  split; [|lia].
  assert (Hcut : (now - inject_Z (d * 86400) <= now)%Q).
  { assert (0 <= inject_Z (d * 86400))%Q
      by (change 0%Q with (inject_Z 0); rewrite <- Zle_Qle; lia).
    lra. }
  apply map_eq. intros name. rewrite !lookup_omap.
  destruct (root !! name) as [n|]; [|done]. simpl.
  destruct (checkpoint.cleanup_entry _ now n) as [n'|] eqn:Hn; [|done].
  simpl. by eapply cleanup_entry_twice.
Qed.

Lemma cleanup_old_checkpoints_idempotent_witness :
  let root : gmap string checkpoint.node :=
    {[ "episode_001"%string :=
         checkpoint.Dir 1000 {[ "utterances.json"%string := "[]"%string ]} ]} in
  if_not_None (Some 0) config.CHECKPOINT_CLEANUP_DAYS <= 0
  /\ checkpoint.cleanup_old_checkpoints (Some 0) 3000000 root = root.
Proof.
  intros root.
  assert (H : if_not_None (Some 0) config.CHECKPOINT_CLEANUP_DAYS <= 0)
    by (vm_compute; discriminate).
  exact (conj H (proj2 (cleanup_old_checkpoints_idempotent (Some 0) 3000000
                          root) H)).
Defined.

(** ** QualityScorer: counters, score and grade *)

Section QualityCounters.
Import quality_scorer.

Lemma inner_score_drop (x : Z) (w rest : Q) :
  (0 <= w)%Q ->
  (rest - inject_Z (x + 1) * w <= rest - inject_Z x * w)%Q.
Proof. intros Hw. rewrite inject_Z_plus. change (inject_Z 1) with 1%Q. lra. Qed.

Lemma calculate_score_apply_le (m : QualityMetrics) (c : call) :
  (calculate_score (apply m c) <= calculate_score m)%Q.
Proof.
  unfold calculate_score,
    config.QUALITY_PENALTY_ERROR, config.QUALITY_PENALTY_RETRY,
    config.QUALITY_PENALTY_MALFORMED, config.QUALITY_PENALTY_MISMATCH.
  apply Q.max_le_compat_l.
  destruct c; cbn [apply add_parsing_error add_api_error add_retry
                   add_malformed_belief add_registry_mismatch add_warning
                   errors_count retries_count malformed_beliefs_count
                   registry_mismatches_count];
    rewrite ?inject_Z_plus; change (inject_Z 1) with 1%Q; lra.
Qed.

Lemma counts_after (cs : list call) : forall m : QualityMetrics,
  let m' := foldl apply m cs in
  errors_count m' = errors_count m + Z.of_nat (length (filter is_error cs))
  /\ retries_count m'
     = retries_count m + Z.of_nat (length (filter is_retry cs))
  /\ malformed_beliefs_count m'
     = malformed_beliefs_count m
       + Z.of_nat (length (filter is_malformed cs))
  /\ registry_mismatches_count m'
     = registry_mismatches_count m
       + Z.of_nat (length (filter is_mismatch cs))
  /\ (length (parsing_errors m') + length (api_errors m')
      = length (parsing_errors m) + length (api_errors m)
        + length (filter is_error cs))%nat.
Proof.
  induction cs as [|c cs IH]; intros m.
  - simpl. repeat split; lia.
  - cbn [foldl]. destruct (IH (apply m c)) as (He & Hr & Hm & Hx & Hl).
    cbn zeta. rewrite He, Hr, Hm, Hx, Hl.
    assert (Hf : forall P : call -> bool,
              length (filter P (c :: cs))
              = ((if P c then 1 else 0) + length (filter P cs))%nat).
    { intros P. rewrite filter_cons. destruct (P c) eqn:HP.
      - by rewrite decide_True by done.
      - by rewrite decide_False by (intros []). }
    rewrite !Hf.
    destruct c; cbn [apply add_parsing_error add_api_error add_retry
                     add_malformed_belief add_registry_mismatch add_warning
                     errors_count retries_count malformed_beliefs_count
                     registry_mismatches_count parsing_errors api_errors
                     is_error is_retry is_malformed is_mismatch];
      rewrite ?length_app; cbn [length]; repeat split; lia.
Qed.

End QualityCounters.

(** X24. No call of the six methods raises the score. A warning leaves it
    as it is, and while the score is at least 2 (at least 0.5) an error (a
    retry) lowers it by exactly 2 (0.5). *)
Theorem calculate_score_never_rises (m : quality_scorer.QualityMetrics) :
  (forall c : quality_scorer.call,
     (quality_scorer.calculate_score (quality_scorer.apply m c)
      <= quality_scorer.calculate_score m)%Q)
  /\ (forall warning,
        quality_scorer.calculate_score (quality_scorer.add_warning warning m)
        = quality_scorer.calculate_score m)
  /\ (forall error,
        (2 <= quality_scorer.calculate_score m)%Q ->
        (quality_scorer.calculate_score (quality_scorer.add_api_error error m)
         == quality_scorer.calculate_score m - 2)%Q
        /\ (quality_scorer.calculate_score
              (quality_scorer.add_parsing_error error m)
            == quality_scorer.calculate_score m - 2)%Q)
  /\ ((0.5 <= quality_scorer.calculate_score m)%Q ->
      (quality_scorer.calculate_score (quality_scorer.add_retry m)
       == quality_scorer.calculate_score m - 0.5)%Q).
Proof.
  split; [apply calculate_score_apply_le|]. split; [done|].
  unfold quality_scorer.calculate_score,
    config.QUALITY_PENALTY_ERROR, config.QUALITY_PENALTY_RETRY,
    config.QUALITY_PENALTY_MALFORMED, config.QUALITY_PENALTY_MISMATCH.
  cbn [quality_scorer.add_api_error quality_scorer.add_parsing_error
       quality_scorer.add_retry quality_scorer.errors_count
       quality_scorer.retries_count quality_scorer.malformed_beliefs_count
       quality_scorer.registry_mismatches_count].
  rewrite !inject_Z_plus. change (inject_Z 1) with 1%Q.
  set (e := inject_Z (quality_scorer.errors_count m)).
  set (r := inject_Z (quality_scorer.retries_count m)).
  set (b := inject_Z (quality_scorer.malformed_beliefs_count m)).
  set (x := inject_Z (quality_scorer.registry_mismatches_count m)).
  clearbody e r b x.
  split.
  - intros _ Hroom.
    destruct (Q.max_spec 0 (100 - e * 2 - r * (1 # 2) - b * 1 - x * (1 # 2)))
      as [[Hlt Hmax]|[Hle Hmax]]; rewrite Hmax in Hroom |- *;
      [|exfalso; lra].
    assert (Hnew : (Qmax 0 (100 - (e + 1) * 2 - r * (1 # 2) - b * 1
                            - x * (1 # 2))
                    == 100 - (e + 1) * 2 - r * (1 # 2) - b * 1
                       - x * (1 # 2))%Q)
      by (apply Q.max_r; lra).
    rewrite Hnew. split; lra.
  - intros Hroom.
    destruct (Q.max_spec 0 (100 - e * 2 - r * (1 # 2) - b * 1 - x * (1 # 2)))
      as [[Hlt Hmax]|[Hle Hmax]]; rewrite Hmax in Hroom |- *;
      [|exfalso; lra].
    assert (Hnew : (Qmax 0 (100 - e * 2 - (r + 1) * (1 # 2) - b * 1
                            - x * (1 # 2))
                    == 100 - e * 2 - (r + 1) * (1 # 2) - b * 1
                       - x * (1 # 2))%Q)
      by (apply Q.max_r; lra).
    rewrite Hnew. lra.
Qed.

Lemma calculate_score_never_rises_witness :
  let m :=
    quality_scorer.metrics_after "episode_001" "2024-01-01T00:00:00"
      [quality_scorer.AddRetry] in
  (2 <= quality_scorer.calculate_score m)%Q
  /\ (quality_scorer.calculate_score (quality_scorer.add_api_error "HTTP 500" m)
      == quality_scorer.calculate_score m - 2)%Q.
Proof.
  intros m.
  assert (H : (2 <= quality_scorer.calculate_score m)%Q)
    by (vm_compute; discriminate).
  exact (conj H (proj1 (proj1 (proj2 (proj2 (calculate_score_never_rises m)))
                         "HTTP 500"%string H))).
Defined.

(** X25. After any calls of the six methods on fresh metrics, each
    counter is the number of calls that feed it: [errors_count] counts the
    parsing and API errors and equals the number of recorded error
    messages, [retries_count] the retries, [malformed_beliefs_count] the
    malformed beliefs and [registry_mismatches_count] the mismatches. *)
Theorem counters_count_calls (episode_id now : string)
    (cs : list quality_scorer.call) :
  let m := quality_scorer.metrics_after episode_id now cs in
  quality_scorer.errors_count m
  = Z.of_nat (length (filter quality_scorer.is_error cs))
  /\ quality_scorer.errors_count m
     = Z.of_nat (length (quality_scorer.parsing_errors m)
                 + length (quality_scorer.api_errors m))
  /\ quality_scorer.retries_count m
     = Z.of_nat (length (filter quality_scorer.is_retry cs))
  /\ quality_scorer.malformed_beliefs_count m
     = Z.of_nat (length (filter quality_scorer.is_malformed cs))
  /\ quality_scorer.registry_mismatches_count m
     = Z.of_nat (length (filter quality_scorer.is_mismatch cs)).
Proof.
  intros m. subst m. unfold quality_scorer.metrics_after.
  destruct (counts_after cs (quality_scorer.init episode_id now))
    as (He & Hr & Hm & Hx & Hl).
  cbn zeta in *. simpl in He, Hr, Hm, Hx, Hl.
  repeat split; lia.
Qed.

(** X26. With the configured cutoffs the grade is A from 90 up, B from 80
    up to 90, C from 70 up to 80, D from 60 up to 70 and F below 60;
    [calculate_grade] never fails and returns no other grade. *)
Theorem calculate_grade_bands (score : Q) :
  let grade := quality_scorer.calculate_grade config.QUALITY_THRESHOLDS score in
  (grade = Some "A"%string <-> (90 <= score)%Q)
  /\ (grade = Some "B"%string <-> (80 <= score)%Q /\ (score < 90)%Q)
  /\ (grade = Some "C"%string <-> (70 <= score)%Q /\ (score < 80)%Q)
  /\ (grade = Some "D"%string <-> (60 <= score)%Q /\ (score < 70)%Q)
  /\ (grade = Some "F"%string <-> (score < 60)%Q)
  /\ grade ∈ [Some "A"; Some "B"; Some "C"; Some "D"; Some "F"]%string.
Proof.
  intros grade. subst grade.
  unfold quality_scorer.calculate_grade, quality_scorer.meets.
  change (config.QUALITY_THRESHOLDS !! "A"%string) with (Some 90).
  change (config.QUALITY_THRESHOLDS !! "B"%string) with (Some 80).
  change (config.QUALITY_THRESHOLDS !! "C"%string) with (Some 70).
  change (config.QUALITY_THRESHOLDS !! "D"%string) with (Some 60).
  cbn [mbind option_bind].
  change (inject_Z 90) with 90%Q. change (inject_Z 80) with 80%Q.
  change (inject_Z 70) with 70%Q. change (inject_Z 60) with 60%Q.
  assert (Hb : forall c : Q,
            (Qle_bool c score = true /\ (c <= score)%Q)
            \/ (Qle_bool c score = false /\ (score < c)%Q)).
  { intros c. destruct (Qle_bool c score) eqn:Hc.
    - left. split; [done|]. by apply Qle_bool_iff.
    - right. split; [done|]. apply Qnot_le_lt. intros Hle.
      apply Qle_bool_iff in Hle. congruence. }
  destruct (Hb 90%Q) as [[-> H90]|[-> H90]].
  { repeat split; try done; try discriminate; try (intros [? ?]; lra);
      try (intros ?; lra). rewrite !elem_of_cons. tauto. }
  destruct (Hb 80%Q) as [[-> H80]|[-> H80]].
  { repeat split; try done; try discriminate; try (intros [? ?]; lra);
      try (intros ?; lra). rewrite !elem_of_cons. tauto. }
  destruct (Hb 70%Q) as [[-> H70]|[-> H70]].
  { repeat split; try done; try discriminate; try (intros [? ?]; lra);
      try (intros ?; lra). rewrite !elem_of_cons. tauto. }
  destruct (Hb 60%Q) as [[-> H60]|[-> H60]].
  { repeat split; try done; try discriminate; try (intros [? ?]; lra);
      try (intros ?; lra). rewrite !elem_of_cons. tauto. }
  repeat split; try done; try discriminate; try (intros [? ?]; lra);
    try (intros ?; lra). rewrite !elem_of_cons. tauto.
Qed.

(** ** cleanup_old_checkpoints and the resume point *)

(** X27. Once [cleanup_old_checkpoints(days)], [days > 0], has gone over
    a run directory modified strictly before [now - days], that run has no
    resume point left: [get_resume_point] returns [None] for it, for every
    order of plain phase names, whether the directory itself was removed
    or kept for its other files. *)
Theorem cleanup_then_no_resume_point {Text : Type} (days : Z) (now later : Q)
    (root : gmap string (checkpoint.node (Text := Text)))
    (phases : list string) (episode_id : string) (mtime : Q)
    (entries : gmap string Text) :
  0 < days ->
  checkpoint.component episode_id = true ->
  Forall (fun phase => checkpoint.plain phase = true) phases ->
  root !! episode_id = Some (checkpoint.Dir mtime entries) ->
  (mtime < now - inject_Z (days * 86400))%Q ->
  checkpoint.get_resume_point phases
    (checkpoint.cleanup_old_checkpoints (Some days) now root) episode_id later
  = Some None.
Proof.
  intros Hdays _ _ Hdir Hold.
  set (root' := checkpoint.cleanup_old_checkpoints (Some days) now root).
  assert (Hentry : root' !! episode_id = None
            \/ exists mtime',
                 root' !! episode_id
                 = Some (checkpoint.Dir mtime'
                           (filter (fun kv : string * Text =>
                                      ¬ checkpoint.is_json kv.1) entries))).
  { subst root'. rewrite cleanup_lookup, Hdir by done. simpl.
    destruct (Qlt_le_dec mtime _) as [_|Hnew];
      [|exfalso; by eapply Qlt_not_le].
    destruct (map_to_list _); [by left | right; by eexists]. }
  assert (Hnone : forall root'',
            checkpoint.checkpoint_dir root'' episode_id = ∅
            \/ checkpoint.checkpoint_dir root'' episode_id
               = filter (fun kv : string * Text =>
                           ¬ checkpoint.is_json kv.1) entries ->
            checkpoint.get_last_checkpoint phases
              (checkpoint.checkpoint_dir root'' episode_id) = None).
  { intros root'' Hfiles. apply get_last_checkpoint_None. intros q _.
    unfold checkpoint.exists_. apply bool_decide_eq_false_2.
    destruct Hfiles as [-> | ->].
    - rewrite lookup_empty. apply is_Some_None.
    - rewrite left_lookup, phase_file_is_json. apply is_Some_None. }
  unfold checkpoint.get_resume_point, checkpoint.mkdir.
  destruct Hentry as [Hgone|[mtime' Hkept]].
  - rewrite Hgone. simpl. rewrite Hnone; [done|]. left.
    unfold checkpoint.checkpoint_dir. by rewrite lookup_insert_eq.
  - rewrite Hkept. simpl. rewrite Hnone; [done|]. right.
    unfold checkpoint.checkpoint_dir. by rewrite Hkept.
Qed.

Lemma cleanup_then_no_resume_point_witness :
  let root : gmap string checkpoint.node :=
    {[ "episode_001"%string :=
         checkpoint.Dir 1000
           {[ "utterances.json"%string := "[]"%string;
              "beliefs_raw.tmp"%string := "[" %string ]} ]} in
  0 < 30
  /\ checkpoint.component "episode_001" = true
  /\ Forall (fun phase => checkpoint.plain phase = true)
       config.CHECKPOINT_PHASES
  /\ root !! "episode_001"%string
     = Some (checkpoint.Dir 1000
               {[ "utterances.json"%string := "[]"%string;
                  "beliefs_raw.tmp"%string := "[" %string ]})
  /\ (1000 < 3000000 - inject_Z (30 * 86400))%Q
  /\ checkpoint.get_resume_point config.CHECKPOINT_PHASES
       (checkpoint.cleanup_old_checkpoints (Some 30) 3000000 root)
       "episode_001" 3000001
     = Some None.
Proof.
  intros root.
  assert (H1 : 0 < 30) by lia.
  assert (H2 : root !! "episode_001"%string
               = Some (checkpoint.Dir 1000
                         {[ "utterances.json"%string := "[]"%string;
                            "beliefs_raw.tmp"%string := "[" %string ]}))
    by apply lookup_singleton_eq.
  assert (H3 : (1000 < 3000000 - inject_Z (30 * 86400))%Q) by reflexivity.
  assert (H4 : checkpoint.component "episode_001" = true) by reflexivity.
  assert (H5 : Forall (fun phase => checkpoint.plain phase = true)
                 config.CHECKPOINT_PHASES)
    by (unfold config.CHECKPOINT_PHASES; repeat constructor).
  exact (conj H1 (conj H4 (conj H5 (conj H2 (conj H3
    (cleanup_then_no_resume_point 30 3000000 3000001 root
       config.CHECKPOINT_PHASES "episode_001" 1000 _ H1 H4 H5 H2 H3)))))).
Defined.
